(** * crashdec: decoder for drm/msm devcoredump traces

    A shallow embedding of [cffdump/crashdec.c]: the line reader with its
    one-line push-back, the ascii85 payload decoder, the scanf-driven
    [bos] section decoder and the command-stream reconstruction
    ([dump_cmdstream]) with its ring-buffer arithmetic.

    The C globals ([in], [lastline], [pushedline], [verbose], [options],
    [ringbuffers]) and the state of the collaborators the file calls into
    (register tracker, standard output, buffer registry) are gathered in
    one record, [world]; every C function becomes a function in a small
    state-and-failure monad over it. *)

From Stdlib Require Import ZArith List Ascii String Lia Bool.
From stdpp Require Import base option list gmap strings.

Local Open Scope Z_scope.

(** ** Machine integers *)

(** [uint32_t], [unsigned]: arithmetic is taken modulo [2^32]. *)
Definition wrap32 (x : Z) : Z := x mod 2 ^ 32.

(** [uint64_t]. *)
Definition wrap64 (x : Z) : Z := x mod 2 ^ 64.

(** The cast [(int)x] of a 32-bit value (two's complement). *)
Definition to_int (x : Z) : Z :=
  let u := wrap32 x in if u <? 2 ^ 31 then u else u - 2 ^ 32.

Definition is_u32 (x : Z) : Prop := 0 <= x < 2 ^ 32.

(** ** Observable behaviour *)

(** The line feed, and a helper to write C literals ending in a newline. *)
Definition LF : ascii := "010"%char.
Definition ln (s : string) : string := s +:+ String LF EmptyString.

(** Calls that leave the file, in the order they happen, together with
    the loads from a ring's backing store (which the reconstruction
    performs itself). *)
Inductive event :=
  | EvPrintf (fmt : string) (args : list Z)   (* printf(fmt, args...) *)
  | EvEcho (line : string)                    (* printf("%s", line) *)
  | EvRegVal (reg : Z)                        (* reg_val(reg) *)
  | EvResetRegs                               (* reset_regs() *)
  | EvRingLoad (id : nat) (pos : Z)           (* ringbuffers[id].buf[pos] *)
  | EvDumpCommands (dwords : list Z) (sizedwords level : Z)
      (regs_seen : gmap Z Z)                  (* dump_commands(buf, n, level) *)
  | EvAddBuffer (gpuaddr size : Z) (hostptr : list Z)
  | EvDumpHexAscii (buf : list Z) (size level : Z).

(** Undefined behaviour the C code can run into. *)
Inductive undefined :=
  | StorePastBuffer      (* buf[idx] = .. with idx outside the allocation *)
  | ReadPastLine         (* *line read after the terminating NUL *)
  | DivisionByZero       (* x % 0 *)
  | LoadPastBuffer.      (* load through a NULL or too short ring buffer *)

(** Ways a run stops before the function returns. *)
Inductive stop :=
  | Exit0                        (* exit(0): end of input *)
  | ParseError (fmt : string)    (* diagnostic on stderr, exit(1) *)
  | AssertFailed (expr : string) (* assert(expr) aborts *)
  | Undefined (u : undefined)
  | OutOfFuel.                   (* recursion budget of the model; never reached *)

(** ** Program state *)

(** One entry of [options.ibs[]]: [{ uint64_t base; uint32_t rem; }]. *)
Record ib := mk_ib { ib_base : Z; ib_rem : Z }.

(** The fields of [struct cffdec_options] the decoder touches;
    [ibs1]/[ibs2] stand for [options.ibs[1]] and [options.ibs[2]]. *)
Record cffdec_options := mk_options {
  gpu_id : Z;
  ibs1 : ib;
  ibs2 : ib
}.

(** An element of the static array [ringbuffers[5]]; [buf] is [None] for
    a NULL pointer, otherwise the words of the allocation. *)
Record ringbuffer := mk_ring {
  iova : Z;
  rptr : Z;
  wptr : Z;
  size : Z;
  buf : option (list Z)
}.

Definition ring_zero : ringbuffer := mk_ring 0 0 0 0 None.

Record world := mk_world {
  input : list string;          (* lines still to be read from [in] *)
  lastline : option string;
  pushedline : option string;
  verbose : bool;
  options : cffdec_options;
  ringbuffers : list ringbuffer;
  regs : gmap Z Z;              (* register state tracker *)
  out : list event              (* oldest event first *)
}.

Definition set_reader (i : list string) (l p : option string) (w : world) : world :=
  mk_world i l p (verbose w) (options w) (ringbuffers w) (regs w) (out w).
Definition set_pushedline (p : option string) (w : world) : world :=
  set_reader (input w) (lastline w) p w.
Definition set_options (o : cffdec_options) (w : world) : world :=
  mk_world (input w) (lastline w) (pushedline w) (verbose w) o
           (ringbuffers w) (regs w) (out w).
Definition set_regs (r : gmap Z Z) (w : world) : world :=
  mk_world (input w) (lastline w) (pushedline w) (verbose w) (options w)
           (ringbuffers w) r (out w).
Definition emit (e : event) (w : world) : world :=
  mk_world (input w) (lastline w) (pushedline w) (verbose w) (options w)
           (ringbuffers w) (regs w) (out w ++ [e]).

(** ** The monad *)

Inductive result (A : Type) :=
  | Ok (a : A) (w : world)
  | Stop (why : stop) (w : world).
Arguments Ok {A} a w.
Arguments Stop {A} why w.

Definition M (A : Type) : Type := world -> result A.

Definition ret {A} (a : A) : M A := fun w => Ok a w.
Definition bind {A B} (m : M A) (k : A -> M B) : M B :=
  fun w => match m w with
           | Ok a w' => k a w'
           | Stop why w' => Stop why w'
           end.
Definition halt {A} (why : stop) : M A := fun w => Stop why w.
Definition gets {A} (f : world -> A) : M A := fun w => Ok (f w) w.
Definition modify (f : world -> world) : M unit := fun w => Ok tt (f w).
Definition assert (b : bool) (expr : string) : M unit :=
  if b then ret tt else halt (AssertFailed expr).
Definition log (e : event) : M unit := modify (emit e).

(** [emit] repeated. *)
Definition emits (evs : list event) (w : world) : world :=
  mk_world (input w) (lastline w) (pushedline w) (verbose w) (options w)
           (ringbuffers w) (regs w) (out w ++ evs).

Notation "'let*' x ':=' m 'in' k" := (bind m (fun x => k))
  (at level 10, x name, m at level 100, k at level 200).

(** ** Line reading *)

Module LineReader.

(** [popline]: hand out the pushed-back line if there is one, otherwise
    read the next line with [getline]; the program exits at end of input. *)
Definition popline : M string := fun w =>
  match pushedline w with
  | Some r => Ok r (set_pushedline None w)
  | None =>
      match input w with
      | [] => Stop Exit0 w
      | r :: rest => Ok r (set_reader rest (Some r) None w)
      end
  end.

(** [pushline]: [assert(!pushedline); pushedline = lastline;]. *)
Definition pushline : M unit := fun w =>
  match pushedline w with
  | Some _ => Stop (AssertFailed "!pushedline") w
  | None => Ok tt (set_pushedline (lastline w) w)
  end.

(** A pushed-back line is always the line read last: [pushedline] is only
    ever assigned from [lastline]. *)
Definition reader_ok (w : world) : Prop :=
  forall p, pushedline w = Some p -> lastline w = Some p.

(** Lines that [popline] can still deliver. *)
Definition pending (w : world) : list string :=
  match pushedline w with Some p => [p] | None => [] end ++ input w.

End LineReader.
Import LineReader.

(** ** What the file takes from outside

    [crashdec.c] is compiled against libc and against the rest of cffdump
    (register database, packet helpers, disassembler), none of which it
    defines.  They are taken as parameters. *)

(** The C implementation: signedness of plain [char], and [vsscanf].
    [vsscanf line fmt] is [None] when the call returns [EOF], otherwise
    the converted values in the order of their conversions (the call
    returns their number and stores each through its pointer). *)
Class Libc := {
  char_is_signed : bool;
  vsscanf : string -> string -> option (list Z)
}.

(** cffdump: [regbase] (register name to index, [0] when unknown),
    the packet-header tests of the a5xx+ packet format, and what
    [dump_commands] leaves in the register tracker. *)
Class Cffdec := {
  regbase : string -> Z;
  pkt_is_type4 : Z -> bool;
  pkt_is_type7 : Z -> bool;
  dump_commands_regs : list Z -> Z -> Z -> cffdec_options -> gmap Z Z -> gmap Z Z
}.

(** ** ascii85 payloads *)

Module Ascii85.
Section WithLibc.
Context `{Libc}.

(** The value of a [char] promoted to [int]. *)
Definition char_val (c : ascii) : Z :=
  let n := Z.of_N (N_of_ascii c) in
  if char_is_signed && (128 <=? n) then n - 256 else n.

(** [*line]: the string's terminating NUL is read at its end. *)
Definition deref (line : string) : ascii :=
  match line with
  | String c _ => c
  | EmptyString => Ascii.zero
  end.

(** [while ( *line == ' ') line++;] *)
Fixpoint skip_spaces (line : string) : string :=
  match line with
  | String c rest => if (c =? " ")%char then skip_spaces rest else line
  | EmptyString => line
  end.

(** [accum *= 85; accum += *line - '!';] on a [uint32_t]. *)
Definition accumulate (accum : Z) (c : ascii) : Z :=
  wrap32 (wrap32 (accum * 85) + (char_val c - char_val "!"%char)).

(** The inner loop [for (i = 0; (i < 5) && ( *line != '\n'); i++)], with
    [n] iterations left.  It yields [accum] and where [line] points then:
    [Some rest], or [None] once the pointer has stepped over the
    terminating NUL.  The whole result is [None] when the loop condition
    itself reads behind the NUL. *)
Fixpoint ascii85_group (n : nat) (line : string) (accum : Z)
  : option (Z * option string) :=
  match n with
  | O => Some (accum, Some line)
  | S n' =>
      match line with
      | String c rest =>
          if (c =? LF)%char then Some (accum, Some line)
          else ascii85_group n' rest (accumulate accum c)
      | EmptyString =>
          match n' with
          | O => Some (accumulate accum Ascii.zero, None)
          | S _ => None
          end
      end
  end.

(** [buf[idx] = v] on an allocation of [length buf] words. *)
Definition store (buf : list Z) (idx : nat) (v : Z) : stop + list Z :=
  if (idx <? length buf)%nat then inr (<[idx := v]> buf)
  else inl (Undefined StorePastBuffer).

(** The outer loop [while ( *line != '\n')] of [popline_ascii85]. *)
Fixpoint ascii85_loop (fuel : nat) (line : string) (idx : nat) (buf : list Z)
  : stop + list Z :=
  match fuel with
  | O => inl OutOfFuel
  | S fuel' =>
      if (deref line =? LF)%char then inr buf
      else if (deref line =? "z")%char then
        match store buf idx 0 with
        | inr buf' =>
            match line with
            | String _ rest => ascii85_loop fuel' rest (S idx) buf'
            | EmptyString => inl (Undefined ReadPastLine)
            end
        | inl why => inl why
        end
      else
        match ascii85_group 5 line 0 with
        | None => inl (Undefined ReadPastLine)
        | Some (accum, line') =>
            match store buf idx accum with
            | inr buf' =>
                match line' with
                | Some rest => ascii85_loop fuel' rest (S idx) buf'
                | None => inl (Undefined ReadPastLine)
                end
            | inl why => inl why
            end
        end
  end.

(** Number of words in the block [calloc(1, 4 * sizedwords)]; the
    product is computed in [uint32_t]. *)
Definition calloc_words (sizedwords : Z) : nat :=
  Z.to_nat (wrap32 (4 * sizedwords) / 4).

Definition popline_ascii85 (sizedwords : Z) : M (list Z) :=
  let* line := popline in
  let* _ := assert (deref line =? " ")%char "*line == ' '" in
  let line := skip_spaces line in
  let buf := replicate (calloc_words sizedwords) 0 in
  match ascii85_loop (S (String.length line)) line 0 buf with
  | inr buf => ret buf
  | inl why => halt why
  end.

(** The words a payload holds: one per [z] and one per group of up to
    five characters, up to the newline.  This is the sequence of values
    the loop above assigns, without the buffer. *)
Fixpoint ascii85_words (fuel : nat) (line : string) : option (list Z) :=
  match fuel with
  | O => None
  | S fuel' =>
      match line with
      | EmptyString => None
      | String c rest =>
          if (c =? LF)%char then Some []
          else if (c =? "z")%char then
            cons 0 <$> ascii85_words fuel' rest
          else
            match ascii85_group 5 line 0 with
            | Some (accum, Some rest') => cons accum <$> ascii85_words fuel' rest'
            | _ => None
            end
      end
  end.

Definition payload_words (line : string) : option (list Z) :=
  ascii85_words (S (String.length line)) line.

End WithLibc.

(** *** The encoder the decoder inverts

    Written from the specification's wording: a word is five characters
    whose digits [c - '!'] compose it in base 85, most significant
    first, and an all-zero word is the single character [z]. *)

Definition digit_char (d : Z) : ascii := ascii_of_N (Z.to_N (33 + d)).

Fixpoint digits85 (n : nat) (v : Z) : string :=
  match n with
  | O => EmptyString
  | S n' => String (digit_char (v / 85 ^ Z.of_nat n')) (digits85 n' (v mod 85 ^ Z.of_nat n'))
  end.

Definition encode_word (v : Z) : string :=
  if v =? 0 then "z"%string else digits85 5 v.

Fixpoint encode_words (ws : list Z) : string :=
  match ws with
  | [] => EmptyString
  | v :: rest => encode_word v +:+ encode_words rest
  end.

Fixpoint spaces (n : nat) : string :=
  match n with
  | O => EmptyString
  | S n' => String " "%char (spaces n')
  end.

(** The payload line: indentation, the encoded words, a newline. *)
Definition encode_line (indent : nat) (ws : list Z) : string :=
  spaces indent +:+ ln (encode_words ws).

End Ascii85.
Import Ascii85.

(** ** Scanning lines, and the [bos] section *)

Module Sections.
Section WithLibc.
Context `{Libc}.

(** [strstr(line, start) == line] *)
Definition startswith (line start : string) : bool := String.prefix start line.

(** The loop of [parseline] that derives the expected number of
    conversions from the format: [i] is the index, [n] the count, [l]
    the index of the last [%] seen. *)
Fixpoint expected_conversions (fmt : string) (i n l : Z) : Z :=
  match fmt with
  | EmptyString => n
  | String c rest =>
      if (c =? "%")%char then
        if i =? l - 1 then expected_conversions rest (i + 1) (n - 1) 0
        else expected_conversions rest (i + 1) (n + 1) i
      else expected_conversions rest (i + 1) n l
  end.

(** The return value of [vsscanf]. *)
Definition scanned (r : option (list Z)) : Z :=
  match r with
  | Some vals => Z.of_nat (length vals)
  | None => -1
  end.

(** [parseline]: the converted values, or the fatal parse error. *)
Definition parseline (line fmt : string) : M (list Z) :=
  let n := expected_conversions fmt 0 0 0 in
  let r := vsscanf line fmt in
  if scanned r =? n then ret (default [] r)
  else halt (ParseError fmt).

Definition fmt_iova : string := "  - iova: %lx".
Definition fmt_size : string := "    size: %u".

Definition printf_line (line : string) : M unit := log (EvEcho line).
Definition add_buffer (gpuaddr sz : Z) (hostptr : list Z) : M unit :=
  log (EvAddBuffer gpuaddr sz hostptr).
Definition dump_hex_ascii (b : list Z) (sz level : Z) : M unit :=
  log (EvDumpHexAscii b sz level).

(** [decode_bos]: the body of [foreach_line_in_section], with the locals
    [size] and [iova] as arguments. *)
Fixpoint decode_bos_loop (fuel : nat) (size iova : Z) : M unit :=
  match fuel with
  | O => halt OutOfFuel
  | S fuel' =>
      let* line := popline in
      if negb (deref line =? " ")%char then pushline
      else if startswith line "  - iova:" then
        let* vals := parseline line fmt_iova in
        let* _ := printf_line line in
        decode_bos_loop fuel' size (wrap64 (nth 0 vals iova))
      else if startswith line "    size:" then
        let* vals := parseline line fmt_size in
        let* _ := printf_line line in
        decode_bos_loop fuel' (wrap32 (nth 0 vals size)) iova
      else if startswith line "    data: !!ascii85 |" then
        let* b := popline_ascii85 (size / 4) in
        let* v := gets verbose in
        let* _ := (if v : bool then dump_hex_ascii b size 1 else ret tt) in
        let* _ := add_buffer iova size b in
        decode_bos_loop fuel' size iova
      else
        let* _ := printf_line line in
        decode_bos_loop fuel' size iova
  end.

Definition decode_bos : M unit := fun w =>
  decode_bos_loop (S (length (pending w))) 0 0 w.

(** *** Vocabulary for statements about a section *)

Definition indented (line : string) : bool := (deref line =? " ")%char.

(** The lines of the section the reader stands in: those up to the
    first line that does not begin with a space. *)
Fixpoint section_body (ls : list string) : list string :=
  match ls with
  | l :: rest => if indented l then l :: section_body rest else []
  | [] => []
  end.

(** [vsscanf] converts as many fields of [line] as [fmt] asks for. *)
Definition scans (line fmt : string) : bool :=
  scanned (vsscanf line fmt) =? expected_conversions fmt 0 0 0.

Definition is_iova_line (line : string) : bool := startswith line "  - iova:".
Definition is_size_line (line : string) : bool :=
  negb (startswith line "  - iova:") && startswith line "    size:".

(** The [iova:] and [size:] lines match their patterns. *)
Definition field_ok (line : string) : bool :=
  if is_iova_line line then scans line fmt_iova
  else if is_size_line line then scans line fmt_size
  else true.

(** The value a [size:] line leaves in [size]. *)
Definition scanned_size (line : string) : Z :=
  wrap32 (nth 0 (default [] (vsscanf line fmt_size)) 0).

(** Where the size of a registered buffer can come from: the initial
    value of [size], or a [size:] line among [body]. *)
Definition size_source (body : list string) (s : Z) : Prop :=
  s = 0 \/ exists l, In l body /\ is_size_line l = true /\ s = scanned_size l.

End WithLibc.
End Sections.
Import Sections.

(** ** Command-stream reconstruction *)

Module CmdStream.

(** Modelled from the spec: the Register State Tracker of cffdump
    ([reg_val], [reset_regs]), which is not part of this file.  A map
    from register index to the value written last; a register never
    written reads as zero and a reset clears every stored value. *)
Definition reg_val (reg : Z) : M Z :=
  let* _ := log (EvRegVal reg) in
  gets (fun w => wrap32 (default 0 (regs w !! reg))).

Definition reset_regs : M unit :=
  let* _ := log EvResetRegs in
  modify (set_regs ∅).

Definition is_a6xx (o : cffdec_options) : bool :=
  (600 <=? gpu_id o) && (gpu_id o <? 700).
Definition is_64b (o : cffdec_options) : bool := 500 <=? gpu_id o.

(** [ringbuffers[id]]; the array is static, so an entry never written
    is all zero. *)
Definition ring_at (id : nat) (w : world) : ringbuffer :=
  nth id (ringbuffers w) ring_zero.

(** [#define mod_add(b, v) ((ringszdw + (int)(b) + (int)(v)) % ringszdw)]
    with [unsigned ringszdw]: the sum is formed in [unsigned]. *)
Definition mod_add (ringszdw b v : Z) : Z :=
  wrap32 (ringszdw + to_int b + to_int v) mod ringszdw.

(** [const int lookback = 12;] *)
Definition lookback : Z := 12.

(** The expression [mod_add(ringbuffers[id].wptr, -rptr)] for
    [unsigned rptr]. *)
Definition cmdszdw_of (ringszdw rp wp : Z) : Z :=
  mod_add ringszdw wp (wrap32 (- rp)).

Section WithCffdec.
Context `{Cffdec}.

(** [regval64]: a register that is 64 bits wide on a5xx and later. *)
Definition regval64 (name : string) : M Z :=
  let reg := wrap32 (regbase name) in
  let* _ := assert (negb (reg =? 0)) "reg" in
  let* val := reg_val reg in
  let* o := gets options in
  if is_64b o then
    let* hi := reg_val (wrap32 (reg + 1)) in
    ret (Z.lor val (Z.shiftl hi 32))
  else ret val.

Definition regval (name : string) : M Z :=
  let reg := wrap32 (regbase name) in
  let* _ := assert (negb (reg =? 0)) "reg" in
  reg_val reg.

Definition valid_header (o : cffdec_options) (pkt : Z) : bool :=
  if 500 <=? gpu_id o then pkt_is_type4 pkt || pkt_is_type7 pkt
  else true.

(** The load [ringbuffers[id].buf[pos]]. *)
Definition ring_load (id : nat) (pos : Z) : M Z :=
  let* _ := log (EvRingLoad id pos) in
  let* rb := gets (ring_at id) in
  match buf rb with
  | Some words =>
      match (if 0 <=? pos then words !! Z.to_nat pos else None) with
      | Some v => ret v
      | None => halt (Undefined LoadPastBuffer)
      end
  | None => halt (Undefined LoadPastBuffer)
  end.

(** [for (idx = 0; idx < lookback; idx++) { if (valid_header(..)) break;
    rptr = mod_add(rptr, 1); }] with [n] iterations left; the result is
    [rptr] after the loop. *)
Fixpoint header_search (n : nat) (id : nat) (ringszdw rp : Z) : M Z :=
  match n with
  | O => ret rp
  | S n' =>
      let* pkt := ring_load id rp in
      let* o := gets options in
      if valid_header o pkt then ret rp
      else header_search n' id ringszdw (mod_add ringszdw rp 1)
  end.

(** [for (idx = 0; idx < cmdszdw; idx++) buf[idx] = ..buf[mod_add(rptr, idx)]]
    with [n] iterations left; [copied] is [buf[0..idx)]. *)
Fixpoint copy_words (n : nat) (id : nat) (ringszdw rp idx : Z) (copied : list Z)
  : M (list Z) :=
  match n with
  | O => ret copied
  | S n' =>
      let p := to_int (mod_add ringszdw rp idx) in
      let* v := ring_load id p in
      copy_words n' id ringszdw rp (idx + 1) (copied ++ [v])
  end.

(** The call [dump_commands(buf, sizedwords, level)]. *)
Definition dump_commands (dwords : list Z) (sizedwords level : Z) : M unit :=
  fun w =>
    Ok tt (set_regs (dump_commands_regs dwords sizedwords level (options w) (regs w))
                    (emit (EvDumpCommands dwords sizedwords level (regs w)) w)).

(** The body of the loop over the rings, for a ring whose [iova] is
    [rb_base]. *)
Definition dump_ring (id : nat) : M unit :=
  let* _ := log (EvPrintf (ln "found ring!") []) in
  let* rb := gets (ring_at id) in
  let ringszdw := Z.shiftr (size rb) 2 in
  if ringszdw =? 0 then halt (Undefined DivisionByZero)
  else
    let* rp := header_search (Z.to_nat lookback) id ringszdw
                 (mod_add ringszdw (rptr rb) (- lookback)) in
    let cmdszdw := cmdszdw_of ringszdw rp (wptr rb) in
    let* _ := log (EvPrintf (ln "got cmdszdw=%d") [cmdszdw]) in
    let* dwords := copy_words (Z.to_nat cmdszdw) id ringszdw rp 0 [] in
    dump_commands dwords cmdszdw 0.

(** [for (id = 0; id < ARRAY_SIZE(ringbuffers); id++)] over the ids
    still to visit. *)
Fixpoint dump_rings (ids : list nat) (rb_base : Z) : M unit :=
  match ids with
  | [] => ret tt
  | id :: rest =>
      let* rb := gets (ring_at id) in
      if negb (iova rb =? rb_base) then dump_rings rest rb_base
      else
        let* _ := dump_ring id in
        dump_rings rest rb_base
  end.

Definition set_ib1 (f : ib -> ib) (w : world) : world :=
  set_options (mk_options (gpu_id (options w)) (f (ibs1 (options w)))
                          (ibs2 (options w))) w.
Definition set_ib2 (f : ib -> ib) (w : world) : world :=
  set_options (mk_options (gpu_id (options w)) (ibs1 (options w))
                          (f (ibs2 (options w)))) w.
Definition with_base (v : Z) (i : ib) : ib := mk_ib v (ib_rem i).
Definition with_rem (v : Z) (i : ib) : ib := mk_ib (ib_base i) v.
(** [rem += v] on the [uint32_t] field. *)
Definition add_rem (v : Z) (i : ib) : ib := mk_ib (ib_base i) (wrap32 (ib_rem i + v)).

(** The first half of [dump_cmdstream]: the command-processor registers
    are read into [rb_base] and [options.ibs]. *)
Definition read_cp_regs : M Z :=
  let* rb_base := regval64 "CP_RB_BASE" in
  let* _ := log (EvPrintf (ln "got rb_base=%lx") [rb_base]) in
  let* b1 := regval64 "CP_IB1_BASE" in
  let* _ := modify (set_ib1 (with_base b1)) in
  let* r1 := regval "CP_IB1_REM_SIZE" in
  let* _ := modify (set_ib1 (with_rem r1)) in
  let* b2 := regval64 "CP_IB2_BASE" in
  let* _ := modify (set_ib2 (with_base b2)) in
  let* r2 := regval "CP_IB2_REM_SIZE" in
  let* _ := modify (set_ib2 (with_rem r2)) in
  let* o := gets options in
  let* _ :=
    (if is_a6xx o then
       let* s1 := regval "CP_CSQ_IB1_STAT" in
       let* _ := modify (set_ib1 (add_rem (Z.shiftr s1 16))) in
       let* s2 := regval "CP_CSQ_IB2_STAT" in
       modify (set_ib2 (add_rem (Z.shiftr s2 16)))
     else ret tt) in
  let* o := gets options in
  let* _ := log (EvPrintf (ln "IB1: %lx, %u") [ib_base (ibs1 o); ib_rem (ibs1 o)]) in
  let* _ := log (EvPrintf (ln "IB2: %lx, %u") [ib_base (ibs2 o); ib_rem (ibs2 o)]) in
  ret rb_base.

Definition dump_cmdstream : M unit :=
  let* rb_base := read_cp_regs in
  let* _ := reset_regs in
  dump_rings (seq 0 5) rb_base.

(** *** Vocabulary for statements about a run *)

(** What [reg_val(reg)] returns in state [w]. *)
Definition reg_read (w : world) (reg : Z) : Z := wrap32 (default 0 (regs w !! reg)).

(** The value [regval(name)] returns in state [w]. *)
Definition regval_in (w : world) (name : string) : Z :=
  reg_read w (wrap32 (regbase name)).

(** The value [regval64(name)] returns in state [w]. *)
Definition regval64_in (w : world) (name : string) : Z :=
  let reg := wrap32 (regbase name) in
  if is_64b (options w) then
    Z.lor (reg_read w reg) (Z.shiftl (reg_read w (wrap32 (reg + 1))) 32)
  else reg_read w reg.

(** The register names [dump_cmdstream] looks up on a given GPU. *)
Definition cp_names (o : cffdec_options) : list string :=
  ["CP_RB_BASE"; "CP_IB1_BASE"; "CP_IB1_REM_SIZE"; "CP_IB2_BASE"; "CP_IB2_REM_SIZE"]
  ++ (if is_a6xx o then ["CP_CSQ_IB1_STAT"; "CP_CSQ_IB2_STAT"] else []).

Definition resolves (name : string) : Prop := wrap32 (regbase name) <> 0.

(** What the register-reading half leaves in [options]. *)
Definition cp_rem (w : world) (rem stat : string) : Z :=
  if is_a6xx (options w)
  then wrap32 (regval_in w rem + Z.shiftr (regval_in w stat) 16)
  else regval_in w rem.

Definition cp_options (w : world) : cffdec_options :=
  mk_options (gpu_id (options w))
    (mk_ib (regval64_in w "CP_IB1_BASE") (cp_rem w "CP_IB1_REM_SIZE" "CP_CSQ_IB1_STAT"))
    (mk_ib (regval64_in w "CP_IB2_BASE") (cp_rem w "CP_IB2_REM_SIZE" "CP_CSQ_IB2_STAT")).

(** The calls of [reg_val] behind one [regval] and one [regval64]. *)
Definition reg_events (w : world) (name : string) : list event :=
  [EvRegVal (wrap32 (regbase name))].

Definition reg64_events (w : world) (name : string) : list event :=
  EvRegVal (wrap32 (regbase name))
  :: (if is_64b (options w) then [EvRegVal (wrap32 (wrap32 (regbase name) + 1))] else []).

End WithCffdec.

(** Events of the register-reading half of [dump_cmdstream]. *)
Definition is_cp_read (e : event) : bool :=
  match e with
  | EvRegVal _ => true
  | EvPrintf fmt _ =>
      String.eqb fmt (ln "got rb_base=%lx") || String.eqb fmt (ln "IB1: %lx, %u")
      || String.eqb fmt (ln "IB2: %lx, %u")
  | _ => false
  end.

(** Events of the ring search, the word copy and the disassembly. *)
Definition is_reconstruction (e : event) : bool :=
  match e with
  | EvRingLoad _ _ => true
  | EvDumpCommands _ _ _ _ => true
  | EvPrintf fmt _ =>
      String.eqb fmt (ln "found ring!") || String.eqb fmt (ln "got cmdszdw=%d")
  | _ => false
  end.

(** The register state the first [dump_commands] of a trace starts from. *)
Fixpoint first_dump (evs : list event) : option (gmap Z Z) :=
  match evs with
  | [] => None
  | EvDumpCommands _ _ _ r :: _ => Some r
  | _ :: rest => first_dump rest
  end.

(** The positions of the look-back window of a read pointer [rp]: the
    [lookback] words before it, modulo the ring's capacity. *)
Definition in_window (ringszdw rp pos : Z) : Prop :=
  exists k, 1 <= k <= lookback /\ pos = (rp - k) mod ringszdw.

(** Positions [rp], [rp + 1], ... ([j] of them) modulo the capacity. *)
Definition positions_from (ringszdw rp : Z) (j : nat) : list Z :=
  map (fun i => (rp + Z.of_nat i) mod ringszdw) (seq 0 j).

End CmdStream.
Import CmdStream.

(** ** Looking at results *)

Definition final {A} (r : result A) : world :=
  match r with Ok _ w => w | Stop _ w => w end.
Definition stopped {A} (r : result A) : option stop :=
  match r with Ok _ _ => None | Stop why _ => Some why end.

(** ** Vocabulary of the statements *)

Section Vocabulary.
Context `{Cffdec}.

(** What [add_buffer] may be called with: a size satisfying [Q], and a
    buffer of [size / 4] words. *)
Definition registered (Q : Z -> Prop) (e : event) : Prop :=
  match e with
  | EvAddBuffer _ s b => Q s /\ length b = calloc_words (s / 4)
  | _ => True
  end.

(** A run started in [w] raises no parse error, does not exhaust the
    model's recursion bound, and registers only buffers of the kind [Q]. *)
Definition bos_outcome (Q : Z -> Prop) (w : world) (r : result unit) : Prop :=
  (forall fmt, stopped r <> Some (ParseError fmt))
  /\ stopped r <> Some OutOfFuel
  /\ exists evs, out (final r) = out w ++ evs /\ Forall (registered Q) evs.

(** The word at [pos] of a ring's backing store. *)
Definition word_at (words : list Z) (pos : Z) : Z := default 0 (words !! Z.to_nat pos).

(** The ring [id] of [w] has its backing store, of at least [ringszdw]
    words. *)
Definition ring_backed (w : world) (id : nat) (ringszdw : Z) (words : list Z) : Prop :=
  buf (ring_at id w) = Some words /\ ringszdw <= Z.of_nat (length words).

(** No word at the first [j] positions from [rp] is a valid header. *)
Definition rejected (o : cffdec_options) (words : list Z) (ringszdw rp : Z) (j : nat) : Prop :=
  forall i, (i < j)%nat ->
    valid_header o (word_at words ((rp + Z.of_nat i) mod ringszdw)) = false.

(** [w'] comes from [w] by reconstruction steps only: everything but
    the trace and the registers is as before, the new events belong to
    the reconstruction, rings are loaded from only if [P] holds of them,
    and the registers are as in [w] up to the first disassembly. *)
Definition recon_step (P : nat -> Prop) (w w' : world) : Prop :=
  input w' = input w /\ lastline w' = lastline w /\ pushedline w' = pushedline w
  /\ verbose w' = verbose w /\ options w' = options w
  /\ ringbuffers w' = ringbuffers w
  /\ exists post,
       out w' = out w ++ post
       /\ forallb is_reconstruction post = true
       /\ (forall id pos, In (EvRingLoad id pos) post -> P id)
       /\ (first_dump post = Some (regs w)
           \/ (first_dump post = None /\ regs w' = regs w)).

Definition recon (P : nat -> Prop) {A} (m : M A) : Prop :=
  forall w, recon_step P w (final (m w)).

(** The rings the loop may touch: those whose [iova] is [rb_base]. *)
Definition ring_matches (rbs : list ringbuffer) (rb_base : Z) (id : nat) : Prop :=
  iova (nth id rbs ring_zero) = rb_base.

(** The state in which the ring loop starts: registers read into
    [options], trace extended by the reads [evs] and the reset, register
    tracker cleared. *)
Definition after_reset (w : world) (evs : list event) : world :=
  set_regs ∅ (emit EvResetRegs (set_options (cp_options w) (emits evs w))).

End Vocabulary.

(** ** A C implementation for the examples *)

Module Example.

Definition hex_digit (c : ascii) : option Z :=
  let n := Z.of_N (N_of_ascii c) in
  if (48 <=? n) && (n <=? 57) then Some (n - 48)
  else if (97 <=? n) && (n <=? 102) then Some (n - 87)
  else if (65 <=? n) && (n <=? 70) then Some (n - 55)
  else None.

Definition digit_of (base : Z) (c : ascii) : option Z :=
  match hex_digit c with
  | Some d => if d <? base then Some d else None
  | None => None
  end.

(** Digits at the front of [s], most significant first. *)
Fixpoint number (base : Z) (s : string) (acc : option Z) : option Z :=
  match s with
  | String c rest =>
      match digit_of base c with
      | Some d => number base rest (Some (default 0 acc * base + d))
      | None => acc
      end
  | EmptyString => acc
  end.

(** The literal text of [fmt] up to its first conversion must open
    [line]; the result is the conversion and the unread input. *)
Fixpoint literal (fmt line : string) : option (string * string) :=
  match fmt with
  | EmptyString => None
  | String f fmt' =>
      if (f =? "%")%char then Some (fmt', line)
      else
        match line with
        | String c line' => if (f =? c)%char then literal fmt' line' else None
        | EmptyString => None
        end
  end.

(** A scanner for patterns of the shape [text %u], [text %d], [text %x]
    and [text %lx].  It agrees with [vsscanf] on lines that repeat the
    text of the pattern character for character and then carry an
    unsigned number without sign or prefix. *)
Definition scan_field (line fmt : string) : option (list Z) :=
  match literal fmt line with
  | Some (conv, rest) =>
      let base :=
        if String.eqb conv "u" || String.eqb conv "d" then Some 10
        else if String.eqb conv "x" || String.eqb conv "lx" then Some 16
        else None in
      match base with
      | Some b =>
          match number b rest None with
          | Some v => Some [v]
          | None => Some []
          end
      | None => Some []
      end
  | None => Some []
  end.

(** Signed [char], as on x86-64. *)
Definition libc : Libc := {| char_is_signed := true; vsscanf := scan_field |}.

(** A register database and packet helpers for the examples: a few
    a6xx register offsets, and header tests that look at the type tag in
    the top four bits of a packet only. *)
Definition regbase_a6xx (name : string) : Z :=
  if String.eqb name "CP_RB_BASE" then 2048
  else if String.eqb name "CP_IB1_BASE" then 2344
  else if String.eqb name "CP_IB1_REM_SIZE" then 2346
  else if String.eqb name "CP_IB2_BASE" then 2347
  else if String.eqb name "CP_IB2_REM_SIZE" then 2349
  else if String.eqb name "CP_CSQ_IB1_STAT" then 2305
  else if String.eqb name "CP_CSQ_IB2_STAT" then 2306
  else 0.

Definition cffdec : Cffdec := {|
  regbase := regbase_a6xx;
  pkt_is_type4 := fun pkt => Z.shiftr pkt 28 =? 4;
  pkt_is_type7 := fun pkt => Z.shiftr pkt 28 =? 7;
  dump_commands_regs := fun _ _ _ _ r => r
|}.

Definition no_ib : ib := mk_ib 0 0.

(** The state at program start (every global zero) after [revision:]
    has set [gpu_id], with [lines] still to be read. *)
Definition start (gpu : Z) (lines : list string) : world :=
  mk_world lines None None false (mk_options gpu no_ib no_ib)
           (replicate 5 ring_zero) ∅ [].

(** A [bos] section of two buffers; the second one has no [size:]
    line.  The next section header follows. *)
Definition bos_lines : list string :=
  [ ln "  - iova: 1000"; ln "    size: 8"; ln "    data: !!ascii85 |"; ln "     zz";
    ln "  - iova: 2000"; ln "    data: !!ascii85 |"; ln "     zz";
    ln "registers:" ].

Definition bos_world : world := start 630 bos_lines.

(** A payload line with two words where one is expected. *)
Definition overlong_world : world := start 630 [ln " zz"].

(** An a6xx dump with one ring of sixteen all-zero words (size 64),
    read pointer 14 and write pointer 15. *)
Definition zero_ring : ringbuffer := mk_ring 4096 14 15 64 (Some (replicate 16 0)).

Definition ring_world : world :=
  mk_world [] None None false (mk_options 630 no_ib no_ib) [zero_ring] ∅ [].

(** An a6xx dump whose [CP_RB_BASE] is [0x5000] while no ring has been
    recorded; the indirect buffers have 10 and 7 words left, with 5 and
    3 more in the queue according to the status registers. *)
Definition cp_regs : gmap Z Z :=
  <[2048 := 20480]> (<[2346 := 10]> (<[2305 := 327680]>
    (<[2349 := 7]> (<[2306 := 196608]> ∅)))).

Definition cp_world : world :=
  mk_world [] None None false (mk_options 630 no_ib no_ib)
           (replicate 5 ring_zero) cp_regs [].

End Example.

(** ** Further vocabulary *)

(** Number of [%] characters in a format. *)
Fixpoint count_percent (fmt : string) : Z :=
  match fmt with
  | EmptyString => 0
  | String c rest => (if (c =? "%")%char then 1 else 0) + count_percent rest
  end.

(** A line of a [bos] section that [decode_bos] only echoes: indented,
    and none of the three keys. *)
Definition bos_passthrough (line : string) : bool :=
  indented line && negb (startswith line "  - iova:")
  && negb (startswith line "    size:")
  && negb (startswith line "    data: !!ascii85 |").

(** The characters of a string. *)
Fixpoint chars (s : string) : list ascii :=
  match s with
  | EmptyString => []
  | String c rest => c :: chars rest
  end.


(** ** A [bos] section as a list of entries' lines

    A section read the way [decode_bos] reads it: an [iova:] line with
    the address it carries, a [size:] line with its number, the [data:]
    marker together with the payload line that follows it and the words
    the payload holds, or a line that is only echoed. *)
Inductive bos_item : Type :=
  | BIova (line : string) (a : Z)
  | BSize (line : string) (s : Z)
  | BData (marker payload : string) (ws : list Z)
  | BPlain (line : string).

Definition bos_item_lines (it : bos_item) : list string :=
  match it with
  | BIova l _ | BSize l _ | BPlain l => [l]
  | BData m p _ => [m; p]
  end.

Definition bos_section_lines (items : list bos_item) : list string :=
  concat (map bos_item_lines items).

Definition bos_item_ok `{Libc} (it : bos_item) : Prop :=
  match it with
  | BIova l a => startswith l "  - iova:" = true /\ vsscanf l fmt_iova = Some [a]
  | BSize l s => startswith l "    size:" = true /\ vsscanf l fmt_size = Some [s]
  | BData m p ws =>
      startswith m "    data: !!ascii85 |" = true
      /\ (deref p =? " ")%char = true
      /\ payload_words (skip_spaces p) = Some ws
  | BPlain l => bos_passthrough l = true
  end.

(** What the variable [size] holds after the items: the number of the
    last [size:] line among them, or the value it had before. *)
Fixpoint size_after (items : list bos_item) (size : Z) : Z :=
  match items with
  | [] => size
  | BSize _ s :: rest => size_after rest (wrap32 s)
  | _ :: rest => size_after rest size
  end.

Fixpoint iova_after (items : list bos_item) (iova : Z) : Z :=
  match items with
  | [] => iova
  | BIova _ a :: rest => iova_after rest (wrap64 a)
  | _ :: rest => iova_after rest iova
  end.

(** The buffer [popline_ascii85(size / 4)] returns for a payload of the
    words [ws]: the words, then zeros up to the allocated length. *)
Definition padded (ws : list Z) (size : Z) : list Z :=
  ws ++ replicate (calloc_words (size / 4) - length ws) 0.

(** What an item adds to the trace when [pre] are the items of the
    section before it: [size] and [iova] start at 0. *)
Definition bos_item_events (verbose : bool) (pre : list bos_item) (it : bos_item)
  : list event :=
  match it with
  | BIova l _ | BSize l _ | BPlain l => [EvEcho l]
  | BData _ _ ws =>
      let size := size_after pre 0 in
      (if verbose then [EvDumpHexAscii (padded ws size) size 1] else [])
      ++ [EvAddBuffer (iova_after pre 0) size (padded ws size)]
  end.

Fixpoint bos_events (verbose : bool) (pre items : list bos_item) : list event :=
  match items with
  | [] => []
  | it :: rest => bos_item_events verbose pre it ++ bos_events verbose (pre ++ [it]) rest
  end.

(** Every payload holds no more words than [size / 4] allows at its
    place in the section. *)
Fixpoint bos_fit (pre items : list bos_item) : Prop :=
  match items with
  | [] => True
  | it :: rest =>
      match it with
      | BData _ _ ws => (length ws <= calloc_words (size_after pre 0 / 4))%nat
      | _ => True
      end
      /\ bos_fit (pre ++ [it]) rest
  end.

(** ** The [ringbuffer] section *)

Module RingSection.

Definition set_ringbuffers (rbs : list ringbuffer) (w : world) : world :=
  mk_world (input w) (lastline w) (pushedline w) (verbose w) (options w)
           rbs (regs w) (out w).

(** An assignment to a field of [ringbuffers[id]]: [f] maps the old
    entry to the new one.  Entries of the static array that the list
    does not hold yet are all zero. *)
Definition ring_store (id : nat) (f : ringbuffer -> ringbuffer) (w : world) : world :=
  set_ringbuffers
    (<[id := f (ring_at id w)]>
       (ringbuffers w ++ replicate (S id - length (ringbuffers w)) ring_zero)) w.

Definition with_iova (v : Z) (rb : ringbuffer) : ringbuffer :=
  mk_ring v (rptr rb) (wptr rb) (size rb) (buf rb).
Definition with_rptr (v : Z) (rb : ringbuffer) : ringbuffer :=
  mk_ring (iova rb) v (wptr rb) (size rb) (buf rb).
Definition with_wptr (v : Z) (rb : ringbuffer) : ringbuffer :=
  mk_ring (iova rb) (rptr rb) v (size rb) (buf rb).
Definition with_size (v : Z) (rb : ringbuffer) : ringbuffer :=
  mk_ring (iova rb) (rptr rb) (wptr rb) v (buf rb).
Definition with_buf (b : list Z) (rb : ringbuffer) : ringbuffer :=
  mk_ring (iova rb) (rptr rb) (wptr rb) (size rb) (Some b).

(** Modelled from the spec: [ARRAY_SIZE(ringbuffers)], a macro of a
    header that is not part of this file.  The table has five entries
    and ids range over 0..4; the macro is a [sizeof] quotient, so [id]
    is compared as an unsigned value and a negative [id] fails the
    assertion as well. *)
Definition id_in_table (id : Z) : bool := wrap64 id <? 5.

Section WithLibc.
Context `{Libc}.

Definition fmt_id : string := "  - id: %d".
Definition fmt_rb_iova : string := "    iova: %lx".
Definition fmt_rptr : string := "    rptr: %d".
Definition fmt_wptr : string := "    wptr: %d".
Definition fmt_rb_size : string := "    size: %d".

(** [decode_ringbuffer]: the body of [foreach_line_in_section], with the
    local [id] as argument. *)
Fixpoint decode_ringbuffer_loop (fuel : nat) (id : Z) : M unit :=
  match fuel with
  | O => halt OutOfFuel
  | S fuel' =>
      let* line := popline in
      if negb (deref line =? " ")%char then pushline
      else if startswith line "  - id:" then
        let* vals := parseline line fmt_id in
        let id' := to_int (nth 0 vals id) in
        let* _ := assert (id_in_table id') "id < ARRAY_SIZE(ringbuffers)" in
        let* _ := printf_line line in
        decode_ringbuffer_loop fuel' id'
      else if startswith line "    iova:" then
        let* vals := parseline line fmt_rb_iova in
        let* rb := gets (ring_at (Z.to_nat id)) in
        let* _ := modify (ring_store (Z.to_nat id)
                            (with_iova (wrap64 (nth 0 vals (iova rb))))) in
        let* _ := printf_line line in
        decode_ringbuffer_loop fuel' id
      else if startswith line "    rptr:" then
        let* vals := parseline line fmt_rptr in
        let* rb := gets (ring_at (Z.to_nat id)) in
        let* _ := modify (ring_store (Z.to_nat id)
                            (with_rptr (wrap32 (nth 0 vals (rptr rb))))) in
        let* _ := printf_line line in
        decode_ringbuffer_loop fuel' id
      else if startswith line "    wptr:" then
        let* vals := parseline line fmt_wptr in
        let* rb := gets (ring_at (Z.to_nat id)) in
        let* _ := modify (ring_store (Z.to_nat id)
                            (with_wptr (wrap32 (nth 0 vals (wptr rb))))) in
        let* _ := printf_line line in
        decode_ringbuffer_loop fuel' id
      else if startswith line "    size:" then
        let* vals := parseline line fmt_rb_size in
        let* rb := gets (ring_at (Z.to_nat id)) in
        let* _ := modify (ring_store (Z.to_nat id)
                            (with_size (wrap32 (nth 0 vals (size rb))))) in
        let* _ := printf_line line in
        decode_ringbuffer_loop fuel' id
      else if startswith line "    data: !!ascii85 |" then
        let* rb := gets (ring_at (Z.to_nat id)) in
        let* b := popline_ascii85 (size rb / 4) in
        let* _ := modify (ring_store (Z.to_nat id) (with_buf b)) in
        let* rb' := gets (ring_at (Z.to_nat id)) in
        let* _ := add_buffer (iova rb') (size rb') b in
        decode_ringbuffer_loop fuel' id
      else
        let* _ := printf_line line in
        decode_ringbuffer_loop fuel' id
  end.

Definition decode_ringbuffer : M unit := fun w =>
  decode_ringbuffer_loop (S (length (pending w))) 0 w.

End WithLibc.
End RingSection.
Import RingSection.

(** A state reached from [w0] in which [ls] is pending, the trace has
    grown by [evs], ring [k] is [rb] and the other rings are as in
    [w0]. *)
Definition ring_state (w0 : world) (k : nat) (w : world) (ls : list string)
    (evs : list event) (rb : ringbuffer) : Prop :=
  pending w = ls /\ reader_ok w /\ out w = out w0 ++ evs
  /\ ring_at k w = rb /\ (forall j, j <> k -> ring_at j w = ring_at j w0).

(** ** A [ringbuffer] section as a list of items

    A section read the way [decode_ringbuffer] reads it: a field line
    with the number it carries, the [data:] marker together with the
    payload line that follows it and the words the payload holds, or a
    line that is only echoed. *)
Inductive ring_item : Type :=
  | RId (line : string) (v : Z)
  | RIova (line : string) (a : Z)
  | RRptr (line : string) (v : Z)
  | RWptr (line : string) (v : Z)
  | RSize (line : string) (v : Z)
  | RData (marker payload : string) (ws : list Z)
  | RPlain (line : string).

Definition ring_item_lines (it : ring_item) : list string :=
  match it with
  | RId l _ | RIova l _ | RRptr l _ | RWptr l _ | RSize l _ | RPlain l => [l]
  | RData m p _ => [m; p]
  end.

Definition ring_section_lines (items : list ring_item) : list string :=
  concat (map ring_item_lines items).

(** A line of a [ringbuffer] section that is only echoed. *)
Definition ring_passthrough (line : string) : bool :=
  indented line && negb (startswith line "  - id:")
  && negb (startswith line "    iova:") && negb (startswith line "    rptr:")
  && negb (startswith line "    wptr:") && negb (startswith line "    size:")
  && negb (startswith line "    data: !!ascii85 |").

Definition ring_item_ok `{Libc} (it : ring_item) : Prop :=
  match it with
  | RId l v => startswith l "  - id:" = true /\ vsscanf l fmt_id = Some [v]
  | RIova l a => startswith l "    iova:" = true /\ vsscanf l fmt_rb_iova = Some [a]
  | RRptr l v => startswith l "    rptr:" = true /\ vsscanf l fmt_rptr = Some [v]
  | RWptr l v => startswith l "    wptr:" = true /\ vsscanf l fmt_wptr = Some [v]
  | RSize l v => startswith l "    size:" = true /\ vsscanf l fmt_rb_size = Some [v]
  | RData m p ws =>
      startswith m "    data: !!ascii85 |" = true
      /\ (deref p =? " ")%char = true
      /\ payload_words (skip_spaces p) = Some ws
  | RPlain l => ring_passthrough l = true
  end.

(** The array [ringbuffers] as C indexes it: by an [int]. *)
Definition ring_table : Type := Z -> ringbuffer.

Definition table_of (w : world) : ring_table := fun j => ring_at (Z.to_nat j) w.

(** The assignment to a field of [ringbuffers[id]]. *)
Definition table_set (t : ring_table) (id : Z) (f : ringbuffer -> ringbuffer)
  : ring_table :=
  fun j => if j =? id then f (t j) else t j.

(** The variable [id] after the items: the number of the last [id:]
    line among them, or the value it had before. *)
Fixpoint id_after (items : list ring_item) (id : Z) : Z :=
  match items with
  | [] => id
  | RId _ v :: rest => id_after rest (to_int v)
  | _ :: rest => id_after rest id
  end.

(** What an item stores, [id] being the variable's value when its line
    is read: every store is to the entry [id] of the table. *)
Definition ring_item_store (it : ring_item) (id : Z) (t : ring_table) : ring_table :=
  match it with
  | RId _ _ | RPlain _ => t
  | RIova _ a => table_set t id (with_iova (wrap64 a))
  | RRptr _ v => table_set t id (with_rptr (wrap32 v))
  | RWptr _ v => table_set t id (with_wptr (wrap32 v))
  | RSize _ v => table_set t id (with_size (wrap32 v))
  | RData _ _ ws => table_set t id (with_buf (padded ws (size (t id))))
  end.

Fixpoint table_after (items : list ring_item) (id : Z) (t : ring_table) : ring_table :=
  match items with
  | [] => t
  | it :: rest => table_after rest (id_after [it] id) (ring_item_store it id t)
  end.

Definition ring_item_events (it : ring_item) (id : Z) (t : ring_table) : list event :=
  match it with
  | RId l _ | RIova l _ | RRptr l _ | RWptr l _ | RSize l _ | RPlain l => [EvEcho l]
  | RData _ _ ws =>
      [EvAddBuffer (iova (t id)) (size (t id)) (padded ws (size (t id)))]
  end.

Fixpoint ring_events (items : list ring_item) (id : Z) (t : ring_table) : list event :=
  match items with
  | [] => []
  | it :: rest =>
      ring_item_events it id t
      ++ ring_events rest (id_after [it] id) (ring_item_store it id t)
  end.

(** The items pass the assertion (every [id:] line names one of the
    five entries) and every payload holds no more words than the size of
    its ring allows. *)
Fixpoint ring_items_admitted (items : list ring_item) (id : Z) (t : ring_table) : Prop :=
  match items with
  | [] => True
  | it :: rest =>
      match it with
      | RId _ v => 0 <= to_int v < 5
      | RData _ _ ws => (length ws <= calloc_words (size (t id) / 4))%nat
      | _ => True
      end
      /\ ring_items_admitted rest (id_after [it] id) (ring_item_store it id t)
  end.

(** The ring table of a state is [t], at every index the state holds. *)
Definition tabled (w : world) (t : ring_table) : Prop :=
  forall j : nat, ring_at j w = t (Z.of_nat j).

(** ** The [debugbus] section *)

Module DebugBus.
Section WithLibc.
Context `{Libc}.

Definition fmt_block : string := "  - debugbus-block: %ms".
Definition fmt_count : string := "    count: %u".

(** [decode_debugbus]: the body of [foreach_line_in_section], with the
    local [sizedwords] as argument.  The string that [%ms] allocates for
    [block] is freed and never read, so only its conversion is kept. *)
Fixpoint decode_debugbus_loop (fuel : nat) (sizedwords : Z) : M unit :=
  match fuel with
  | O => halt OutOfFuel
  | S fuel' =>
      let* line := popline in
      if negb (deref line =? " ")%char then pushline
      else if startswith line "  - debugbus-block:" then
        let* _ := parseline line fmt_block in
        let* _ := printf_line line in
        decode_debugbus_loop fuel' sizedwords
      else if startswith line "    count:" then
        let* vals := parseline line fmt_count in
        let* _ := printf_line line in
        decode_debugbus_loop fuel' (wrap32 (nth 0 vals sizedwords))
      else if startswith line "    data: !!ascii85 |" then
        let* b := popline_ascii85 sizedwords in
        let* v := gets verbose in
        let* _ := (if v : bool then dump_hex_ascii b (wrap32 (4 * sizedwords)) 1
                   else ret tt) in
        decode_debugbus_loop fuel' sizedwords
      else
        let* _ := printf_line line in
        decode_debugbus_loop fuel' sizedwords
  end.

Definition decode_debugbus : M unit := fun w =>
  decode_debugbus_loop (S (length (pending w))) 0 w.

End WithLibc.
End DebugBus.
Import DebugBus.

(** The lines that [decode_debugbus] shows without [verbose]: those of
    the section up to the first line that does not begin with a space,
    except every [data:] marker and the line after it, its payload.
    [skip] says that the line at the head follows a marker. *)
Fixpoint echoed_lines (skip : bool) (ls : list string) : list string :=
  match ls with
  | [] => []
  | l :: rest =>
      if skip then echoed_lines false rest
      else if negb (indented l) then []
      else if startswith l "    data: !!ascii85 |" then echoed_lines true rest
      else l :: echoed_lines false rest
  end.

(** What a run that only summarises leaves behind: the trace grows by
    the echoes of the lines to show, in their order, and by nothing
    else: all of them when the run returns or ends with the input, the
    first few when it stops before.  Rings and registers are as before,
    and the run does not end at the recursion bound of the model. *)
Definition summarised (w : world) (r : result unit) : Prop :=
  exists ls,
    out (final r) = out w ++ map EvEcho ls
    /\ ls `prefix_of` echoed_lines false (pending w)
    /\ (stopped r = None \/ stopped r = Some Exit0 ->
        ls = echoed_lines false (pending w))
    /\ ringbuffers (final r) = ringbuffers w
    /\ regs (final r) = regs w
    /\ verbose (final r) = verbose w
    /\ stopped r <> Some OutOfFuel.

(** * [headergen.c]: aligning the values of the generated definitions *)

Module Headergen.

Definition HT : ascii := "009"%char.

(** [int startcol = 64;] *)
Definition startcol : Z := 64.

Fixpoint put (c : ascii) (n : nat) : string :=
  match n with
  | O => EmptyString
  | S k => String c (put c k)
  end.

(** [while (n--) printf (c);] for [int n]: [n] characters; from a
    negative [n] the counter runs down to [INT_MIN] and overflows. *)
Definition put_while (c : ascii) (n : Z) : option string :=
  if n <? 0 then None else Some (put c (Z.to_nat n)).

(** [seekcol]: what is printed to move from column [src] to [dst]. *)
Definition seekcol (src dst : Z) : option string :=
  if dst <=? src then Some (String HT EmptyString)
  else
    let n := to_int (Z.quot dst 8 - Z.quot src 8) in
    if negb (n =? 0) then
      match put_while HT n with
      | Some tabs =>
          match put_while " " (Z.land dst 7) with
          | Some sp => Some (tabs +:+ sp)
          | None => None
          end
      | None => None
      end
    else put_while " " (to_int (dst - src)).

Section WithPrintf.
(** The conversions [%0<width>lx] and [%lu] of [printf]. *)
Variable hex : nat -> Z -> string.
Variable dec : Z -> string.

(** What [printdef] prints before [%n]. *)
Definition define_head (name : string) (suf : option string) : string :=
  match suf with
  | Some s => "#define " +:+ name +:+ "__" +:+ s
  | None => "#define " +:+ name
  end.

(** The column [printdef] seeks for a value. *)
Definition value_column (type val : Z) : Z :=
  if (type =? 0) && (4294967295 <? val) then startcol - 8 else startcol.

Definition value_text (type val : Z) : string :=
  if type =? 0 then
    if 4294967295 <? val then "0x" +:+ hex 16 val +:+ ln "ULL"
    else "0x" +:+ ln (hex 8 val)
  else if type =? 1 then ln (dec val)
  else EmptyString.

(** [printdef]: [len] is the count that [%n] stores. *)
Definition printdef (name : string) (suf : option string) (type val : Z)
  : option string :=
  let head := define_head name suf in
  let len := to_int (Z.of_nat (String.length head)) in
  match seekcol len (value_column type val) with
  | Some gap => Some (head +:+ gap +:+ value_text type val)
  | None => None
  end.

End WithPrintf.

(** *** Columns of a terminal with tab stops every eight columns *)

Definition advance (col : Z) (c : ascii) : Z :=
  if (c =? HT)%char then (col / 8 + 1) * 8 else col + 1.

Fixpoint column_after (col : Z) (s : string) : Z :=
  match s with
  | EmptyString => col
  | String c rest => column_after (advance col c) rest
  end.

(** The column reached from [src] by seeking [dst]. *)
Definition sought (src dst : Z) : Z :=
  if dst <=? src then (src / 8 + 1) * 8 else dst.

End Headergen.
Import Headergen.

(** * [os_file.h]: reading a descriptor to the end *)

Module OsFile.

(** What one call of [read(2)] does: it stores some bytes and returns
    their number (none at the end of the file), or fails with [errno]. *)
Inductive read_outcome : Type :=
  | ReadBytes (bs : list Z)
  | ReadError (errno : Z).

(** The value [ret] holds after [if (ret < 0) ret = -errno;]. *)
Definition ret_of (r : read_outcome) : Z :=
  match r with
  | ReadBytes bs => Z.of_nat (length bs)
  | ReadError e => - e
  end.

Definition stored (r : read_outcome) : list Z :=
  match r with
  | ReadBytes bs => bs
  | ReadError _ => []
  end.

Section WithErrno.
(** The values of [<errno.h>]. *)
Variables ENODATA EINTR EAGAIN : Z.

(** [return total ? (ssize_t)total : err;] *)
Definition readN_result (total err : Z) : Z :=
  if total =? 0 then err else total.

(** [readN]: the loop over the outcomes of the successive [read] calls;
    [got] is [buf[0..total)].  The result is the return value, the
    bytes stored and the outcomes not consumed; [None] when the calls
    listed do not bring the loop to its end. *)
Fixpoint readN (reads : list read_outcome) (len : Z) (got : list Z)
  : option (Z * list Z * list read_outcome) :=
  match reads with
  | [] => None
  | r :: rest =>
      let total := Z.of_nat (length got) in
      let ret := ret_of r in
      if (ret =? - EINTR) || (ret =? - EAGAIN) then
        (* [continue] goes to the loop condition *)
        if negb (total =? len) then readN rest len got
        else Some (readN_result total (- ENODATA), got, rest)
      else if ret <=? 0 then
        Some (readN_result total ret, got, rest)
      else
        let got' := got ++ stored r in
        if negb (Z.of_nat (length got') =? len) then readN rest len got'
        else Some (readN_result (Z.of_nat (length got')) (- ENODATA), got', rest)
  end.

(** A call that the loop repeats. *)
Definition retried (r : read_outcome) : bool :=
  match r with
  | ReadError e => (e =? EINTR) || (e =? EAGAIN)
  | ReadBytes _ => false
  end.

End WithErrno.
End OsFile.
Import OsFile.

(** A call that lets the loop go on without ending it: one that is
    repeated, or one that stores at least one byte. *)
Definition progresses (EINTR EAGAIN : Z) (r : read_outcome) : Prop :=
  retried EINTR EAGAIN r = true \/ exists bs, r = ReadBytes bs /\ bs <> [].

(** The bytes stored by a sequence of calls. *)
Definition stored_by (rs : list read_outcome) : list Z := concat (map stored rs).

(** ** Further dumps for the examples *)

Module Sample.

(** [Example.scan_field], extended by patterns of the shape [text %ms]:
    the conversion yields the address of the word it allocates. *)
Definition scan_field (line fmt : string) : option (list Z) :=
  match Example.literal fmt line with
  | Some (conv, rest) =>
      if String.eqb conv "ms" then
        match rest with
        | EmptyString => Some []
        | String _ _ => Some [4096]
        end
      else Example.scan_field line fmt
  | None => Example.scan_field line fmt
  end.

Definition libc : Libc := {| char_is_signed := true; vsscanf := scan_field |}.

(** A [bos] section with two lines that are only echoed. *)
Definition plain_lines : list string := [ln "  - name: x"; ln "    flags: 1"].

(** A [bos] section with one buffer of two zero words. *)
Definition bos_entry : list string :=
  [ ln "  - iova: 1000"; ln "    size: 8"; ln "    data: !!ascii85 |";
    encode_line 5 [0; 0]; ln "registers:" ].

(** A [ringbuffer] section describing ring 1 with sixteen zero words. *)
Definition ring_record : list string :=
  [ ln "  - id: 1"; ln "    iova: 5000"; ln "    rptr: 14"; ln "    wptr: 15";
    ln "    size: 64"; ln "    data: !!ascii85 |"; encode_line 5 (replicate 16 0);
    ln "registers:" ].

(** [ring_record] read as items. *)
Definition ring_items : list ring_item :=
  [ RId (ln "  - id: 1") 1; RIova (ln "    iova: 5000") 20480;
    RRptr (ln "    rptr: 14") 14; RWptr (ln "    wptr: 15") 15;
    RSize (ln "    size: 64") 64;
    RData (ln "    data: !!ascii85 |") (encode_line 5 (replicate 16 0)) (replicate 16 0) ].

(** A [debugbus] section with one block of two zero words. *)
Definition debugbus_block : list string :=
  [ ln "  - debugbus-block: A6XX_DBGBUS_CP"; ln "    count: 2";
    ln "    data: !!ascii85 |"; encode_line 5 [0; 0]; ln "clusters:" ].

(** [Example.bos_lines] read as items: the second buffer has no
    [size:] line. *)
Definition bos_items : list bos_item :=
  [ BIova (ln "  - iova: 1000") 4096; BSize (ln "    size: 8") 8;
    BData (ln "    data: !!ascii85 |") (ln "     zz") [0; 0];
    BIova (ln "  - iova: 2000") 8192;
    BData (ln "    data: !!ascii85 |") (ln "     zz") [0; 0] ].

(** A ring that was given a size but no payload. *)
Definition bare_ring : ringbuffer := mk_ring 4096 14 15 64 None.

Definition bare_ring_world : world :=
  mk_world [] None None false (mk_options 630 Example.no_ib Example.no_ib)
           [bare_ring] ∅ [].

(** An a6xx dump whose [CP_RB_BASE] is the address of ring 0. *)
Definition one_ring_world : world :=
  mk_world [] None None false (mk_options 630 Example.no_ib Example.no_ib)
           [Example.zero_ring] (<[2048 := 4096]> ∅) [].

(** Values of [errno] on Linux. *)
Definition ENODATA : Z := 61.
Definition EINTR : Z := 4.
Definition EAGAIN : Z := 11.
Definition EIO : Z := 5.

End Sample.

(** * Properties *)

Lemma reader_ok_start i v o rs r t : reader_ok (mk_world i None None v o rs r t).
Proof. intros p Hp. discriminate Hp. Qed.

Lemma reader_ok_popline w l w' : reader_ok w -> popline w = Ok l w' -> reader_ok w'.
Proof.
  unfold popline. intros Hw H p.
  destruct (pushedline w) eqn:E.
  - inversion H; subst. discriminate.
  - destruct (input w); inversion H; subst. discriminate.
Qed.

Lemma reader_ok_pushline w w' : pushline w = Ok tt w' -> reader_ok w'.
Proof.
  unfold pushline. destruct (pushedline w); intros H; inversion H; subst.
  intros p Hp. exact Hp.
Qed.

Lemma popline_lastline w l w' :
  reader_ok w -> popline w = Ok l w' ->
  lastline w' = Some l /\ pushedline w' = None.
Proof.
  unfold popline. intros Hw H.
  destruct (pushedline w) eqn:E.
  - inversion H; subst. split; [apply Hw; exact E | reflexivity].
  - destruct (input w); inversion H; subst. split; reflexivity.
Qed.

(** C8. After [popline] has returned a line [l], [pushline] followed by
    [popline] returns [l] again without touching the input stream, and a
    second [pushline] with no [popline] in between trips the assertion. *)
Theorem pushline_redelivers (w w1 : world) (l : string) :
  reader_ok w ->
  popline w = Ok l w1 ->
  exists w2 w3,
    pushline w1 = Ok tt w2 /\
    popline w2 = Ok l w3 /\
    input w3 = input w1 /\
    pushline w2 = Stop (AssertFailed "!pushedline") w2.
Proof.
  intros Hw Hpop.
  destruct (popline_lastline w l w1 Hw Hpop) as [Hlast Hpush].
  exists (set_pushedline (Some l) w1), (set_pushedline None (set_pushedline (Some l) w1)).
  unfold pushline, popline. rewrite Hpush, Hlast. simpl.
  repeat split; reflexivity.
Qed.

(** ** ascii85 *)

#[local] Arguments String.append !_ _ / : simpl nomatch.
#[local] Arguments ascii85_group {_} _ _ _ : simpl never.

Section Ascii85Facts.
Context `{Libc}.

Lemma strlen_app (a b : string) :
  String.length (a +:+ b) = (String.length a + String.length b)%nat.
Proof. induction a as [|c a IH]; simpl; [reflexivity | now rewrite IH]. Qed.

Lemma app_assoc_str (a b c : string) : (a +:+ b) +:+ c = a +:+ (b +:+ c).
Proof. induction a as [|x a IH]; simpl; [reflexivity | now rewrite IH]. Qed.

Lemma wrap32_small x : 0 <= x < 2 ^ 32 -> wrap32 x = x.
Proof. intros Hx. unfold wrap32. now apply Z.mod_small. Qed.

(** Characters of the seven-bit range have the same value whether
    [char] is signed or not. *)
Lemma char_val_ascii7 c :
  (N_of_ascii c < 128)%N -> char_val c = Z.of_N (N_of_ascii c).
Proof.
  intros Hc. unfold char_val.
  destruct (128 <=? Z.of_N (N_of_ascii c)) eqn:E; [| now rewrite andb_false_r].
  apply Z.leb_le in E. lia.
Qed.

Lemma digit_char_code d :
  0 <= d < 85 -> N_of_ascii (digit_char d) = Z.to_N (33 + d).
Proof. intros Hd. unfold digit_char. apply N_ascii_embedding. lia. Qed.

Lemma digit_char_neq d c :
  0 <= d < 85 -> (N_of_ascii c < 33 \/ 118 <= N_of_ascii c)%N ->
  (digit_char d =? c)%char = false.
Proof.
  intros Hd Hc. apply Ascii.eqb_neq. intros E.
  apply (f_equal N_of_ascii) in E. rewrite digit_char_code in E by assumption. lia.
Qed.

Lemma accumulate_digit accum d :
  0 <= d < 85 -> 0 <= accum -> accum * 85 + d < 2 ^ 32 ->
  accumulate accum (digit_char d) = accum * 85 + d.
Proof.
  intros Hd Ha Hb. unfold accumulate.
  rewrite (char_val_ascii7 (digit_char d)), (char_val_ascii7 "!"%char);
    [| vm_compute; reflexivity | rewrite digit_char_code by assumption; lia].
  rewrite digit_char_code by assumption.
  change (Z.of_N (N_of_ascii "!")) with 33.
  rewrite (wrap32_small (accum * 85)) by lia.
  rewrite wrap32_small by lia. lia.
Qed.

Lemma group_cons n c r accum :
  ascii85_group (S n) (String c r) accum
  = if (c =? LF)%char then Some (accum, Some (String c r))
    else ascii85_group n r (accumulate accum c).
Proof. reflexivity. Qed.

(** The inner loop reads back the [n] digits of a group. *)
Lemma group_digits n : forall v accum rest,
  0 <= v < 85 ^ Z.of_nat n -> 0 <= accum ->
  accum * 85 ^ Z.of_nat n + v < 2 ^ 32 ->
  ascii85_group n (digits85 n v +:+ rest) accum
  = Some (accum * 85 ^ Z.of_nat n + v, Some rest).
Proof.
  induction n as [|n IH]; intros v accum rest Hv Ha Hb.
  - change (85 ^ Z.of_nat 0) with 1 in *.
    change (Some (accum, Some rest) = Some (accum * 1 + v, Some rest)).
    do 2 f_equal. lia.
  - rewrite Nat2Z.inj_succ, Z.pow_succ_r in * by lia.
    set (p := 85 ^ Z.of_nat n) in *.
    assert (Hp : 0 < p) by (apply Z.pow_pos_nonneg; lia).
    assert (Hq : 0 <= v / p < 85).
    { split; [apply Z.div_pos; lia | apply Z.div_lt_upper_bound; lia]. }
    assert (Hr : 0 <= v mod p < p) by (apply Z.mod_pos_bound; lia).
    assert (Hv' : v = p * (v / p) + v mod p) by (apply Z.div_mod; lia).
    simpl digits85. fold p. simpl String.append. rewrite group_cons.
    rewrite digit_char_neq by (try assumption; left; vm_compute; reflexivity).
    rewrite accumulate_digit; [| assumption | assumption | nia].
    rewrite IH; [| assumption | lia | nia].
    f_equal. f_equal. nia.
Qed.

Lemma encode_word_group v rest :
  0 < v < 2 ^ 32 ->
  ascii85_group 5 (encode_word v +:+ rest) 0 = Some (v, Some rest)
  /\ (deref (encode_word v +:+ rest) =? LF)%char = false
  /\ (deref (encode_word v +:+ rest) =? "z")%char = false
  /\ (deref (encode_word v +:+ rest) =? " ")%char = false.
Proof.
  intros Hv. unfold encode_word.
  destruct (v =? 0) eqn:E; [apply Z.eqb_eq in E; lia |].
  split.
  - rewrite group_digits; [reflexivity | | lia |]; change (85 ^ Z.of_nat 5) with 4437053125; lia.
  - assert (Hq : 0 <= v / 85 ^ Z.of_nat 4 < 85).
    { change (85 ^ Z.of_nat 4) with 52200625.
      split; [apply Z.div_pos; lia | apply Z.div_lt_upper_bound; lia]. }
    simpl digits85. simpl deref.
    repeat split; apply digit_char_neq; try assumption;
      (left; vm_compute; reflexivity) || (right; vm_compute; discriminate).
Qed.

(** Length of what the inner loop leaves unread. *)
Lemma group_rest n : forall line accum a rest,
  ascii85_group n line accum = Some (a, Some rest) ->
  (String.length rest <= String.length line)%nat.
Proof.
  induction n as [|n IH]; intros line accum a rest Hg.
  - inversion Hg; subst. lia.
  - destruct line as [|c r].
    + destruct n; discriminate.
    + rewrite group_cons in Hg. destruct (c =? LF)%char.
      * inversion Hg; subst. lia.
      * apply IH in Hg. simpl. lia.
Qed.

Lemma group_progress line a rest :
  (deref line =? LF)%char = false ->
  ascii85_group 5 line 0 = Some (a, Some rest) ->
  (String.length rest < String.length line)%nat.
Proof.
  intros Hc Hg. destruct line as [|c r]; [discriminate Hg |].
  simpl in Hc. rewrite group_cons, Hc in Hg. apply group_rest in Hg. simpl. lia.
Qed.

(** The decoding loop always has budget left: it is never the model's
    recursion bound that ends it. *)
Lemma ascii85_loop_fuel fuel : forall line idx b,
  (String.length line < fuel)%nat ->
  ascii85_loop fuel line idx b <> inl OutOfFuel.
Proof.
  induction fuel as [|fuel IH]; intros line idx b Hf; [lia |].
  simpl.
  destruct (deref line =? LF)%char eqn:E1; [discriminate |].
  destruct (deref line =? "z")%char.
  - unfold store. destruct (idx <? length b)%nat; [| simpl; discriminate].
    destruct line as [|c r]; [discriminate |].
    apply IH. simpl in Hf. lia.
  - destruct (ascii85_group 5 line 0) as [[a [rest|]]|] eqn:Eg.
    + unfold store. destruct (idx <? length b)%nat; [| simpl; discriminate].
      apply IH. pose proof (group_progress _ _ _ E1 Eg). lia.
    + unfold store. destruct (idx <? length b)%nat; simpl; discriminate.
    + discriminate.
Qed.

Lemma store_next (pre : list Z) (k : nat) (v : Z) :
  store (pre ++ replicate (S k) 0) (length pre) v
  = inr ((pre ++ [v]) ++ replicate k 0).
Proof.
  unfold store.
  assert (Hlt : (length pre <? length (pre ++ replicate (S k) 0%Z))%nat = true).
  { apply Nat.ltb_lt. rewrite length_app, length_replicate. lia. }
  rewrite Hlt. f_equal.
  rewrite insert_app_r_alt by lia. rewrite Nat.sub_diag. simpl.
  now rewrite <- app_assoc.
Qed.

(** The loop writes the words of the payload, in order, from [idx] on,
    as long as they fit. *)
Lemma ascii85_loop_words fuel : forall line ws pre k,
  ascii85_words fuel line = Some ws ->
  (length ws <= k)%nat ->
  ascii85_loop fuel line (length pre) (pre ++ replicate k 0)
  = inr (pre ++ ws ++ replicate (k - length ws) 0).
Proof.
  induction fuel as [|fuel IH]; intros line ws pre k Hw Hk; [discriminate |].
  simpl in Hw. destruct line as [|c r]; [discriminate |].
  simpl ascii85_loop. simpl deref.
  destruct (c =? LF)%char eqn:E1.
  { inversion Hw; subst. simpl. now rewrite Nat.sub_0_r. }
  destruct (c =? "z")%char eqn:E2.
  - destruct (ascii85_words fuel r) as [ws'|] eqn:Ew; [| discriminate].
    simpl in Hw. inversion Hw; subst. simpl in Hk.
    destruct k as [|k]; [lia |].
    rewrite store_next.
    replace (S (length pre)) with (length (pre ++ [0])) by (rewrite length_app; simpl; lia).
    rewrite (IH r ws' (pre ++ [0]) k Ew) by lia.
    simpl. now rewrite <- app_assoc.
  - destruct (ascii85_group 5 (String c r) 0) as [[a [rest|]]|] eqn:Eg; try discriminate.
    destruct (ascii85_words fuel rest) as [ws'|] eqn:Ew; [| discriminate].
    simpl in Hw. inversion Hw; subst. simpl in Hk.
    destruct k as [|k]; [lia |].
    rewrite store_next.
    replace (S (length pre)) with (length (pre ++ [a])) by (rewrite length_app; simpl; lia).
    rewrite (IH rest ws' (pre ++ [a]) k Ew) by lia.
    simpl. now rewrite <- app_assoc.
Qed.

(** The payload of an encoded line holds the encoded words. *)
Lemma words_of_encoding ws : forall fuel,
  Forall is_u32 ws ->
  (String.length (ln (encode_words ws)) <= fuel)%nat ->
  ascii85_words fuel (ln (encode_words ws)) = Some ws.
Proof.
  induction ws as [|v ws IH]; intros fuel Hall Hf.
  - destruct fuel; [simpl in Hf; lia | reflexivity].
  - inversion Hall as [|? ? Hv Hall']; subst.
    destruct fuel as [|fuel]; [unfold ln in Hf; rewrite strlen_app in Hf; simpl in Hf; lia |].
    unfold ln in *. simpl encode_words in *. rewrite app_assoc_str in *.
    destruct (Z.eq_dec v 0) as [->|Hnz].
    + change (encode_word 0) with "z"%string in *. simpl.
      rewrite IH; [reflexivity | assumption |].
      simpl in Hf. lia.
    + destruct (encode_word_group v (encode_words ws +:+ String LF EmptyString))
        as (Hg & H1 & H2 & _); [unfold is_u32 in Hv; lia |].
      destruct (encode_word v +:+ (encode_words ws +:+ String LF EmptyString))
        as [|c r] eqn:El; [discriminate Hg |].
      simpl in H1, H2. cbn [ascii85_words]. rewrite H1, H2, Hg.
      rewrite IH; [reflexivity | assumption |].
      assert (Hlen : (String.length (encode_words ws +:+ String LF EmptyString)
                      < String.length (String c r))%nat).
      { apply (group_progress _ v); [exact H1 | exact Hg]. }
      simpl in Hf, Hlen. lia.
Qed.

Lemma skip_spaces_indent n s :
  (deref s =? " ")%char = false -> skip_spaces (spaces n +:+ s) = s.
Proof.
  intros Hs. induction n as [|n IH]; simpl.
  - destruct s as [|c r]; [reflexivity |]. simpl in Hs. simpl. now rewrite Hs.
  - exact IH.
Qed.

Lemma encoded_no_indent ws :
  Forall is_u32 ws -> (deref (ln (encode_words ws)) =? " ")%char = false.
Proof.
  intros Hall. destruct ws as [|v ws]; [reflexivity |].
  inversion Hall as [|? ? Hv _]; subst. unfold ln. simpl encode_words.
  rewrite app_assoc_str.
  destruct (Z.eq_dec v 0) as [->|Hnz]; [reflexivity |].
  apply encode_word_group. unfold is_u32 in Hv. lia.
Qed.

End Ascii85Facts.

Section Ascii85Claims.
Context `{Libc}.

Lemma calloc_words_small (n : Z) :
  0 <= n < 2 ^ 30 -> calloc_words n = Z.to_nat n.
Proof.
  intros Hn. unfold calloc_words. rewrite wrap32_small by lia.
  f_equal. rewrite Z.mul_comm. apply Z.div_mul. lia.
Qed.

Lemma ascii85_loop_length fuel : forall line idx b b',
  ascii85_loop fuel line idx b = inr b' -> length b' = length b.
Proof.
  induction fuel as [|fuel IH]; intros line idx b b' Hl; [discriminate |].
  cbn [ascii85_loop] in Hl.
  destruct (deref line =? LF)%char; [inversion Hl; reflexivity |].
  assert (Hs : forall v b1, store b idx v = inr b1 -> length b1 = length b).
  { intros v b1. unfold store. destruct (idx <? length b)%nat; [| discriminate].
    intros E. inversion E. apply length_insert. }
  destruct (deref line =? "z")%char.
  - destruct (store b idx 0) as [why|b1] eqn:Es; [discriminate |].
    destruct line as [|c r]; [discriminate |].
    apply IH in Hl. rewrite Hl. eapply Hs, Es.
  - destruct (ascii85_group 5 line 0) as [[a rest]|]; [| discriminate].
    destruct (store b idx a) as [why|b1] eqn:Es; [discriminate |].
    destruct rest as [rest|]; [| discriminate].
    apply IH in Hl. rewrite Hl. eapply Hs, Es.
Qed.

(** What a call of [popline_ascii85] amounts to once the line is known. *)
Lemma popline_ascii85_line (N : Z) (w w1 : world) (line : string) :
  popline w = Ok line w1 ->
  popline_ascii85 N w =
    if (deref line =? " ")%char then
      match ascii85_loop (S (String.length (skip_spaces line))) (skip_spaces line) 0
              (replicate (calloc_words N) 0) with
      | inr b => Ok b w1
      | inl why => Stop why w1
      end
    else Stop (AssertFailed "*line == ' '") w1.
Proof.
  intros Hpop. unfold popline_ascii85, bind. rewrite Hpop. unfold assert.
  destruct (deref line =? " ")%char; [| reflexivity].
  cbv beta iota zeta delta [ret halt].
  destruct (ascii85_loop _ _ _ _); reflexivity.
Qed.

Lemma popline_ascii85_payload (N : Z) (w w1 : world) (line : string) (ws : list Z) :
  popline w = Ok line w1 ->
  (deref line =? " ")%char = true ->
  payload_words (skip_spaces line) = Some ws ->
  (length ws <= calloc_words N)%nat ->
  popline_ascii85 N w = Ok (ws ++ replicate (calloc_words N - length ws) 0) w1.
Proof.
  intros Hpop Hind Hws Hfit.
  rewrite (popline_ascii85_line N w w1 line Hpop), Hind.
  unfold payload_words in Hws.
  pose proof (ascii85_loop_words _ _ _ [] _ Hws Hfit) as Hl.
  cbn [app length] in Hl. rewrite Hl. reflexivity.
Qed.

(** C2. Encoding any sequence of 32-bit words (five base-85 digits per
    word, [z] for a zero word) into an indented line and decoding that
    line with [popline_ascii85] gives the sequence back. *)
Theorem ascii85_round_trip (ws : list Z) (indent : nat) (w w1 : world) :
  Forall is_u32 ws ->
  (0 < indent)%nat ->
  Z.of_nat (length ws) < 2 ^ 30 ->
  popline w = Ok (encode_line indent ws) w1 ->
  popline_ascii85 (Z.of_nat (length ws)) w = Ok ws w1.
Proof.
  intros Hall Hind Hlen Hpop.
  assert (Hskip : skip_spaces (encode_line indent ws) = ln (encode_words ws)).
  { apply skip_spaces_indent, encoded_no_indent, Hall. }
  rewrite (popline_ascii85_payload _ w w1 _ ws Hpop).
  - rewrite calloc_words_small, Nat2Z.id, Nat.sub_diag by lia.
    simpl. now rewrite app_nil_r.
  - destruct indent; [lia | reflexivity].
  - rewrite Hskip. unfold payload_words. apply words_of_encoding; [exact Hall | lia].
  - rewrite calloc_words_small, Nat2Z.id by lia. lia.
Qed.

(** C3 (amended). [popline_ascii85 N] decodes the line up to its newline
    and stores one word per group; when the payload holds no more words
    than the buffer, exactly these words are written at its start, the
    rest stays zero, and one line has been consumed.  The buffer has [N]
    words for [N < 2^30]. *)
Theorem popline_ascii85_within (N : Z) (w w1 : world) (line : string) (ws : list Z) :
  popline w = Ok line w1 ->
  (deref line =? " ")%char = true ->
  payload_words (skip_spaces line) = Some ws ->
  (length ws <= calloc_words N)%nat ->
  popline_ascii85 N w = Ok (ws ++ replicate (calloc_words N - length ws) 0) w1
  /\ length (ws ++ replicate (calloc_words N - length ws) 0) = calloc_words N
  /\ (0 <= N < 2 ^ 30 -> calloc_words N = Z.to_nat N).
Proof.
  intros Hpop Hind Hws Hfit. repeat split.
  - now apply popline_ascii85_payload with (line := line).
  - rewrite length_app, length_replicate. lia.
  - apply calloc_words_small.
Qed.

End Ascii85Claims.

(** ** The [bos] section *)

Section BosFacts.
Context `{Libc}.

Lemma out_emit e w : out (emit e w) = out w ++ [e].
Proof. reflexivity. Qed.

Lemma pending_emit e w : pending (emit e w) = pending w.
Proof. reflexivity. Qed.

Lemma popline_pending w l w1 :
  popline w = Ok l w1 -> pending w = l :: pending w1 /\ out w1 = out w.
Proof.
  unfold popline, pending. destruct (pushedline w) eqn:E.
  - intros Hp. inversion Hp; subst. simpl. split; reflexivity.
  - destruct (input w) eqn:Ei; intros Hp; inversion Hp; subst.
    simpl. split; reflexivity.
Qed.

Lemma popline_stop w why w' : popline w = Stop why w' -> why = Exit0 /\ w' = w.
Proof.
  unfold popline. destruct (pushedline w); [discriminate |].
  destruct (input w); [| discriminate]. intros Hp. inversion Hp. split; reflexivity.
Qed.

Lemma pushline_cases w :
  (exists w', pushline w = Ok tt w' /\ out w' = out w)
  \/ pushline w = Stop (AssertFailed "!pushedline") w.
Proof.
  unfold pushline. destruct (pushedline w); [right; reflexivity |].
  left. eexists. split; reflexivity.
Qed.

(** [popline_ascii85] either returns the buffer, having consumed one
    indented line, or stops for a reason that is neither a parse error
    nor the model's recursion bound. *)
Lemma popline_ascii85_cases N w :
  (exists l w1 b, popline w = Ok l w1 /\ indented l = true /\
                  popline_ascii85 N w = Ok b w1 /\ length b = calloc_words N)
  \/ (exists why w', popline_ascii85 N w = Stop why w' /\ out w' = out w /\
                     (forall fmt, why <> ParseError fmt) /\ why <> OutOfFuel).
Proof.
  destruct (popline w) as [l w1|why w'] eqn:Hpop.
  - rewrite (popline_ascii85_line N w w1 l Hpop).
    pose proof (popline_pending _ _ _ Hpop) as [_ Hout].
    unfold indented. destruct (deref l =? " ")%char eqn:Hind.
    + destruct (ascii85_loop _ _ _ _) as [why|b] eqn:Hl.
      * right. exists why, w1. repeat split; [exact Hout | |].
        -- intros fmt ->. clear Hpop. revert Hl. generalize (skip_spaces l). intros s Hl.
           assert (Hne : forall fuel line idx b fmt,
                      ascii85_loop fuel line idx b <> inl (ParseError fmt)).
           { clear. induction fuel as [|fuel IH]; intros line idx b fmt; [discriminate |].
             cbn [ascii85_loop].
             destruct (deref line =? LF)%char; [discriminate |].
             destruct (deref line =? "z")%char.
             - unfold store. destruct (idx <? length b)%nat; [| discriminate].
               destruct line; [discriminate | apply IH].
             - destruct (ascii85_group 5 line 0) as [[a [rest|]]|]; [| | discriminate];
                 unfold store; destruct (idx <? length b)%nat; try discriminate.
               apply IH. }
           exact (Hne _ _ _ _ _ Hl).
        -- intros ->. revert Hl. apply ascii85_loop_fuel. lia.
      * left. exists l, w1, b. repeat split; try reflexivity; try assumption.
        apply ascii85_loop_length in Hl. rewrite Hl. apply length_replicate.
    + right. eexists _, w1. repeat split; [exact Hout | discriminate | discriminate].
  - right. apply popline_stop in Hpop as Hs. destruct Hs as [-> ->].
    exists Exit0, w. unfold popline_ascii85, bind. rewrite Hpop.
    repeat split; discriminate.
Qed.

Lemma parseline_ok line fmt w :
  scans line fmt = true ->
  parseline line fmt w = Ok (default [] (vsscanf line fmt)) w.
Proof. unfold parseline, scans. intros ->. reflexivity. Qed.

Lemma section_body_cons l ls :
  indented l = true -> section_body (l :: ls) = l :: section_body ls.
Proof. intros Hl. simpl. now rewrite Hl. Qed.

Lemma scanned_one line sz :
  scans line fmt_size = true ->
  wrap32 (nth 0 (default [] (vsscanf line fmt_size)) sz) = scanned_size line.
Proof.
  unfold scans, scanned_size, scanned.
  change (expected_conversions fmt_size 0 0 0) with 1.
  destruct (vsscanf line fmt_size) as [[|v vals]|]; simpl; intros Hs;
    try discriminate Hs; reflexivity.
Qed.

Lemma bos_outcome_quiet Q w (r : result unit) :
  out (final r) = out w ->
  (forall fmt, stopped r <> Some (ParseError fmt)) ->
  stopped r <> Some OutOfFuel ->
  bos_outcome Q w r.
Proof.
  intros Ho Hp Hf. repeat split; try assumption.
  exists []. rewrite app_nil_r. split; [exact Ho | constructor].
Qed.

Lemma decode_bos_loop_inv (Q : Z -> Prop) fuel : forall sz io w,
  (length (pending w) < fuel)%nat ->
  Forall (fun l => field_ok l = true) (section_body (pending w)) ->
  Q sz ->
  (forall l, In l (section_body (pending w)) ->
             is_size_line l = true -> Q (scanned_size l)) ->
  bos_outcome Q w (decode_bos_loop fuel sz io w).
Proof.
  induction fuel as [|fuel IH]; intros sz io w Hf Hok HQ Hsz; [lia |].
  cbn [decode_bos_loop]. unfold bind at 1.
  destruct (popline w) as [line w1|why w'] eqn:Hpop.
  2:{ apply popline_stop in Hpop as [-> ->].
      apply bos_outcome_quiet; [reflexivity | discriminate | discriminate]. }
  destruct (popline_pending _ _ _ Hpop) as [Hpend Hout].
  rewrite Hpend in Hf, Hok, Hsz. simpl in Hf.
  fold (indented line). destruct (indented line) eqn:Hind; cbn [negb].
  2:{ destruct (pushline_cases w1) as [(w' & -> & Hout')| ->];
        (apply bos_outcome_quiet; [simpl; congruence | discriminate | discriminate]). }
  rewrite section_body_cons in Hok, Hsz by exact Hind.
  inversion Hok as [|? ? Hline Hrest]; subst.
  assert (Hsz' : forall l, In l (section_body (pending w1)) ->
                           is_size_line l = true -> Q (scanned_size l)).
  { intros l Hl. apply Hsz. now right. }
  assert (Hecho : forall sz' io',
    Q sz' ->
    bos_outcome Q w (decode_bos_loop fuel sz' io' (emit (EvEcho line) w1))).
  { intros sz' io' HQ'.
    destruct (IH sz' io' (emit (EvEcho line) w1)) as (Hp & Ho & evs & Hev & Hreg);
      try assumption; [rewrite pending_emit; lia |].
    split; [exact Hp | split; [exact Ho |]].
    exists (EvEcho line :: evs). split; [| constructor; [exact I | exact Hreg]].
    rewrite Hev, out_emit, Hout, <- app_assoc. reflexivity. }
  unfold field_ok in Hline. fold (is_iova_line line).
  destruct (is_iova_line line) eqn:Hiova.
  { unfold bind. rewrite parseline_ok by exact Hline.
    unfold printf_line, log, modify. apply Hecho, HQ. }
  assert (Hsl : is_size_line line = startswith line "    size:").
  { unfold is_size_line. unfold is_iova_line in Hiova. now rewrite Hiova. }
  rewrite <- Hsl. destruct (is_size_line line) eqn:Hsize.
  { unfold bind. rewrite parseline_ok by exact Hline.
    unfold printf_line, log, modify. rewrite scanned_one by exact Hline.
    apply Hecho, Hsz; [now left | exact Hsize]. }
  destruct (startswith line "    data: !!ascii85 |").
  2:{ unfold bind. unfold printf_line, log, modify. apply Hecho, HQ. }
  unfold bind at 1.
  destruct (popline_ascii85_cases (sz / 4) w1)
    as [(l2 & w2 & b & Hpop2 & Hind2 & -> & Hlen)|(why & w' & -> & Hout' & Hnp & Hnf)].
  2:{ apply bos_outcome_quiet; simpl; [congruence | | congruence].
      intros fmt E. inversion E. eapply Hnp; eassumption. }
  destruct (popline_pending _ _ _ Hpop2) as [Hpend2 Hout2].
  rewrite Hpend2 in Hf, Hrest, Hsz'. simpl in Hf.
  rewrite section_body_cons in Hrest, Hsz' by exact Hind2.
  inversion Hrest as [|? ? _ Hrest2]; subst.
  assert (Hadd : forall w3 pre,
    out w3 = out w ++ pre -> Forall (registered Q) pre -> pending w3 = pending w2 ->
    bos_outcome Q w (decode_bos_loop fuel sz io (emit (EvAddBuffer io sz b) w3))).
  { intros w3 pre Hpre Hregpre Hpend3.
    destruct (IH sz io (emit (EvAddBuffer io sz b) w3)) as (Hp & Ho & evs & Hev & Hreg).
    - rewrite pending_emit, Hpend3. lia.
    - rewrite pending_emit, Hpend3. exact Hrest2.
    - exact HQ.
    - rewrite pending_emit, Hpend3. intros l Hl. apply Hsz'. now right.
    - split; [exact Hp | split; [exact Ho |]].
      exists (pre ++ EvAddBuffer io sz b :: evs). split.
      + rewrite Hev, out_emit, Hpre, <- !app_assoc. reflexivity.
      + apply Forall_app. split; [exact Hregpre |].
        constructor; [split; [exact HQ | exact Hlen] | exact Hreg]. }
  unfold bind, gets, add_buffer, dump_hex_ascii, log, modify, ret.
  destruct (verbose w2).
  - apply (Hadd _ [EvDumpHexAscii b sz 1]).
    + rewrite out_emit, Hout2, Hout. reflexivity.
    + constructor; [exact I | constructor].
    + reflexivity.
  - apply (Hadd _ []).
    + rewrite app_nil_r, Hout2, Hout. reflexivity.
    + constructor.
    + reflexivity.
Qed.

End BosFacts.

(** ** Ring arithmetic *)

Lemma to_int_small x : 0 <= x < 2 ^ 31 -> to_int x = x.
Proof.
  intros Hx. unfold to_int. rewrite wrap32_small by lia.
  destruct (x <? 2 ^ 31) eqn:E; [reflexivity | apply Z.ltb_ge in E; lia].
Qed.

Lemma to_int_neg x : 0 < x <= 2 ^ 31 -> to_int (- x) = - x.
Proof.
  intros Hx. unfold to_int, wrap32.
  replace ((- x) mod 2 ^ 32) with (2 ^ 32 - x).
  - destruct (2 ^ 32 - x <? 2 ^ 31) eqn:E; [apply Z.ltb_lt in E; lia | lia].
  - apply Z.mod_unique with (q := -1); lia.
Qed.

Lemma to_int_wrap32 x : to_int (wrap32 x) = to_int x.
Proof. unfold to_int, wrap32. now rewrite Z.mod_mod by lia. Qed.

Lemma ringszdw_bound sz : 0 <= sz < 2 ^ 32 -> 0 <= Z.shiftr sz 2 < 2 ^ 30.
Proof.
  intros Hsz. rewrite Z.shiftr_div_pow2 by lia. change (2 ^ 2) with 4.
  split; [apply Z.div_pos; lia | apply Z.div_lt_upper_bound; lia].
Qed.

(** [mod_add] is addition modulo the capacity whenever the [unsigned]
    sum neither wraps nor goes below zero. *)
Lemma mod_add_exact ringszdw b v :
  - 2 ^ 31 <= b < 2 ^ 31 -> - 2 ^ 31 <= v < 2 ^ 31 ->
  0 <= ringszdw + b + v < 2 ^ 32 ->
  0 < ringszdw ->
  mod_add ringszdw b v = (b + v) mod ringszdw.
Proof.
  intros Hb Hv Hs Hr. unfold mod_add.
  assert (Hi : forall x, - 2 ^ 31 <= x < 2 ^ 31 -> to_int x = x).
  { intros x Hx. destruct (Z_lt_le_dec x 0).
    - replace x with (- - x) by lia. rewrite to_int_neg; lia.
    - apply to_int_small. lia. }
  rewrite !Hi by assumption. rewrite wrap32_small by assumption.
  replace (ringszdw + b + v) with (b + v + 1 * ringszdw) by lia.
  apply Z.mod_add. lia.
Qed.

Lemma mod_add_range ringszdw b v :
  0 < ringszdw -> 0 <= mod_add ringszdw b v < ringszdw.
Proof. intros Hr. unfold mod_add. apply Z.mod_pos_bound. exact Hr. Qed.

(** C1. For a ring of [ringszdw = size >> 2] words and read and write
    pointers inside the ring, the number of words in flight computed by
    [dump_cmdstream] is [(wptr - rptr) mod ringszdw]; it lies in
    [[0, ringszdw)], and equals [ringszdw - rptr + wptr] when the write
    pointer has wrapped round behind the read pointer. *)
Theorem cmdszdw_modular (sz rp wp : Z) :
  0 <= sz < 2 ^ 32 ->
  0 <= rp < Z.shiftr sz 2 ->
  0 <= wp < Z.shiftr sz 2 ->
  cmdszdw_of (Z.shiftr sz 2) rp wp = (wp - rp) mod Z.shiftr sz 2
  /\ 0 <= cmdszdw_of (Z.shiftr sz 2) rp wp < Z.shiftr sz 2
  /\ (wp < rp -> cmdszdw_of (Z.shiftr sz 2) rp wp = Z.shiftr sz 2 - rp + wp)
  /\ (rp <= wp -> cmdszdw_of (Z.shiftr sz 2) rp wp = wp - rp).
Proof.
  intros Hsz Hrp Hwp.
  pose proof (ringszdw_bound sz Hsz) as Hn.
  set (n := Z.shiftr sz 2) in *.
  assert (Heq : cmdszdw_of n rp wp = (wp - rp) mod n).
  { unfold cmdszdw_of, mod_add. rewrite to_int_wrap32.
    rewrite (to_int_small wp) by lia.
    assert (Hneg : to_int (- rp) = - rp).
    { destruct (Z.eq_dec rp 0) as [->|Hnz]; [reflexivity | apply to_int_neg; lia]. }
    rewrite Hneg. rewrite wrap32_small by lia.
    replace (n + wp + - rp) with (wp - rp + 1 * n) by lia.
    apply Z.mod_add. lia. }
  rewrite Heq. split; [reflexivity |]. split; [apply Z.mod_pos_bound; lia |]. split.
  - intros Hlt. symmetry. apply Z.mod_unique with (q := -1); lia.
  - intros Hle. apply Z.mod_small. lia.
Qed.

(** ** Register reads *)

Section CmdStreamFacts.
Context `{Cffdec}.

Lemma emit_emits e evs w : emit e (emits evs w) = emits (evs ++ [e]) w.
Proof. unfold emit, emits. simpl. now rewrite <- app_assoc. Qed.

Lemma emit_one e w : emit e w = emits [e] w.
Proof. reflexivity. Qed.

Lemma emits_emits e1 e2 w : emits e2 (emits e1 w) = emits (e1 ++ e2) w.
Proof. unfold emits. simpl. now rewrite <- app_assoc. Qed.

Lemma regval_run name w :
  resolves name ->
  regval name w = Ok (regval_in w name) (emits (reg_events w name) w).
Proof.
  unfold resolves, regval, bind, assert. intros Hr.
  apply Z.eqb_neq in Hr. rewrite Hr. reflexivity.
Qed.

Lemma regval64_run name w :
  resolves name ->
  regval64 name w = Ok (regval64_in w name) (emits (reg64_events w name) w).
Proof.
  unfold resolves, regval64, regval64_in, reg64_events, bind, assert. intros Hr.
  apply Z.eqb_neq in Hr. rewrite Hr. simpl.
  destruct (is_64b (options w)) eqn:E; simpl; unfold emits, reg_read, ret, emit; simpl.
  - rewrite <- app_assoc. reflexivity.
  - reflexivity.
Qed.

Lemma regval_unresolved name w :
  ~ resolves name -> regval name w = Stop (AssertFailed "reg") w.
Proof.
  unfold resolves, regval, bind, assert. intros Hr.
  destruct (wrap32 (regbase name) =? 0) eqn:E; [reflexivity |].
  apply Z.eqb_neq in E. contradiction.
Qed.

Lemma regval64_unresolved name w :
  ~ resolves name -> regval64 name w = Stop (AssertFailed "reg") w.
Proof.
  unfold resolves, regval64, bind, assert. intros Hr.
  destruct (wrap32 (regbase name) =? 0) eqn:E; [reflexivity |].
  apply Z.eqb_neq in E. contradiction.
Qed.

(** C10. For a register name that resolves to an index [reg],
    [regval64] returns [reg_val(reg) | reg_val(reg + 1) << 32] on GPUs
    with [gpu_id >= 500] and [reg_val(reg)] alone below that; the index
    [reg + 1] is formed in [unsigned]. *)
Theorem regval64_value (name : string) (w : world) (reg : Z) :
  wrap32 (regbase name) = reg ->
  reg <> 0 ->
  exists w',
    regval64 name w
    = Ok (if 500 <=? gpu_id (options w)
          then Z.lor (reg_read w reg) (Z.shiftl (reg_read w (wrap32 (reg + 1))) 32)
          else reg_read w reg) w'
    /\ regs w' = regs w /\ options w' = options w
    /\ 0 <= reg_read w reg < 2 ^ 32.
Proof.
  intros Hreg Hnz. eexists. split; [| split; [| split]].
  - rewrite regval64_run by (unfold resolves; congruence).
    unfold regval64_in, is_64b. rewrite Hreg. reflexivity.
  - reflexivity.
  - reflexivity.
  - unfold reg_read, wrap32. apply Z.mod_pos_bound. lia.
Qed.

End CmdStreamFacts.

(** *** Stepping through a computation *)

Lemma bind_Ok {A B} (m : M A) (k : A -> M B) w a w' :
  m w = Ok a w' -> bind m k w = k a w'.
Proof. unfold bind. now intros ->. Qed.

Lemma bind_Stop {A B} (m : M A) (k : A -> M B) w why w' :
  m w = Stop why w' -> bind m k w = Stop why w'.
Proof. unfold bind. now intros ->. Qed.

Lemma bind_assoc {A B C} (m : M A) (f : A -> M B) (g : B -> M C) w :
  bind (bind m f) g w = bind m (fun a => bind (f a) g) w.
Proof. unfold bind. destruct (m w); reflexivity. Qed.

Lemma log_run e w : log e w = Ok tt (emit e w).
Proof. reflexivity. Qed.

Lemma modify_run f w : modify f w = Ok tt (f w).
Proof. reflexivity. Qed.

Lemma gets_run {A} (f : world -> A) w : gets f w = Ok (f w) w.
Proof. reflexivity. Qed.

Lemma resolves_eqb `{Cffdec} name :
  resolves name -> (wrap32 (regbase name) =? 0) = false.
Proof. unfold resolves. apply Z.eqb_neq. Qed.

Ltac run_log := erewrite bind_Ok by (apply log_run); cbv beta.
Ltac run_modify := erewrite bind_Ok by (apply modify_run); cbv beta.
Ltac run_gets := erewrite bind_Ok by (apply gets_run); cbv beta.
Ltac run_ret := erewrite bind_Ok by (unfold ret; reflexivity); cbv beta.
(** Values and events read in a later state are those of [w]: the
    steps in between leave the registers and [gpu_id] alone. *)
Ltac settle w :=
  repeat match goal with
         | |- context [regval_in ?W ?n] =>
             lazymatch W with w => fail | _ => change (regval_in W n) with (regval_in w n) end
         | |- context [regval64_in ?W ?n] =>
             lazymatch W with w => fail | _ => change (regval64_in W n) with (regval64_in w n) end
         | |- context [reg_events ?W ?n] =>
             lazymatch W with w => fail | _ => change (reg_events W n) with (reg_events w n) end
         | |- context [reg64_events ?W ?n] =>
             lazymatch W with w => fail | _ => change (reg64_events W n) with (reg64_events w n) end
         end.
Ltac run_reg64 w Hn :=
  erewrite bind_Ok by (apply regval64_run; exact Hn); cbv beta; settle w.
Ltac run_reg w Hn :=
  erewrite bind_Ok by (apply regval_run; exact Hn); cbv beta; settle w.

Ltac find_in := cbn [In app]; solve [repeat (first [left; reflexivity | right])].

Ltac norm_state :=
  cbv beta iota delta [regval64_in regval_in reg_read reg64_events reg_events cp_options
    cp_rem emits emit set_ib1 set_ib2 set_options with_base with_rem add_rem ret is_a6xx
    is_64b options gpu_id regs ibs1 ibs2 ib_base ib_rem input lastline pushedline verbose
    ringbuffers out] in *.

Section CpRegs.
Context `{Cffdec}.

(** The register-reading half of [dump_cmdstream], when every name it
    looks up is in the database. *)
Lemma read_cp_regs_run w :
  Forall resolves (cp_names (options w)) ->
  exists evs,
    read_cp_regs w
    = Ok (regval64_in w "CP_RB_BASE") (set_options (cp_options w) (emits evs w))
    /\ forallb is_cp_read evs = true
    /\ Forall (fun n => In (EvRegVal (wrap32 (regbase n))) evs) (cp_names (options w)).
Proof.
  intros Hres. unfold cp_names in *.
  apply Forall_app in Hres as [Hbase Hstat].
  inversion Hbase as [|? ? Hrb Hb1]; subst. inversion Hb1 as [|? ? Hi1 Hb2]; subst.
  inversion Hb2 as [|? ? Hr1 Hb3]; subst. inversion Hb3 as [|? ? Hi2 Hb4]; subst.
  inversion Hb4 as [|? ? Hr2 _]; subst. clear Hbase Hb1 Hb2 Hb3 Hb4.
  unfold read_cp_regs.
  run_reg64 w Hrb. run_log.
  run_reg64 w Hi1. run_modify.
  run_reg w Hr1. run_modify.
  run_reg64 w Hi2. run_modify.
  run_reg w Hr2. run_modify.
  run_gets.
  match goal with
  | |- context [is_a6xx (options ?W)] =>
      change (is_a6xx (options W)) with (is_a6xx (options w))
  end.
  destruct (is_a6xx (options w)) eqn:E6.
  - inversion Hstat as [|? ? Hs1 Hs']; subst. inversion Hs' as [|? ? Hs2 _]; subst.
    rewrite (bind_assoc (regval _)). run_reg w Hs1.
    rewrite (bind_assoc (modify _)). run_modify.
    rewrite (bind_assoc (regval _)). run_reg w Hs2. run_modify.
    run_gets. run_log. run_log.
    destruct w as [i l p v [gpu i1 i2] rs r t].
    norm_state. rewrite E6.
    rewrite <- !app_assoc. cbn [app].
    eexists. split; [reflexivity |]. split.
    + destruct (500 <=? gpu); reflexivity.
    + destruct (500 <=? gpu); repeat (constructor; [find_in |]); constructor.
  - run_ret.
    run_gets. run_log. run_log.
    destruct w as [i l p v [gpu i1 i2] rs r t].
    norm_state. rewrite E6.
    rewrite <- !app_assoc. cbn [app].
    eexists. split; [reflexivity |]. split.
    + destruct (500 <=? gpu); reflexivity.
    + destruct (500 <=? gpu); repeat (constructor; [find_in |]); constructor.
Qed.

End CpRegs.

(** ** The backward header search *)

Section HeaderSearch.
Context `{Cffdec}.

Lemma ring_backed_emits w id ringszdw words evs :
  ring_backed w id ringszdw words -> ring_backed (emits evs w) id ringszdw words.
Proof. intros Hb. exact Hb. Qed.

Lemma ring_load_run w id ringszdw words pos :
  ring_backed w id ringszdw words ->
  0 <= pos < ringszdw ->
  ring_load id pos w = Ok (word_at words pos) (emits [EvRingLoad id pos] w).
Proof.
  intros [Hbuf Hlen] Hpos. unfold ring_load.
  erewrite bind_Ok by apply log_run. erewrite bind_Ok by apply gets_run.
  change (ring_at id (emit (EvRingLoad id pos) w)) with (ring_at id w).
  rewrite Hbuf.
  destruct (0 <=? pos) eqn:E; [| apply Z.leb_gt in E; lia].
  unfold word_at.
  destruct (words !! Z.to_nat pos) as [v|] eqn:El; [reflexivity |].
  apply lookup_ge_None in El. lia.
Qed.

Lemma mod_add_next ringszdw rp :
  0 < ringszdw < 2 ^ 30 -> 0 <= rp < ringszdw ->
  mod_add ringszdw rp 1 = (rp + 1) mod ringszdw.
Proof. intros Hr Hrp. apply mod_add_exact; lia. Qed.

Lemma positions_from_S ringszdw rp j :
  0 < ringszdw -> 0 <= rp < ringszdw ->
  positions_from ringszdw rp (S j)
  = rp :: positions_from ringszdw ((rp + 1) mod ringszdw) j.
Proof.
  intros Hr Hrp. unfold positions_from. cbn [seq map]. f_equal.
  - rewrite Z.add_0_r. apply Z.mod_small. exact Hrp.
  - rewrite <- seq_shift, map_map. apply map_ext. intros i.
    rewrite Zplus_mod_idemp_l. f_equal. lia.
Qed.

(** The search probes consecutive positions from [rp] on, stops at the
    first valid header, and after [n] rejected probes returns the
    position that follows the last probe. *)
Lemma header_search_run n : forall id ringszdw words rp w,
  0 < ringszdw < 2 ^ 30 ->
  ring_backed w id ringszdw words ->
  0 <= rp < ringszdw ->
  exists j,
    header_search n id ringszdw rp w
    = Ok ((rp + Z.of_nat j) mod ringszdw)
         (emits (map (EvRingLoad id)
                     (positions_from ringszdw rp (if (j <? n)%nat then S j else n))) w)
    /\ (j <= n)%nat
    /\ rejected (options w) words ringszdw rp j
    /\ ((j < n)%nat ->
        valid_header (options w) (word_at words ((rp + Z.of_nat j) mod ringszdw)) = true).
Proof.
  induction n as [|n IH]; intros id ringszdw words rp w Hr Hb Hrp.
  - exists 0%nat. cbn [header_search Nat.ltb Nat.leb positions_from seq map].
    rewrite Z.add_0_r, Z.mod_small by lia.
    repeat split; [| lia | intros i Hi; lia | lia].
    unfold ret, emits. destruct w; simpl. now rewrite app_nil_r.
  - cbn [header_search].
    erewrite bind_Ok by (eapply ring_load_run; eassumption).
    erewrite bind_Ok by apply gets_run.
    change (options (emits [EvRingLoad id rp] w)) with (options w).
    destruct (valid_header (options w) (word_at words rp)) eqn:Ev.
    + exists 0%nat. rewrite Z.add_0_r, Z.mod_small by lia.
      change (0 <? S n)%nat with true. cbv iota.
      repeat split; [| lia | intros i Hi; lia | intros _; exact Ev].
      unfold positions_from. cbn [seq map]. rewrite Z.add_0_r, Z.mod_small by lia.
      reflexivity.
    + rewrite mod_add_next by assumption.
      assert (Hrp' : 0 <= (rp + 1) mod ringszdw < ringszdw)
        by (apply Z.mod_pos_bound; lia).
      destruct (IH id ringszdw words ((rp + 1) mod ringszdw)
                  (emits [EvRingLoad id rp] w) Hr (ring_backed_emits _ _ _ _ _ Hb) Hrp')
        as (j & Hrun & Hj & Hrej & Hval).
      exists (S j). rewrite Hrun. split; [| split; [lia | split]].
      * f_equal.
        -- rewrite Zplus_mod_idemp_l. f_equal. lia.
        -- rewrite emits_emits. f_equal.
           change (S j <? S n)%nat with (j <? n)%nat.
           destruct (j <? n)%nat;
             rewrite (positions_from_S ringszdw rp) by lia; reflexivity.
      * intros i Hi. destruct i as [|i].
        -- rewrite Z.add_0_r, Z.mod_small by lia. exact Ev.
        -- specialize (Hrej i ltac:(lia)).
           rewrite Zplus_mod_idemp_l in Hrej.
           replace (rp + Z.of_nat (S i)) with (rp + 1 + Z.of_nat i) by lia. exact Hrej.
      * intros Hlt. specialize (Hval ltac:(lia)).
        rewrite Zplus_mod_idemp_l in Hval.
        replace (rp + Z.of_nat (S j)) with (rp + 1 + Z.of_nat j) by lia. exact Hval.
Qed.

End HeaderSearch.

Section HeaderSearchClaim.
Context `{Cffdec}.

(** In a ring of at most [lookback] words the window is the whole ring. *)
Lemma window_covers ringszdw rp pos :
  0 < ringszdw <= lookback -> 0 <= rp < ringszdw -> 0 <= pos < ringszdw ->
  in_window ringszdw rp pos.
Proof.
  unfold in_window, lookback. intros Hr Hrp Hpos.
  destruct (Z.eq_dec rp pos) as [->|Hne].
  - exists ringszdw. split; [lia |].
    replace (pos - ringszdw) with (pos + (-1) * ringszdw) by lia.
    rewrite Z.mod_add by lia. symmetry. apply Z.mod_small. lia.
  - exists ((rp - pos) mod ringszdw).
    assert (Hd : 0 <= (rp - pos) mod ringszdw < ringszdw) by (apply Z.mod_pos_bound; lia).
    assert (Hnz : (rp - pos) mod ringszdw <> 0).
    { intros E. apply Z.mod_divide in E; [| lia]. destruct E as [q Hq].
      assert (q = 0) by nia. lia. }
    split; [lia |].
    rewrite Zminus_mod_idemp_r. replace (rp - (rp - pos)) with pos by lia.
    symmetry. apply Z.mod_small. lia.
Qed.

Lemma positions_from_length ringszdw rp j : length (positions_from ringszdw rp j) = j.
Proof. unfold positions_from. now rewrite length_map, length_seq. Qed.

Lemma positions_from_In ringszdw rp j pos :
  In pos (positions_from ringszdw rp j) <->
  exists i, (i < j)%nat /\ pos = (rp + Z.of_nat i) mod ringszdw.
Proof.
  unfold positions_from. rewrite in_map_iff. split.
  - intros (i & <- & Hi). apply in_seq in Hi. exists i. split; [lia | reflexivity].
  - intros (i & Hi & ->). exists i. split; [reflexivity | apply in_seq; lia].
Qed.

(** C4 (amended). For a ring with its backing store and a recorded read
    pointer inside the ring, the backward search probes between one and
    twelve positions, each inside the ring and inside the twelve-word
    window before the read pointer.  It always returns.  When every
    probed word is rejected, twelve positions have been probed and the
    search ends one position past the last probe, which is the recorded
    read pointer itself whenever [lookback <= ringszdw + rptr].  For
    [gpu_id < 500] the first probed position is accepted. *)
Theorem header_search_window (w : world) (id : nat) (words : list Z) :
  let rb := ring_at id w in
  let ringszdw := Z.shiftr (size rb) 2 in
  let first := mod_add ringszdw (rptr rb) (- lookback) in
  0 <= size rb < 2 ^ 32 ->
  0 < ringszdw ->
  0 <= rptr rb < ringszdw ->
  ring_backed w id ringszdw words ->
  exists final probes,
    header_search (Z.to_nat lookback) id ringszdw first w
    = Ok final (emits (map (EvRingLoad id) probes) w)
    /\ (1 <= length probes <= 12)%nat
    /\ Forall (fun pos => 0 <= pos < ringszdw /\ in_window ringszdw (rptr rb) pos) probes
    /\ ((forall pos, In pos probes -> valid_header (options w) (word_at words pos) = false) ->
        probes = positions_from ringszdw first 12
        /\ last probes = Some ((first + 11) mod ringszdw)
        /\ final = ((first + 11) mod ringszdw + 1) mod ringszdw
        /\ (lookback <= ringszdw + rptr rb -> final = rptr rb))
    /\ (gpu_id (options w) < 500 -> probes = [first] /\ final = first).
Proof.
  intros rb ringszdw first Hsz Hr Hrp Hb.
  pose proof (ringszdw_bound _ Hsz) as Hr30. fold ringszdw in Hr30.
  assert (Hfirst : 0 <= first < ringszdw) by (apply mod_add_range; exact Hr).
  destruct (header_search_run (Z.to_nat lookback) id ringszdw words first w
              ltac:(lia) Hb Hfirst) as (j & Hrun & Hj & Hrej & Hval).
  change (Z.to_nat lookback) with 12%nat in *.
  set (probes := positions_from ringszdw first (if (j <? 12)%nat then S j else 12%nat)) in *.
  assert (Hlen : length probes = if (j <? 12)%nat then S j else 12%nat)
    by apply positions_from_length.
  assert (Hexact : lookback <= ringszdw + rptr rb ->
                   first = (rptr rb - lookback) mod ringszdw).
  { intros Hl. unfold first, lookback in *.
    rewrite mod_add_exact by lia. f_equal. }
  exists ((first + Z.of_nat j) mod ringszdw), probes.
  split; [exact Hrun |]. split; [| split; [| split]].
  - rewrite Hlen. destruct (j <? 12)%nat eqn:E; [apply Nat.ltb_lt in E |]; lia.
  - apply Forall_forall. intros pos Hin.
    apply list_elem_of_In, positions_from_In in Hin as (i & Hi & ->).
    assert (Hi12 : (i < 12)%nat).
    { destruct (j <? 12)%nat eqn:E; [apply Nat.ltb_lt in E |]; lia. }
    split; [apply Z.mod_pos_bound; lia |].
    destruct (Z_le_gt_dec ringszdw lookback) as [Hsmall|Hbig].
    + apply window_covers; [lia | lia | apply Z.mod_pos_bound; lia].
    + exists (lookback - Z.of_nat i). unfold lookback in *. split; [lia |].
      rewrite Hexact by lia. rewrite Zplus_mod_idemp_l. f_equal. unfold lookback. lia.
  - intros Hnone.
    assert (Hj12 : j = 12%nat).
    { destruct (Nat.lt_ge_cases j 12) as [Hlt|Hge]; [| lia].
      specialize (Hval Hlt).
      rewrite Hnone in Hval; [discriminate |].
      apply positions_from_In. exists j. split; [| reflexivity].
      apply Nat.ltb_lt in Hlt. rewrite Hlt. lia. }
    subst j. change (12 <? 12)%nat with false in *. cbv iota in probes.
    split; [reflexivity |]. split; [reflexivity |]. split.
    + rewrite Zplus_mod_idemp_l. f_equal. lia.
    + intros Hl. rewrite (Hexact Hl), Zplus_mod_idemp_l.
      unfold lookback. replace (rptr rb - 12 + Z.of_nat 12) with (rptr rb) by lia.
      apply Z.mod_small. exact Hrp.
  - intros Hgpu.
    assert (Hj0 : j = 0%nat).
    { destruct j as [|j]; [reflexivity |].
      specialize (Hrej 0%nat ltac:(lia)). unfold valid_header in Hrej.
      destruct (500 <=? gpu_id (options w)) eqn:E; [apply Z.leb_le in E; lia | discriminate]. }
    subst j. unfold probes. change (0 <? 12)%nat with true. cbv iota.
    unfold positions_from. cbn [seq map]. rewrite Z.add_0_r, Z.mod_small by lia.
    split; reflexivity.
Qed.

End HeaderSearchClaim.

(** ** The ring loop *)

Section RingLoop.
Context `{Cffdec}.

Lemma first_dump_app pre post :
  first_dump (pre ++ post)
  = match first_dump pre with Some r => Some r | None => first_dump post end.
Proof.
  induction pre as [|e pre IH]; [reflexivity |].
  destruct e; simpl; try exact IH. reflexivity.
Qed.

Lemma recon_step_refl P w : recon_step P w w.
Proof.
  repeat split. exists []. rewrite app_nil_r. repeat split.
  - intros id pos [].
  - right. split; reflexivity.
Qed.

Lemma recon_step_trans P w w1 w2 :
  recon_step P w w1 -> recon_step P w1 w2 -> recon_step P w w2.
Proof.
  intros (Hi & Hl & Hp & Hv & Ho & Hr & post1 & Hout1 & Hrec1 & Hld1 & Hfd1)
         (Hi' & Hl' & Hp' & Hv' & Ho' & Hr' & post2 & Hout2 & Hrec2 & Hld2 & Hfd2).
  repeat split; try congruence.
  exists (post1 ++ post2). split; [| split; [| split]].
  - rewrite Hout2, Hout1, <- app_assoc. reflexivity.
  - rewrite forallb_app, Hrec1, Hrec2. reflexivity.
  - intros id pos Hin. apply in_app_or in Hin as [Hin|Hin]; eauto.
  - rewrite first_dump_app.
    destruct Hfd1 as [->|[-> Hregs]]; [left; reflexivity |].
    rewrite <- Hregs. destruct Hfd2 as [->|[-> Hregs2]];
      [left; reflexivity | right; split; [reflexivity | congruence]].
Qed.

Lemma recon_bind P {A B} (m : M A) (k : A -> M B) :
  recon P m -> (forall a, recon P (k a)) -> recon P (bind m k).
Proof.
  intros Hm Hk w. unfold bind. specialize (Hm w).
  destruct (m w) as [a w1|why w1]; simpl in Hm.
  - eapply recon_step_trans; [exact Hm | apply Hk].
  - exact Hm.
Qed.

Lemma recon_ret P {A} (a : A) : recon P (ret a).
Proof. intros w. apply recon_step_refl. Qed.

Lemma recon_halt P {A} why : recon P (@halt A why).
Proof. intros w. apply recon_step_refl. Qed.

Lemma recon_gets P {A} (f : world -> A) : recon P (gets f).
Proof. intros w. apply recon_step_refl. Qed.

Lemma recon_printf P fmt args :
  is_reconstruction (EvPrintf fmt args) = true -> recon P (log (EvPrintf fmt args)).
Proof.
  intros He w. repeat split. exists [EvPrintf fmt args].
  split; [reflexivity |]. split; [| split].
  - cbn [forallb]. rewrite He. reflexivity.
  - intros id pos [E|[]]. discriminate E.
  - right. split; reflexivity.
Qed.

Lemma recon_ring_load P id pos : P id -> recon P (ring_load id pos).
Proof.
  intros HP. unfold ring_load. apply recon_bind.
  - intros w. repeat split. exists [EvRingLoad id pos]. repeat split.
    + intros id' pos' [E|[]]. inversion E; subst. exact HP.
    + right. split; reflexivity.
  - intros _. apply recon_bind; [apply recon_gets |]. intros rb.
    destruct (buf rb) as [words|]; [| apply recon_halt].
    destruct (if 0 <=? pos then words !! Z.to_nat pos else None);
      [apply recon_ret | apply recon_halt].
Qed.

Lemma recon_header_search P id ringszdw n : forall rp,
  P id -> recon P (header_search n id ringszdw rp).
Proof.
  induction n as [|n IH]; intros rp HP; cbn [header_search].
  - apply recon_ret.
  - apply recon_bind; [apply recon_ring_load, HP |]. intros pkt.
    apply recon_bind; [apply recon_gets |]. intros o.
    destruct (valid_header o pkt); [apply recon_ret | apply IH, HP].
Qed.

Lemma recon_copy_words P id ringszdw rp n : forall idx copied,
  P id -> recon P (copy_words n id ringszdw rp idx copied).
Proof.
  induction n as [|n IH]; intros idx copied HP; cbn [copy_words].
  - apply recon_ret.
  - apply recon_bind; [apply recon_ring_load, HP |]. intros v. apply IH, HP.
Qed.

Lemma recon_dump_commands P dwords sizedwords level :
  recon P (dump_commands dwords sizedwords level).
Proof.
  intros w. repeat split.
  exists [EvDumpCommands dwords sizedwords level (regs w)]. repeat split.
  - intros id pos [E|[]]. discriminate E.
  - left. reflexivity.
Qed.

Lemma recon_dump_ring P id : P id -> recon P (dump_ring id).
Proof.
  intros HP. unfold dump_ring.
  apply recon_bind; [apply recon_printf; reflexivity |]. intros _.
  apply recon_bind; [apply recon_gets |]. intros rb.
  destruct (Z.shiftr (size rb) 2 =? 0); [apply recon_halt |].
  apply recon_bind; [apply recon_header_search, HP |]. intros rp.
  apply recon_bind; [apply recon_printf; reflexivity |]. intros _.
  apply recon_bind; [apply recon_copy_words, HP |]. intros dwords.
  apply recon_dump_commands.
Qed.

Lemma dump_rings_recon rb_base ids : forall w,
  recon_step (ring_matches (ringbuffers w) rb_base) w (final (dump_rings ids rb_base w)).
Proof.
  induction ids as [|id ids IH]; intros w; cbn [dump_rings].
  - apply recon_step_refl.
  - erewrite bind_Ok by apply gets_run.
    destruct (iova (ring_at id w) =? rb_base) eqn:E; cbn [negb]; [| apply IH].
    apply Z.eqb_eq in E.
    pose proof (recon_dump_ring (ring_matches (ringbuffers w) rb_base) id E w) as Hring.
    unfold bind. destruct (dump_ring id w) as [[] w1|why w1]; simpl in Hring; [| exact Hring].
    eapply recon_step_trans; [exact Hring |].
    replace (ringbuffers w) with (ringbuffers w1) by apply Hring.
    apply IH.
Qed.

(** Rings whose [iova] differs from [rb_base] are passed over. *)
Lemma dump_rings_skip rb_base ids : forall w,
  Forall (fun id => iova (ring_at id w) <> rb_base) ids ->
  dump_rings ids rb_base w = Ok tt w.
Proof.
  induction ids as [|id ids IH]; intros w Hall; [reflexivity |].
  inversion Hall as [|? ? Hid Hrest]; subst. cbn [dump_rings].
  erewrite bind_Ok by apply gets_run.
  apply Z.eqb_neq in Hid. rewrite Hid. cbn [negb]. apply IH, Hrest.
Qed.

Lemma cp_read_not_reconstruction e :
  is_cp_read e = true -> is_reconstruction e = false.
Proof.
  destruct e; simpl; try discriminate; try reflexivity.
  intros Hc. apply orb_true_iff in Hc as [Hc|Hc];
    [apply orb_true_iff in Hc as [Hc|Hc] |];
    apply String.eqb_eq in Hc; subst; reflexivity.
Qed.

End RingLoop.

(** ** [dump_cmdstream] as a whole *)

Section DumpCmdstream.
Context `{Cffdec}.

Lemma dump_cmdstream_run w :
  Forall resolves (cp_names (options w)) ->
  exists evs,
    dump_cmdstream w
    = dump_rings (seq 0 5) (regval64_in w "CP_RB_BASE") (after_reset w evs)
    /\ forallb is_cp_read evs = true
    /\ Forall (fun n => In (EvRegVal (wrap32 (regbase n))) evs) (cp_names (options w)).
Proof.
  intros Hres. destruct (read_cp_regs_run w Hres) as (evs & Hrun & Hcp & Hin).
  exists evs. split; [| split; assumption].
  unfold dump_cmdstream. rewrite (bind_Ok _ _ _ _ _ Hrun).
  unfold reset_regs. rewrite bind_assoc.
  erewrite bind_Ok by apply log_run. erewrite bind_Ok by apply modify_run.
  reflexivity.
Qed.

Lemma resolves_dec name : {resolves name} + {~ resolves name}.
Proof.
  unfold resolves. destruct (Z.eq_dec (wrap32 (regbase name)) 0) as [E|E];
    [right; intros Hn; exact (Hn E) | left; exact E].
Qed.

Lemma out_emits evs w : out (emits evs w) = out w ++ evs.
Proof. reflexivity. Qed.
Lemma out_set_ib1 f w : out (set_ib1 f w) = out w.
Proof. reflexivity. Qed.
Lemma out_set_ib2 f w : out (set_ib2 f w) = out w.
Proof. reflexivity. Qed.

Lemma cp_read_reg64 w name : forallb is_cp_read (reg64_events w name) = true.
Proof. unfold reg64_events. destruct (is_64b (options w)); reflexivity. Qed.

Ltac stop_at :=
  eexists _, _; split;
  [ erewrite bind_Stop;
    [ reflexivity
    | first [ apply regval64_unresolved; assumption
            | apply regval_unresolved; assumption ] ]
  | repeat first [ rewrite out_emits | rewrite out_emit
                 | rewrite out_set_ib1 | rewrite out_set_ib2 ];
    rewrite <- ?app_assoc;
    split; [ first [ reflexivity | symmetry; apply app_nil_r ]
           | repeat first [ rewrite forallb_app | rewrite cp_read_reg64 ]; reflexivity ] ].

(** When a name that [dump_cmdstream] looks up is not in the database,
    the run ends in the assertion of [regval]/[regval64], having only
    read registers. *)
Lemma read_cp_regs_unresolved w :
  ~ Forall resolves (cp_names (options w)) ->
  exists w1 evs,
    read_cp_regs w = Stop (AssertFailed "reg") w1
    /\ out w1 = out w ++ evs
    /\ forallb is_cp_read evs = true.
Proof.
  intros Hnot. unfold read_cp_regs.
  destruct (resolves_dec "CP_RB_BASE") as [Hrb|Hrb]; [| stop_at].
  run_reg64 w Hrb. run_log.
  destruct (resolves_dec "CP_IB1_BASE") as [Hi1|Hi1]; [| stop_at].
  run_reg64 w Hi1. run_modify.
  destruct (resolves_dec "CP_IB1_REM_SIZE") as [Hr1|Hr1]; [| stop_at].
  run_reg w Hr1. run_modify.
  destruct (resolves_dec "CP_IB2_BASE") as [Hi2|Hi2]; [| stop_at].
  run_reg64 w Hi2. run_modify.
  destruct (resolves_dec "CP_IB2_REM_SIZE") as [Hr2|Hr2]; [| stop_at].
  run_reg w Hr2. run_modify. run_gets.
  match goal with
  | |- context [is_a6xx (options ?W)] =>
      change (is_a6xx (options W)) with (is_a6xx (options w))
  end.
  unfold cp_names in Hnot.
  destruct (is_a6xx (options w)) eqn:E6.
  - rewrite (bind_assoc (regval _)).
    destruct (resolves_dec "CP_CSQ_IB1_STAT") as [Hs1|Hs1]; [| stop_at].
    run_reg w Hs1. rewrite (bind_assoc (modify _)). run_modify.
    rewrite (bind_assoc (regval _)).
    destruct (resolves_dec "CP_CSQ_IB2_STAT") as [Hs2|Hs2]; [| stop_at].
    exfalso. apply Hnot. repeat (constructor; [assumption |]). constructor.
  - exfalso. apply Hnot. repeat (constructor; [assumption |]). constructor.
Qed.

End DumpCmdstream.

Section DumpCmdstreamClaims.
Context `{Cffdec}.

Lemma dump_cmdstream_final w :
  Forall resolves (cp_names (options w)) ->
  exists evs post,
    forallb is_cp_read evs = true
    /\ Forall (fun n => In (EvRegVal (wrap32 (regbase n))) evs) (cp_names (options w))
    /\ out (final (dump_cmdstream w)) = out w ++ evs ++ EvResetRegs :: post
    /\ forallb is_reconstruction post = true
    /\ (forall id pos, In (EvRingLoad id pos) post ->
          iova (ring_at id w) = regval64_in w "CP_RB_BASE")
    /\ options (final (dump_cmdstream w)) = cp_options w
    /\ (first_dump post = Some ∅
        \/ (first_dump post = None /\ regs (final (dump_cmdstream w)) = ∅)).
Proof.
  intros Hres. destruct (dump_cmdstream_run w Hres) as (evs & -> & Hcp & Hin).
  pose proof (dump_rings_recon (regval64_in w "CP_RB_BASE") (seq 0 5) (after_reset w evs))
    as (_ & _ & _ & _ & Ho & _ & post & Hout & Hrec & Hld & Hfd).
  exists evs, post. repeat split; try assumption.
  - rewrite Hout. unfold after_reset. cbn [out set_regs emit set_options emits].
    rewrite <- !app_assoc. reflexivity.
Qed.

Lemma cp_reads_quiet evs :
  forallb is_cp_read evs = true ->
  forallb (fun e => negb (is_reconstruction e)) evs = true.
Proof.
  induction evs as [|e evs IH]; [reflexivity |].
  cbn [forallb]. intros Hcp. apply andb_true_iff in Hcp as [He Hrest].
  rewrite (cp_read_not_reconstruction e He), IH by exact Hrest. reflexivity.
Qed.

(** C6 (amended). When none of the five entries of the ring table has
    the [iova] read from [CP_RB_BASE] (an entry for which no ring was
    recorded has [iova] 0 and is compared like any other),
    [dump_cmdstream] loads nothing from a ring and disassembles nothing,
    and the absence of a ring is no error: the only way the run can stop
    is the assertion on a register missing from the database, which
    precedes the search.  With the registers present the function
    returns normally, having read them and reset the tracker, and the
    line reader and the rings are as before. *)
Theorem dump_cmdstream_no_ring (w : world) :
  (forall id, (id < 5)%nat -> iova (ring_at id w) <> regval64_in w "CP_RB_BASE") ->
  (exists evs,
      out (final (dump_cmdstream w)) = out w ++ evs
      /\ forallb (fun e => negb (is_reconstruction e)) evs = true)
  /\ (stopped (dump_cmdstream w) = None
      \/ stopped (dump_cmdstream w) = Some (AssertFailed "reg"))
  /\ (Forall resolves (cp_names (options w)) ->
      exists w',
        dump_cmdstream w = Ok tt w'
        /\ regs w' = ∅
        /\ input w' = input w /\ lastline w' = lastline w
        /\ pushedline w' = pushedline w /\ ringbuffers w' = ringbuffers w).
Proof.
  intros Hno.
  assert (Hres : Forall resolves (cp_names (options w)) ->
                 exists evs,
                   dump_cmdstream w = Ok tt (after_reset w evs)
                   /\ forallb is_cp_read evs = true).
  { intros Hres. destruct (dump_cmdstream_run w Hres) as (evs & -> & Hcp & _).
    exists evs. split; [| exact Hcp].
    apply dump_rings_skip. apply Forall_forall. intros id Hid.
    change (ring_at id (after_reset w evs)) with (ring_at id w).
    apply Hno. apply list_elem_of_In, in_seq in Hid. lia. }
  destruct (Stdlib.Lists.List.Forall_dec resolves resolves_dec (cp_names (options w)))
    as [Hyes|Hnot].
  - destruct (Hres Hyes) as (evs & Hrun & Hcp). rewrite Hrun. cbn [final stopped].
    split; [| split; [left; reflexivity |]].
    + exists (evs ++ [EvResetRegs]). split.
      * unfold after_reset. cbn [out set_regs emit set_options emits].
        rewrite <- app_assoc. reflexivity.
      * rewrite forallb_app, (cp_reads_quiet evs Hcp). reflexivity.
    + intros _. exists (after_reset w evs). repeat split.
  - destruct (read_cp_regs_unresolved w Hnot) as (w1 & evs & Hstop & Hout & Hcp).
    unfold dump_cmdstream. rewrite (bind_Stop _ _ _ _ _ Hstop). cbn [final stopped].
    split; [| split; [right; reflexivity |]].
    + exists evs. split; [exact Hout | apply cp_reads_quiet, Hcp].
    + intros Hyes. contradiction.
Qed.

(** C7. In every run of [dump_cmdstream] in which the registers it
    looks up are in the database, the trace is: register reads (with the
    three [printf]s that report them), in which every name the function
    looks up is read; then the reset; then nothing but ring loads, the
    reconstruction's [printf]s and disassembly.  Rings are chosen by the
    value [CP_RB_BASE] had before the reset and [options.ibs] hold the
    values read before it; the first disassembly starts from the cleared
    register state, and without a disassembly the tracker is left clear.
    When a register is missing, the run ends in the assertion of
    [regval] while still reading: there is no reset and no ring work. *)
Theorem reset_between_reads_and_rings (w : world) :
  (Forall resolves (cp_names (options w)) ->
   exists reads post,
     out (final (dump_cmdstream w)) = out w ++ reads ++ EvResetRegs :: post
     /\ forallb is_cp_read reads = true
     /\ Forall (fun n => In (EvRegVal (wrap32 (regbase n))) reads)
               (cp_names (options w))
     /\ forallb is_reconstruction post = true
     /\ (forall id pos, In (EvRingLoad id pos) post ->
           iova (ring_at id w) = regval64_in w "CP_RB_BASE")
     /\ options (final (dump_cmdstream w)) = cp_options w
     /\ (first_dump post = Some ∅
         \/ (first_dump post = None /\ regs (final (dump_cmdstream w)) = ∅)))
  /\ (~ Forall resolves (cp_names (options w)) ->
      exists reads,
        out (final (dump_cmdstream w)) = out w ++ reads
        /\ forallb is_cp_read reads = true
        /\ stopped (dump_cmdstream w) = Some (AssertFailed "reg")).
Proof.
  split.
  - intros Hres.
    destruct (dump_cmdstream_final w Hres)
      as (evs & post & Hcp & Hin & Hout & Hrec & Hld & Ho & Hfd).
    exists evs, post. repeat split; assumption.
  - intros Hnot.
    destruct (read_cp_regs_unresolved w Hnot) as (w1 & evs & Hstop & Hout & Hcp).
    exists evs. unfold dump_cmdstream. rewrite (bind_Stop _ _ _ _ _ Hstop).
    cbn [final stopped]. split; [exact Hout |]. split; [exact Hcp | reflexivity].
Qed.

(** C9. After [dump_cmdstream], on a GPU with [600 <= gpu_id < 700] the
    remaining size of each indirect buffer is [CP_IBn_REM_SIZE] plus the
    upper sixteen bits of [CP_CSQ_IBn_STAT], the sum being taken in the
    32-bit field (so it is the plain sum whenever that fits); on every
    other GPU it is [CP_IBn_REM_SIZE]. *)
Theorem ib_rem_fixup (w : world) :
  Forall resolves (cp_names (options w)) ->
  let o := options (final (dump_cmdstream w)) in
  let g := gpu_id (options w) in
  let sum1 := regval_in w "CP_IB1_REM_SIZE" + Z.shiftr (regval_in w "CP_CSQ_IB1_STAT") 16 in
  let sum2 := regval_in w "CP_IB2_REM_SIZE" + Z.shiftr (regval_in w "CP_CSQ_IB2_STAT") 16 in
  (600 <= g < 700 ->
     ib_rem (ibs1 o) = wrap32 sum1 /\ ib_rem (ibs2 o) = wrap32 sum2
     /\ (sum1 < 2 ^ 32 -> ib_rem (ibs1 o) = sum1)
     /\ (sum2 < 2 ^ 32 -> ib_rem (ibs2 o) = sum2))
  /\ (~ 600 <= g < 700 ->
     ib_rem (ibs1 o) = regval_in w "CP_IB1_REM_SIZE"
     /\ ib_rem (ibs2 o) = regval_in w "CP_IB2_REM_SIZE").
Proof.
  intros Hres o g sum1 sum2.
  destruct (dump_cmdstream_final w Hres) as (_ & _ & _ & _ & _ & _ & _ & Ho & _).
  unfold o. rewrite Ho. unfold cp_options, cp_rem, is_a6xx. cbn [ibs1 ibs2 ib_rem].
  fold g. fold sum1. fold sum2.
  assert (Hpos : forall name, 0 <= regval_in w name < 2 ^ 32).
  { intros name. unfold regval_in, reg_read, wrap32. apply Z.mod_pos_bound. lia. }
  assert (Hs : forall a b, 0 <= regval_in w a + Z.shiftr (regval_in w b) 16).
  { intros a b. pose proof (Hpos a). pose proof (Hpos b).
    assert (0 <= Z.shiftr (regval_in w b) 16) by (apply Z.shiftr_nonneg; lia). lia. }
  split.
  - intros Hg.
    replace ((600 <=? g) && (g <? 700)) with true
      by (symmetry; apply andb_true_iff; split; [apply Z.leb_le | apply Z.ltb_lt]; lia).
    repeat split; try reflexivity; intros Hfit; apply wrap32_small;
      (split; [apply Hs | exact Hfit]).
  - intros Hg.
    replace ((600 <=? g) && (g <? 700)) with false; [split; reflexivity |].
    symmetry. apply andb_false_iff.
    destruct (Z_lt_le_dec g 600); [left; apply Z.leb_gt; lia |].
    right. apply Z.ltb_ge. lia.
Qed.

End DumpCmdstreamClaims.

(** ** The statements on concrete dumps *)

Lemma pushline_redelivers_witness :
  exists w2 w3,
    pushline (set_reader [ln "b"] (Some (ln "a")) None (Example.start 630 [ln "a"; ln "b"]))
    = Ok tt w2
    /\ popline w2 = Ok (ln "a") w3
    /\ input w3 = [ln "b"]
    /\ pushline w2 = Stop (AssertFailed "!pushedline") w2.
Proof.
  apply (pushline_redelivers (Example.start 630 [ln "a"; ln "b"])).
  - apply reader_ok_start.
  - reflexivity.
Defined.

Lemma ascii85_round_trip_witness :
  @popline_ascii85 Example.libc 4
    (Example.start 630 [encode_line 3 [0; 1; 4294967295; 3735928559]])
  = Ok [0; 1; 4294967295; 3735928559]
       (set_reader [] (Some (encode_line 3 [0; 1; 4294967295; 3735928559])) None
          (Example.start 630 [])).
Proof.
  apply (@ascii85_round_trip Example.libc [0; 1; 4294967295; 3735928559] 3).
  - repeat (constructor; [unfold is_u32; lia |]). constructor.
  - lia.
  - simpl. lia.
  - reflexivity.
Defined.

(** The claim C3 as stated fails: with room for one word and a line of
    two, the decoder goes on to the second word and stores it behind the
    buffer. *)
Lemma popline_ascii85_overrun :
  @payload_words Example.libc (skip_spaces (ln " zz")) = Some [0; 0]
  /\ calloc_words 1 = 1%nat
  /\ stopped (@popline_ascii85 Example.libc 1 Example.overlong_world)
     = Some (Undefined StorePastBuffer).
Proof. repeat split; reflexivity. Qed.

Lemma popline_ascii85_within_witness :
  @popline_ascii85 Example.libc 4 (Example.start 630 [ln "  z!!!!#"])
  = Ok ([0; 2] ++ replicate (calloc_words 4 - 2) 0)
       (set_reader [] (Some (ln "  z!!!!#")) None (Example.start 630 []))
  /\ length ([0; 2] ++ replicate (calloc_words 4 - 2) 0) = calloc_words 4
  /\ (0 <= 4 < 2 ^ 30 -> calloc_words 4 = Z.to_nat 4).
Proof.
  apply (@popline_ascii85_within Example.libc 4 (Example.start 630 [ln "  z!!!!#"])
           _ (ln "  z!!!!#") [0; 2]).
  - reflexivity.
  - reflexivity.
  - reflexivity.
  - vm_compute. lia.
Defined.

(** The claim C5 as stated fails: the second buffer of the section has
    no [size:] line, yet the section is decoded to its end without a
    parse error, and the buffer is registered with the size of the
    first. *)
Lemma decode_bos_stale_size :
  stopped (@decode_bos Example.libc Example.bos_world) = None
  /\ out (final (@decode_bos Example.libc Example.bos_world))
     = [ EvEcho (ln "  - iova: 1000"); EvEcho (ln "    size: 8");
         EvAddBuffer 4096 8 [0; 0];
         EvEcho (ln "  - iova: 2000");
         EvAddBuffer 8192 8 [0; 0] ]
  /\ pushedline (final (@decode_bos Example.libc Example.bos_world))
     = Some (ln "registers:").
Proof. repeat split; reflexivity. Qed.

Lemma cmdszdw_modular_witness :
  cmdszdw_of (Z.shiftr 1024 2) 100 140 = (140 - 100) mod Z.shiftr 1024 2
  /\ 0 <= cmdszdw_of (Z.shiftr 1024 2) 100 140 < Z.shiftr 1024 2
  /\ (140 < 100 -> cmdszdw_of (Z.shiftr 1024 2) 100 140 = Z.shiftr 1024 2 - 100 + 140)
  /\ (100 <= 140 -> cmdszdw_of (Z.shiftr 1024 2) 100 140 = 140 - 100).
Proof. apply (cmdszdw_modular 1024 100 140); vm_compute; repeat split; congruence. Defined.

(** The claim C4 as stated fails: in a ring of sixteen zero words with
    read pointer 14, on a GPU whose header test rejects the zero word,
    the twelve positions 2..13 are probed and rejected, and the search
    ends at 14, not at the last position tried. *)
Lemma header_search_past_last_probe :
  @valid_header Example.cffdec (options Example.ring_world) 0 = false
  /\ @header_search Example.cffdec 12 0 16 (mod_add 16 14 (- lookback)) Example.ring_world
     = Ok 14 (emits (map (EvRingLoad 0) [2; 3; 4; 5; 6; 7; 8; 9; 10; 11; 12; 13])
                Example.ring_world)
  /\ last [2; 3; 4; 5; 6; 7; 8; 9; 10; 11; 12; 13] = Some 13
  /\ 14 <> 13.
Proof. repeat split; try reflexivity. lia. Qed.

Lemma header_search_window_witness :
  exists final probes,
    @header_search Example.cffdec (Z.to_nat lookback) 0 (Z.shiftr 64 2)
      (mod_add (Z.shiftr 64 2) 14 (- lookback)) Example.ring_world
    = Ok final (emits (map (EvRingLoad 0) probes) Example.ring_world)
    /\ (1 <= length probes <= 12)%nat
    /\ Forall (fun pos => 0 <= pos < Z.shiftr 64 2 /\ in_window (Z.shiftr 64 2) 14 pos) probes
    /\ ((forall pos, In pos probes ->
           @valid_header Example.cffdec (options Example.ring_world)
             (word_at (replicate 16 0) pos) = false) ->
        probes = positions_from (Z.shiftr 64 2) (mod_add (Z.shiftr 64 2) 14 (- lookback)) 12
        /\ last probes = Some ((mod_add (Z.shiftr 64 2) 14 (- lookback) + 11) mod Z.shiftr 64 2)
        /\ final = ((mod_add (Z.shiftr 64 2) 14 (- lookback) + 11) mod Z.shiftr 64 2 + 1)
                   mod Z.shiftr 64 2
        /\ (lookback <= Z.shiftr 64 2 + 14 -> final = 14))
    /\ (gpu_id (options Example.ring_world) < 500 ->
        probes = [mod_add (Z.shiftr 64 2) 14 (- lookback)]
        /\ final = mod_add (Z.shiftr 64 2) 14 (- lookback)).
Proof.
  apply (@header_search_window Example.cffdec Example.ring_world 0 (replicate 16 0)).
  - vm_compute. repeat split; congruence.
  - vm_compute. reflexivity.
  - vm_compute. repeat split; congruence.
  - split; [reflexivity | vm_compute; congruence].
Defined.

Lemma dump_cmdstream_no_ring_witness :
  (exists evs,
      out (final (@dump_cmdstream Example.cffdec Example.cp_world))
      = out Example.cp_world ++ evs
      /\ forallb (fun e => negb (is_reconstruction e)) evs = true)
  /\ (stopped (@dump_cmdstream Example.cffdec Example.cp_world) = None
      \/ stopped (@dump_cmdstream Example.cffdec Example.cp_world)
         = Some (AssertFailed "reg"))
  /\ (Forall (@resolves Example.cffdec) (cp_names (options Example.cp_world)) ->
      exists w',
        @dump_cmdstream Example.cffdec Example.cp_world = Ok tt w'
        /\ regs w' = ∅
        /\ input w' = input Example.cp_world /\ lastline w' = lastline Example.cp_world
        /\ pushedline w' = pushedline Example.cp_world
        /\ ringbuffers w' = ringbuffers Example.cp_world).
Proof.
  apply (@dump_cmdstream_no_ring Example.cffdec Example.cp_world).
  intros id Hid.
  do 5 (destruct id as [|id]; [vm_compute; discriminate |]). lia.
Defined.

(** The claim C6 as stated fails: at program start no ring has been
    recorded and the tracker is empty, so [CP_RB_BASE] reads 0; entry 0
    of the table, never written, has [iova] 0 and is taken for the ring.
    The run announces it and stops in the division by its capacity of
    zero words. *)
Lemma dump_cmdstream_unrecorded_entry :
  ringbuffers (Example.start 630 []) = replicate 5 ring_zero
  /\ regs (Example.start 630 []) = ∅
  /\ Forall (@resolves Example.cffdec) (cp_names (options (Example.start 630 [])))
  /\ @regval64_in Example.cffdec (Example.start 630 []) "CP_RB_BASE" = 0
  /\ stopped (@dump_cmdstream Example.cffdec (Example.start 630 []))
     = Some (Undefined DivisionByZero)
  /\ last (out (final (@dump_cmdstream Example.cffdec (Example.start 630 []))))
     = Some (EvPrintf (ln "found ring!") []).
Proof.
  split; [reflexivity |]. split; [reflexivity |].
  split; [repeat (constructor; [vm_compute; discriminate |]); constructor |].
  repeat split; vm_compute; reflexivity.
Qed.

Lemma reset_between_reads_and_rings_witness :
  exists reads post,
    out (final (@dump_cmdstream Example.cffdec Sample.one_ring_world))
    = out Sample.one_ring_world ++ reads ++ EvResetRegs :: post
    /\ forallb is_cp_read reads = true
    /\ Forall (fun n => In (EvRegVal (wrap32 (@regbase Example.cffdec n))) reads)
              (cp_names (options Sample.one_ring_world))
    /\ forallb is_reconstruction post = true
    /\ (forall id pos, In (EvRingLoad id pos) post ->
          iova (ring_at id Sample.one_ring_world)
          = @regval64_in Example.cffdec Sample.one_ring_world "CP_RB_BASE")
    /\ options (final (@dump_cmdstream Example.cffdec Sample.one_ring_world))
       = @cp_options Example.cffdec Sample.one_ring_world
    /\ (first_dump post = Some ∅
        \/ (first_dump post = None
            /\ regs (final (@dump_cmdstream Example.cffdec Sample.one_ring_world)) = ∅)).
Proof.
  apply (proj1 (@reset_between_reads_and_rings Example.cffdec Sample.one_ring_world)).
  repeat (constructor; [vm_compute; discriminate |]). constructor.
Defined.

Lemma ib_rem_fixup_witness :
  let o := options (final (@dump_cmdstream Example.cffdec Example.cp_world)) in
  (600 <= 630 < 700 ->
     ib_rem (ibs1 o) = wrap32 (10 + Z.shiftr 327680 16)
     /\ ib_rem (ibs2 o) = wrap32 (7 + Z.shiftr 196608 16)
     /\ (10 + Z.shiftr 327680 16 < 2 ^ 32 -> ib_rem (ibs1 o) = 10 + Z.shiftr 327680 16)
     /\ (7 + Z.shiftr 196608 16 < 2 ^ 32 -> ib_rem (ibs2 o) = 7 + Z.shiftr 196608 16))
  /\ (~ 600 <= 630 < 700 -> ib_rem (ibs1 o) = 10 /\ ib_rem (ibs2 o) = 7).
Proof.
  apply (@ib_rem_fixup Example.cffdec Example.cp_world).
  repeat (constructor; [vm_compute; discriminate |]). constructor.
Defined.

Lemma regval64_value_witness :
  exists w',
    @regval64 Example.cffdec "CP_RB_BASE" Example.cp_world
    = Ok (if 500 <=? gpu_id (options Example.cp_world)
          then Z.lor (reg_read Example.cp_world 2048)
                     (Z.shiftl (reg_read Example.cp_world (wrap32 (2048 + 1))) 32)
          else reg_read Example.cp_world 2048) w'
    /\ regs w' = regs Example.cp_world /\ options w' = options Example.cp_world
    /\ 0 <= reg_read Example.cp_world 2048 < 2 ^ 32.
Proof.
  apply (@regval64_value Example.cffdec "CP_RB_BASE" Example.cp_world 2048).
  - reflexivity.
  - lia.
Defined.

(** Outside the ring the [unsigned] sum of [mod_add] can wrap: a read
    pointer of [2^32 - 1] in a ring of a hundred words is backed up to
    87, whereas twelve before it modulo the capacity is 83. *)
Example mod_add_wraps_outside_ring :
  mod_add 100 4294967295 (- lookback) = 87
  /\ (4294967295 - lookback) mod 100 = 83.
Proof. split; reflexivity. Qed.

(** * Further properties *)

(** ** The line reader as a queue *)

(** X1. The reader delivers the pending lines (a pushed-back line, then
    the input) one at a time and in order: with a line pending,
    [popline] returns it and leaves the others pending; with nothing
    pending the program exits with status 0.  Pushing back after a read
    restores the pending lines exactly.  Conversely, a line that
    [popline] returns was the first pending line. *)
Theorem reader_is_a_queue (w : world) :
  reader_ok w ->
  (pending w = [] -> popline w = Stop Exit0 w)
  /\ (forall l ls, pending w = l :: ls ->
        exists w1,
          popline w = Ok l w1 /\ pending w1 = ls /\ reader_ok w1
          /\ exists w2, pushline w1 = Ok tt w2 /\ pending w2 = l :: ls /\ reader_ok w2)
  /\ (forall l w1, popline w = Ok l w1 ->
        pending w = l :: pending w1 /\ reader_ok w1
        /\ exists w2, pushline w1 = Ok tt w2 /\ pending w2 = pending w /\ reader_ok w2).
Proof.
  intros Hok.
  assert (Hret : forall l w1, popline w = Ok l w1 ->
            pending w = l :: pending w1 /\ reader_ok w1
            /\ exists w2, pushline w1 = Ok tt w2 /\ pending w2 = pending w /\ reader_ok w2).
  { intros l w1 Hpop.
    destruct (popline_pending _ _ _ Hpop) as [Hpend _].
    destruct (popline_lastline _ _ _ Hok Hpop) as [Hlast Hpush].
    split; [exact Hpend |]. split; [eapply reader_ok_popline; eassumption |].
    exists (set_pushedline (lastline w1) w1). unfold pushline. rewrite Hpush.
    split; [reflexivity |]. split.
    + rewrite Hpend. unfold pending at 1. cbn [pushedline set_pushedline set_reader input].
      rewrite Hlast. unfold pending. rewrite Hpush. reflexivity.
    + intros p Hp. cbn in Hp |- *. congruence. }
  split; [| split; [| exact Hret]].
  - unfold pending, popline. destruct (pushedline w); [discriminate |].
    cbn [app]. intros ->. reflexivity.
  - intros l ls Hpend.
    assert (Hpop : exists w1, popline w = Ok l w1 /\ pending w1 = ls).
    { revert Hpend. unfold pending, popline.
      destruct (pushedline w) as [p|] eqn:E; cbn [app]; intros Hp.
      - inversion Hp; subst. eexists. split; [reflexivity |].
        cbn [pushedline set_pushedline set_reader input app]. reflexivity.
      - rewrite Hp. eexists. split; [reflexivity |].
        cbn [pushedline set_reader input app]. reflexivity. }
    destruct Hpop as (w1 & Hpop & Hp1).
    destruct (Hret l w1 Hpop) as (_ & Hok1 & w2 & Hpush & Hp2 & Hok2).
    exists w1. split; [exact Hpop |]. split; [exact Hp1 |]. split; [exact Hok1 |].
    exists w2. split; [exact Hpush |]. split; [congruence | exact Hok2].
Qed.

(** ** Formats and prefixes *)

Lemma expected_conversions_count fmt : forall i n l,
  l <= i -> expected_conversions fmt i n l = n + count_percent fmt.
Proof.
  induction fmt as [|c fmt IH]; intros i n l Hl; cbn [expected_conversions count_percent].
  - lia.
  - destruct (c =? "%")%char.
    + destruct (i =? l - 1) eqn:E; [apply Z.eqb_eq in E; lia |].
      rewrite IH by lia. lia.
    + rewrite IH by lia. lia.
Qed.

(** X2. [parseline] expects one conversion for every [%] of the format
    (the branch meant for [%%] is never taken, so each [%] of a [%%]
    counts as well).  It returns the scanned values when [vsscanf]
    reports exactly that many, and otherwise stops with the parse error
    naming the format; the state is left as it was. *)
Theorem parseline_outcome `{Libc} (line fmt : string) (w : world) :
  parseline line fmt w
  = if scanned (vsscanf line fmt) =? count_percent fmt
    then Ok (default [] (vsscanf line fmt)) w
    else Stop (ParseError fmt) w.
Proof.
  unfold parseline. rewrite expected_conversions_count by lia. rewrite Z.add_0_l.
  destruct (scanned (vsscanf line fmt) =? count_percent fmt); reflexivity.
Qed.

Lemma parseline_run `{Libc} (line fmt : string) :
  parseline line fmt
  = fun w => if scanned (vsscanf line fmt) =? count_percent fmt
             then Ok (default [] (vsscanf line fmt)) w
             else Stop (ParseError fmt) w.
Proof.
  unfold parseline. rewrite expected_conversions_count by lia. rewrite Z.add_0_l.
  destruct (scanned (vsscanf line fmt) =? count_percent fmt); reflexivity.
Qed.

Lemma startswith_cons c line d start :
  startswith (String c line) (String d start)
  = (if Ascii.ascii_dec d c then startswith line start else false).
Proof. unfold startswith. cbn [String.prefix]. reflexivity. Qed.

Lemma startswith_prefix (line start : string) :
  startswith line start = true -> exists rest, line = start +:+ rest.
Proof.
  revert line. induction start as [|d start IH]; intros line.
  - intros _. exists line. reflexivity.
  - destruct line as [|c line]; [discriminate |].
    rewrite startswith_cons. destruct (Ascii.ascii_dec d c) as [->|Hne]; [| discriminate].
    intros Hp. destruct (IH _ Hp) as [rest ->]. exists rest. reflexivity.
Qed.

(** X3. [startswith line start] holds exactly when [line] is [start]
    followed by something. *)
Theorem startswith_iff (line start : string) :
  startswith line start = true <-> exists rest, line = start +:+ rest.
Proof.
  split; [apply startswith_prefix |].
  intros [rest ->]. induction start as [|d start IH].
  - destruct rest; reflexivity.
  - cbn [String.append]. rewrite startswith_cons.
    destruct (Ascii.ascii_dec d d) as [_|Hne]; [exact IH | contradiction].
Qed.

(** ** ascii85: when decoding succeeds, and when it overruns *)

Section Ascii85More.
Context `{Libc}.

Lemma wrap32_range x : is_u32 (wrap32 x).
Proof. unfold is_u32, wrap32. apply Z.mod_pos_bound. lia. Qed.

Lemma group_u32 n : forall line accum a rest,
  is_u32 accum ->
  ascii85_group n line accum = Some (a, rest) -> is_u32 a.
Proof.
  induction n as [|n IH]; intros line accum a rest Ha Hg.
  - inversion Hg; subst. exact Ha.
  - destruct line as [|c r].
    + destruct n; [| discriminate Hg]. inversion Hg; subst. apply wrap32_range.
    + rewrite group_cons in Hg. destruct (c =? LF)%char.
      * inversion Hg; subst. exact Ha.
      * eapply IH; [| exact Hg]. apply wrap32_range.
Qed.

Lemma group_newline n : forall line accum a rest,
  ascii85_group n line accum = Some (a, Some rest) ->
  In LF (chars rest) -> In LF (chars line).
Proof.
  induction n as [|n IH]; intros line accum a rest Hg Hin.
  - inversion Hg; subst. exact Hin.
  - destruct line as [|c r]; [destruct n; discriminate Hg |].
    rewrite group_cons in Hg. destruct (c =? LF)%char.
    + inversion Hg; subst. exact Hin.
    + right. eapply IH; eassumption.
Qed.

(** The words of a payload are 32-bit values, and a payload has a
    newline. *)
Lemma ascii85_words_facts fuel : forall line ws,
  ascii85_words fuel line = Some ws ->
  Forall is_u32 ws /\ In LF (chars line).
Proof.
  induction fuel as [|fuel IH]; intros line ws Hw; [discriminate |].
  cbn [ascii85_words] in Hw. destruct line as [|c r]; [discriminate |].
  destruct (c =? LF)%char eqn:E1.
  { inversion Hw; subst. apply Ascii.eqb_eq in E1. subst.
    split; [constructor | left; reflexivity]. }
  destruct (c =? "z")%char.
  - destruct (ascii85_words fuel r) as [ws'|] eqn:Ew; [| discriminate].
    cbn in Hw. inversion Hw; subst. destruct (IH _ _ Ew) as [Hu Hin].
    split; [constructor; [unfold is_u32; lia | exact Hu] | right; exact Hin].
  - destruct (ascii85_group 5 (String c r) 0) as [[a [rest|]]|] eqn:Eg; try discriminate.
    destruct (ascii85_words fuel rest) as [ws'|] eqn:Ew; [| discriminate].
    cbn in Hw. inversion Hw; subst. destruct (IH _ _ Ew) as [Hu Hin].
    split.
    + constructor; [| exact Hu]. eapply group_u32; [| exact Eg]. unfold is_u32. lia.
    + eapply group_newline; eassumption.
Qed.

(** Whatever the loop returns is the payload's words written from [idx]
    on; it returns only when they fit. *)
Lemma ascii85_loop_inr fuel : forall line pre k b,
  ascii85_loop fuel line (length pre) (pre ++ replicate k 0) = inr b ->
  exists ws, ascii85_words fuel line = Some ws /\ (length ws <= k)%nat
             /\ b = pre ++ ws ++ replicate (k - length ws) 0.
Proof.
  induction fuel as [|fuel IH]; intros line pre k b Hl; [discriminate |].
  cbn [ascii85_loop] in Hl. cbn [ascii85_words].
  destruct line as [|c r].
  { cbn [deref] in Hl.
    change (Ascii.zero =? LF)%char with false in Hl.
    change (Ascii.zero =? "z")%char with false in Hl. cbv iota in Hl.
    change (ascii85_group 5 EmptyString 0) with (@None (Z * option string)) in Hl.
    discriminate Hl. }
  cbn [deref] in Hl.
  destruct (c =? LF)%char eqn:E1.
  { inversion Hl; subst. exists []. split; [reflexivity |]. split; [simpl; lia |].
    simpl. now rewrite Nat.sub_0_r. }
  assert (Hstore : forall v rest' b',
    match store (pre ++ replicate k 0) (length pre) v with
    | inr buf' => ascii85_loop fuel rest' (S (length pre)) buf'
    | inl why => inl why
    end = inr b' ->
    exists ws, ascii85_words fuel rest' = Some ws /\ (S (length ws) <= k)%nat
               /\ b' = pre ++ (v :: ws) ++ replicate (k - S (length ws)) 0).
  { intros v rest' b' Hs. destruct k as [|k].
    - unfold store in Hs. rewrite app_nil_r, Nat.ltb_irrefl in Hs. discriminate Hs.
    - rewrite store_next in Hs.
      replace (S (length pre)) with (length (pre ++ [v])) in Hs
        by (rewrite length_app; simpl; lia).
      apply IH in Hs as (ws & Hw & Hk & ->).
      exists ws. split; [exact Hw |]. split; [lia |].
      rewrite <- app_assoc. reflexivity. }
  destruct (c =? "z")%char.
  - apply Hstore in Hl as (ws & Hw & Hk & ->). rewrite Hw.
    exists (0 :: ws). split; [reflexivity |]. split; [simpl; lia | reflexivity].
  - destruct (ascii85_group 5 (String c r) 0) as [[a [rest|]]|] eqn:Eg.
    + apply Hstore in Hl as (ws & Hw & Hk & ->). rewrite Hw.
      exists (a :: ws). split; [reflexivity |]. split; [simpl; lia | reflexivity].
    + destruct (store (pre ++ replicate k 0) (length pre) a); discriminate Hl.
    + discriminate Hl.
Qed.

(** With more words in the payload than in the buffer, the loop stores
    behind the buffer. *)
Lemma ascii85_loop_overrun fuel : forall line ws pre k,
  ascii85_words fuel line = Some ws ->
  (k < length ws)%nat ->
  ascii85_loop fuel line (length pre) (pre ++ replicate k 0)
  = inl (Undefined StorePastBuffer).
Proof.
  induction fuel as [|fuel IH]; intros line ws pre k Hw Hk; [discriminate |].
  cbn [ascii85_words] in Hw. destruct line as [|c r]; [discriminate |].
  cbn [ascii85_loop deref].
  destruct (c =? LF)%char eqn:E1; [inversion Hw; subst; simpl in Hk; lia |].
  assert (Hstore : forall v rest' ws',
    ascii85_words fuel rest' = Some ws' -> (k < S (length ws'))%nat ->
    match store (pre ++ replicate k 0) (length pre) v with
    | inr buf' => ascii85_loop fuel rest' (S (length pre)) buf'
    | inl why => inl why
    end = inl (Undefined StorePastBuffer)).
  { intros v rest' ws' Hw' Hk'. destruct k as [|k].
    - unfold store. rewrite app_nil_r, Nat.ltb_irrefl. reflexivity.
    - rewrite store_next.
      replace (S (length pre)) with (length (pre ++ [v]))
        by (rewrite length_app; simpl; lia).
      apply (IH rest' ws'); [exact Hw' | lia]. }
  destruct (c =? "z")%char.
  - destruct (ascii85_words fuel r) as [ws'|] eqn:Ew; [| discriminate].
    cbn in Hw. inversion Hw; subst. apply (Hstore 0 r ws' Ew). simpl in Hk. lia.
  - destruct (ascii85_group 5 (String c r) 0) as [[a [rest|]]|] eqn:Eg; try discriminate.
    destruct (ascii85_words fuel rest) as [ws'|] eqn:Ew; [| discriminate].
    cbn in Hw. inversion Hw; subst. apply (Hstore a rest ws' Ew). simpl in Hk. lia.
Qed.

(** X4. Whenever [popline_ascii85 N] returns a buffer, it has consumed
    exactly one line; that line begins with a space and has a newline,
    its payload holds no more words than the buffer, and the buffer is
    these words, each a 32-bit value, followed by zeros up to the
    [calloc]ed length. *)
Theorem popline_ascii85_success (N : Z) (w w' : world) (b : list Z) :
  popline_ascii85 N w = Ok b w' ->
  exists line ws,
    popline w = Ok line w'
    /\ pending w = line :: pending w'
    /\ (deref line =? " ")%char = true
    /\ In LF (chars line)
    /\ payload_words (skip_spaces line) = Some ws
    /\ (length ws <= calloc_words N)%nat
    /\ Forall is_u32 ws
    /\ b = ws ++ replicate (calloc_words N - length ws) 0
    /\ length b = calloc_words N.
Proof.
  intros Hrun.
  destruct (popline w) as [line w1|why w1] eqn:Hpop.
  2:{ unfold popline_ascii85, bind in Hrun. rewrite Hpop in Hrun. discriminate Hrun. }
  rewrite (popline_ascii85_line N w w1 line Hpop) in Hrun.
  destruct (deref line =? " ")%char eqn:Hind; [| discriminate Hrun].
  destruct (ascii85_loop _ _ _ _) as [why|b'] eqn:Hl; [discriminate Hrun |].
  inversion Hrun; subst b' w1.
  apply (ascii85_loop_inr _ _ []) in Hl as (ws & Hw & Hk & Hb).
  destruct (ascii85_words_facts _ _ _ Hw) as [Hu Hin].
  exists line, ws. split; [reflexivity |].
  split; [apply (popline_pending _ _ _ Hpop) |].
  split; [exact Hind |]. split.
  { clear -Hin. induction line as [|c r IH]; [exact Hin |].
    cbn [skip_spaces] in Hin. destruct (c =? " ")%char; [right; apply IH, Hin | exact Hin]. }
  split; [exact Hw |]. split; [exact Hk |]. split; [exact Hu |].
  split; [exact Hb |].
  rewrite Hb. cbn [app]. rewrite length_app, length_replicate. lia.
Qed.

(** X5. A payload with more words than the buffer has room for makes
    [popline_ascii85] store behind the end of the buffer: nothing stops
    the decoder at [N] words. *)
Theorem popline_ascii85_overflow (N : Z) (w w1 : world) (line : string) (ws : list Z) :
  popline w = Ok line w1 ->
  (deref line =? " ")%char = true ->
  payload_words (skip_spaces line) = Some ws ->
  (calloc_words N < length ws)%nat ->
  popline_ascii85 N w = Stop (Undefined StorePastBuffer) w1.
Proof.
  intros Hpop Hind Hws Hbig.
  rewrite (popline_ascii85_line N w w1 line Hpop), Hind.
  unfold payload_words in Hws.
  pose proof (ascii85_loop_overrun _ _ _ [] _ Hws Hbig) as Hl.
  cbn [app length] in Hl. rewrite Hl. reflexivity.
Qed.

End Ascii85More.

(** ** Sections: echo, end of section, end of input *)

Lemma popline_pushline_pending w l w1 :
  reader_ok w -> popline w = Ok l w1 ->
  exists w2, pushline w1 = Ok tt w2 /\ pending w2 = pending w /\ reader_ok w2
             /\ out w2 = out w /\ ringbuffers w2 = ringbuffers w1.
Proof.
  intros Hok Hpop.
  destruct (popline_pending _ _ _ Hpop) as [Hpend Hout].
  destruct (popline_lastline _ _ _ Hok Hpop) as [Hlast Hpush].
  exists (set_pushedline (lastline w1) w1). unfold pushline. rewrite Hpush.
  split; [reflexivity |]. split; [| split; [| split; [exact Hout | reflexivity]]].
  - rewrite Hpend. unfold pending at 1. cbn [pushedline set_pushedline set_reader input].
    rewrite Hlast. unfold pending. rewrite Hpush. reflexivity.
  - intros p Hp. cbn in Hp |- *. congruence.
Qed.

Lemma popline_of_pending w l ls :
  pending w = l :: ls -> exists w1, popline w = Ok l w1 /\ pending w1 = ls.
Proof.
  unfold pending, popline. destruct (pushedline w) as [p|] eqn:E; cbn [app]; intros Hp.
  - inversion Hp; subst. eexists. split; [reflexivity |].
    cbn [pushedline set_pushedline set_reader input app]. reflexivity.
  - rewrite Hp. eexists. split; [reflexivity |].
    cbn [pushedline set_reader input app]. reflexivity.
Qed.

Lemma popline_of_nothing w : pending w = [] -> popline w = Stop Exit0 w.
Proof.
  unfold pending, popline. destruct (pushedline w); [discriminate |].
  cbn [app]. intros ->. reflexivity.
Qed.

Section SectionScan.
Context `{Libc}.

Lemma bos_step_end fuel sz io w line w1 :
  popline w = Ok line w1 -> indented line = false ->
  decode_bos_loop (S fuel) sz io w = pushline w1.
Proof.
  intros Hpop Hind. cbn [decode_bos_loop]. rewrite (bind_Ok _ _ _ _ _ Hpop).
  fold (indented line). rewrite Hind. reflexivity.
Qed.

Lemma bos_step_echo fuel sz io w line w1 :
  popline w = Ok line w1 -> bos_passthrough line = true ->
  decode_bos_loop (S fuel) sz io w
  = decode_bos_loop fuel sz io (emit (EvEcho line) w1).
Proof.
  intros Hpop Hpass. unfold bos_passthrough in Hpass.
  apply andb_true_iff in Hpass as [Hpass Hd]. apply andb_true_iff in Hpass as [Hpass Hs].
  apply andb_true_iff in Hpass as [Hind Hi].
  apply negb_true_iff in Hd, Hs, Hi.
  cbn [decode_bos_loop]. rewrite (bind_Ok _ _ _ _ _ Hpop).
  fold (indented line). rewrite Hind, Hi, Hs, Hd. cbn [negb].
  unfold printf_line. erewrite bind_Ok by apply log_run. reflexivity.
Qed.

(** A run of pass-through lines is echoed line by line. *)
Lemma bos_echo_prefix body : forall fuel sz io w tl,
  pending w = body ++ tl ->
  Forall (fun l => bos_passthrough l = true) body ->
  reader_ok w ->
  exists w1,
    decode_bos_loop (length body + fuel) sz io w = decode_bos_loop fuel sz io w1
    /\ pending w1 = tl /\ reader_ok w1
    /\ out w1 = out w ++ map EvEcho body
    /\ ringbuffers w1 = ringbuffers w /\ regs w1 = regs w /\ options w1 = options w.
Proof.
  induction body as [|l body IH]; intros fuel sz io w tl Hpend Hall Hok.
  - exists w. cbn [length Nat.add map]. rewrite app_nil_r. repeat split; assumption.
  - inversion Hall as [|? ? Hl Hrest]; subst.
    destruct (popline_of_pending w l (body ++ tl) Hpend) as (w1 & Hpop & Hpend1).
    cbn [length Nat.add]. rewrite (bos_step_echo _ _ _ _ _ _ Hpop Hl).
    assert (Hframe : ringbuffers w1 = ringbuffers w /\ regs w1 = regs w
                     /\ options w1 = options w).
    { clear -Hpop. unfold popline in Hpop. destruct (pushedline w).
      - inversion Hpop; subst. repeat split.
      - destruct (input w); inversion Hpop; subst. repeat split. }
    destruct (IH fuel sz io (emit (EvEcho l) w1) tl) as (w2 & Hrun & Hp2 & Hok2 & Hout2 & Hr2 & Hg2 & Ho2).
    + exact Hpend1.
    + exact Hrest.
    + apply (reader_ok_popline _ _ _ Hok) in Hpop. exact Hpop.
    + exists w2. split; [exact Hrun |]. split; [exact Hp2 |]. split; [exact Hok2 |].
      destruct (popline_pending _ _ _ Hpop) as [_ Hout1].
      destruct Hframe as (Hf1 & Hf2 & Hf3).
      cbn [ringbuffers regs options emit] in Hr2, Hg2, Ho2.
      split; [| repeat split; congruence].
      rewrite Hout2, out_emit, Hout1. cbn [map]. rewrite <- app_assoc. reflexivity.
Qed.

(** X6. A section of lines that [decode_bos] does not interpret
    (indented, none of its keys) is echoed verbatim and in order; the
    first line that does not begin with a space ends the section, is
    pushed back and is the next line read.  A section without lines
    echoes nothing. *)
Theorem decode_bos_echoes (w : world) (body rest : list string) (next : string) :
  reader_ok w ->
  pending w = body ++ next :: rest ->
  Forall (fun l => bos_passthrough l = true) body ->
  indented next = false ->
  exists w',
    decode_bos w = Ok tt w'
    /\ out w' = out w ++ map EvEcho body
    /\ pending w' = next :: rest
    /\ (exists w'', popline w' = Ok next w'')
    /\ ringbuffers w' = ringbuffers w /\ regs w' = regs w.
Proof.
  intros Hok Hpend Hall Hnext.
  unfold decode_bos. rewrite Hpend, length_app. cbn [length].
  replace (S (length body + S (length rest)))%nat
    with (length body + S (S (length rest)))%nat by lia.
  destruct (bos_echo_prefix body (S (S (length rest))) 0 0 w (next :: rest) Hpend Hall Hok)
    as (w1 & -> & Hp1 & Hok1 & Hout1 & Hr1 & Hg1 & _).
  destruct (popline_of_pending w1 next rest Hp1) as (w2 & Hpop & Hp2).
  rewrite (bos_step_end _ _ _ _ _ _ Hpop Hnext).
  destruct (popline_pushline_pending _ _ _ Hok1 Hpop) as (w3 & Hpush & Hp3 & Hok3 & Hout3 & Hr3).
  assert (Hframe : ringbuffers w2 = ringbuffers w1 /\ regs w2 = regs w1).
  { clear -Hpop. unfold popline in Hpop. destruct (pushedline w1).
    - inversion Hpop; subst. repeat split.
    - destruct (input w1); inversion Hpop; subst. repeat split. }
  assert (Hregs3 : regs w3 = regs w2).
  { clear -Hpush. unfold pushline in Hpush. destruct (pushedline w2); inversion Hpush.
    reflexivity. }
  exists w3. split; [exact Hpush |]. split; [congruence |]. split; [congruence |].
  split; [| split; [destruct Hframe; congruence | destruct Hframe; congruence]].
  rewrite Hp1 in Hp3.
  destruct (popline_of_pending w3 next rest) as (w4 & Hpop4 & _); [congruence |].
  exists w4. exact Hpop4.
Qed.

(** X7. When the input ends inside the section, [decode_bos] does not
    return: after echoing the lines the program exits with status 0. *)
Theorem decode_bos_end_of_input (w : world) :
  reader_ok w ->
  Forall (fun l => bos_passthrough l = true) (pending w) ->
  exists w',
    decode_bos w = Stop Exit0 w'
    /\ out w' = out w ++ map EvEcho (pending w)
    /\ pending w' = [].
Proof.
  intros Hok Hall.
  unfold decode_bos.
  replace (S (length (pending w))) with (length (pending w) + 1)%nat by lia.
  destruct (bos_echo_prefix (pending w) 1 0 0 w [] ltac:(now rewrite app_nil_r) Hall Hok)
    as (w1 & -> & Hp1 & _ & Hout1 & _).
  exists w1. split; [| split; assumption].
  cbn [decode_bos_loop]. erewrite bind_Stop by (apply popline_of_nothing, Hp1). reflexivity.
Qed.

End SectionScan.

(** ** A well-formed [bos] entry *)

Section BosEntry.
Context `{Libc}.

Lemma popline_frame w l w1 :
  popline w = Ok l w1 ->
  out w1 = out w /\ verbose w1 = verbose w /\ ringbuffers w1 = ringbuffers w
  /\ regs w1 = regs w /\ options w1 = options w.
Proof.
  unfold popline. destruct (pushedline w).
  - intros Hp. inversion Hp; subst. repeat split.
  - destruct (input w); intros Hp; inversion Hp; subst. repeat split.
Qed.

Lemma reader_ok_emit e w : reader_ok w -> reader_ok (emit e w).
Proof. intros Hok. exact Hok. Qed.

Lemma bos_step_iova fuel sz io w line w1 a :
  popline w = Ok line w1 ->
  startswith line "  - iova:" = true ->
  vsscanf line fmt_iova = Some [a] ->
  decode_bos_loop (S fuel) sz io w
  = decode_bos_loop fuel sz (wrap64 a) (emit (EvEcho line) w1).
Proof.
  intros Hpop Hkey Hscan.
  assert (Hind : indented line = true).
  { apply startswith_prefix in Hkey as [r ->]. reflexivity. }
  cbn [decode_bos_loop]. rewrite (bind_Ok _ _ _ _ _ Hpop).
  fold (indented line). rewrite Hind, Hkey. cbn [negb].
  erewrite bind_Ok by (apply parseline_ok; unfold scans; rewrite Hscan; reflexivity).
  rewrite Hscan. unfold printf_line.
  erewrite bind_Ok by apply log_run. reflexivity.
Qed.

Lemma bos_step_size fuel sz io w line w1 s :
  popline w = Ok line w1 ->
  startswith line "    size:" = true ->
  vsscanf line fmt_size = Some [s] ->
  decode_bos_loop (S fuel) sz io w
  = decode_bos_loop fuel (wrap32 s) io (emit (EvEcho line) w1).
Proof.
  intros Hpop Hkey Hscan.
  assert (Hind : indented line = true /\ startswith line "  - iova:" = false).
  { apply startswith_prefix in Hkey as [r ->]. split; reflexivity. }
  destruct Hind as [Hind Hi].
  cbn [decode_bos_loop]. rewrite (bind_Ok _ _ _ _ _ Hpop).
  fold (indented line). rewrite Hind, Hi, Hkey. cbn [negb].
  erewrite bind_Ok by (apply parseline_ok; unfold scans; rewrite Hscan; reflexivity).
  rewrite Hscan. unfold printf_line.
  erewrite bind_Ok by apply log_run. reflexivity.
Qed.

Lemma bos_step_data fuel sz io w line w1 b w2 :
  popline w = Ok line w1 ->
  startswith line "    data: !!ascii85 |" = true ->
  popline_ascii85 (sz / 4) w1 = Ok b w2 ->
  decode_bos_loop (S fuel) sz io w
  = decode_bos_loop fuel sz io
      (emit (EvAddBuffer io sz b)
            (if verbose w2 then emit (EvDumpHexAscii b sz 1) w2 else w2)).
Proof.
  intros Hpop Hkey Hdec.
  assert (Hind : indented line = true /\ startswith line "  - iova:" = false
                 /\ startswith line "    size:" = false).
  { apply startswith_prefix in Hkey as [r ->]. repeat split; reflexivity. }
  destruct Hind as (Hind & Hi & Hs).
  cbn [decode_bos_loop]. rewrite (bind_Ok _ _ _ _ _ Hpop).
  fold (indented line). rewrite Hind, Hi, Hs, Hkey. cbn [negb].
  rewrite (bind_Ok _ _ _ _ _ Hdec).
  erewrite bind_Ok by apply gets_run.
  unfold dump_hex_ascii, add_buffer.
  destruct (verbose w2).
  - erewrite bind_Ok by apply log_run. erewrite bind_Ok by apply log_run. reflexivity.
  - erewrite bind_Ok by (unfold ret; reflexivity).
    erewrite bind_Ok by apply log_run. reflexivity.
Qed.

Lemma popline_ascii85_encoded N ws indent w w1 :
  Forall is_u32 ws -> (0 < indent)%nat ->
  calloc_words N = length ws ->
  popline w = Ok (encode_line indent ws) w1 ->
  popline_ascii85 N w = Ok ws w1.
Proof.
  intros Hall Hind Hcap Hpop.
  assert (Hskip : skip_spaces (encode_line indent ws) = ln (encode_words ws)).
  { apply skip_spaces_indent, encoded_no_indent, Hall. }
  rewrite (popline_ascii85_payload _ w w1 _ ws Hpop).
  - rewrite Hcap, Nat.sub_diag. simpl. now rewrite app_nil_r.
  - destruct indent; [lia | reflexivity].
  - rewrite Hskip. unfold payload_words. apply words_of_encoding; [exact Hall | lia].
  - lia.
Qed.

(** X8. A well-formed entry of a [bos] section (an [iova:] line, a
    [size:] line giving four bytes per word, the [data:] marker and the
    encoded payload) registers one buffer with that address and size and
    exactly the encoded words; the two field lines are echoed, the
    marker and the payload are not, and the buffer is hex-dumped first
    when [verbose] is set. *)
Theorem decode_bos_entry (w : world) (l_iova l_size l_data next : string)
    (a : Z) (ws : list Z) (indent : nat) (rest : list string) :
  reader_ok w ->
  pending w = l_iova :: l_size :: l_data :: encode_line indent ws :: next :: rest ->
  startswith l_iova "  - iova:" = true -> vsscanf l_iova fmt_iova = Some [a] ->
  startswith l_size "    size:" = true ->
  vsscanf l_size fmt_size = Some [4 * Z.of_nat (length ws)] ->
  startswith l_data "    data: !!ascii85 |" = true ->
  Forall is_u32 ws -> (0 < indent)%nat -> Z.of_nat (length ws) < 2 ^ 30 ->
  0 <= a < 2 ^ 64 ->
  indented next = false ->
  exists w',
    decode_bos w = Ok tt w'
    /\ out w' = out w ++ [EvEcho l_iova; EvEcho l_size]
                 ++ (if verbose w
                     then [EvDumpHexAscii ws (4 * Z.of_nat (length ws)) 1] else [])
                 ++ [EvAddBuffer a (4 * Z.of_nat (length ws)) ws]
    /\ pending w' = next :: rest.
Proof.
  intros Hok Hpend Hki Hsi Hks Hss Hkd Hall Hind Hlen Ha Hnext.
  set (n := Z.of_nat (length ws)) in *.
  unfold decode_bos. rewrite Hpend. cbn [length].
  destruct (popline_of_pending _ _ _ Hpend) as (w1 & Hpop1 & Hp1).
  rewrite (bos_step_iova _ _ _ _ _ _ _ Hpop1 Hki Hsi).
  destruct (popline_of_pending (emit (EvEcho l_iova) w1) _ _ Hp1) as (w2 & Hpop2 & Hp2).
  rewrite (bos_step_size _ _ _ _ _ _ _ Hpop2 Hks Hss).
  destruct (popline_of_pending (emit (EvEcho l_size) w2) _ _ Hp2) as (w3 & Hpop3 & Hp3).
  destruct (popline_of_pending w3 _ _ Hp3) as (w4 & Hpop4 & Hp4).
  assert (Hsz : wrap32 (4 * n) = 4 * n) by (apply wrap32_small; lia).
  assert (Hdec : popline_ascii85 (wrap32 (4 * n) / 4) w3 = Ok ws w4).
  { apply popline_ascii85_encoded with (indent := indent); try assumption.
    rewrite Hsz. replace (4 * n / 4) with n by (symmetry; rewrite Z.mul_comm; apply Z.div_mul; lia).
    rewrite calloc_words_small by lia. apply Nat2Z.id. }
  rewrite (bos_step_data _ _ _ _ _ _ _ _ Hpop3 Hkd Hdec).
  set (w5 := emit (EvAddBuffer (wrap64 a) (wrap32 (4 * n)) ws)
               (if verbose w4 then emit (EvDumpHexAscii ws (wrap32 (4 * n)) 1) w4 else w4)).
  assert (Hok1 : reader_ok w1) by (eapply reader_ok_popline; eassumption).
  assert (Hok2 : reader_ok w2) by (eapply reader_ok_popline; [| exact Hpop2]; exact Hok1).
  assert (Hok3 : reader_ok w3) by (eapply reader_ok_popline; [| exact Hpop3]; exact Hok2).
  assert (Hok4 : reader_ok w4) by (eapply reader_ok_popline; eassumption).
  assert (Hw5 : pending w5 = next :: rest /\ reader_ok w5).
  { unfold w5. destruct (verbose w4); split; assumption. }
  destruct Hw5 as [Hp5 Hok5].
  destruct (popline_of_pending w5 _ _ Hp5) as (w6 & Hpop6 & Hp6).
  rewrite (bos_step_end _ _ _ _ _ _ Hpop6 Hnext).
  destruct (popline_pushline_pending _ _ _ Hok5 Hpop6) as (w7 & Hpush & Hp7 & _ & Hout7 & _).
  exists w7. split; [exact Hpush |]. split; [| congruence].
  destruct (popline_frame _ _ _ Hpop1) as (Ho1 & Hv1 & _).
  destruct (popline_frame _ _ _ Hpop2) as (Ho2 & Hv2 & _).
  destruct (popline_frame _ _ _ Hpop3) as (Ho3 & Hv3 & _).
  destruct (popline_frame _ _ _ Hpop4) as (Ho4 & Hv4 & _).
  cbn [out verbose emit] in Ho2, Hv2, Ho3, Hv3.
  assert (Hv : verbose w4 = verbose w) by congruence.
  rewrite Hout7. unfold w5. rewrite Hsz.
  unfold wrap64. rewrite (Z.mod_small a) by lia.
  rewrite Hv. destruct (verbose w);
    cbn [out emit]; rewrite Ho4, Ho3, Ho2, Ho1, <- !app_assoc; reflexivity.
Qed.

End BosEntry.

(** ** The [bos] section item by item *)

Section BosClaim.
Context `{Libc}.

Lemma size_after_app pre items s :
  size_after (pre ++ items) s = size_after items (size_after pre s).
Proof.
  revert s. induction pre as [|it pre IH]; intros s; [reflexivity |].
  destruct it; cbn [app size_after]; apply IH.
Qed.

Lemma iova_after_app pre items a :
  iova_after (pre ++ items) a = iova_after items (iova_after pre a).
Proof.
  revert a. induction pre as [|it pre IH]; intros a; [reflexivity |].
  destruct it; cbn [app iova_after]; apply IH.
Qed.

Lemma bos_events_app v items1 : forall pre items2,
  bos_events v pre (items1 ++ items2)
  = bos_events v pre items1 ++ bos_events v (pre ++ items1) items2.
Proof.
  induction items1 as [|it items1 IH]; intros pre items2.
  - cbn [app bos_events]. now rewrite app_nil_r.
  - cbn [app bos_events]. rewrite IH, <- !app_assoc. reflexivity.
Qed.

(** The loop over the lines of [items], started with the values that
    [pre] has left in [size] and [iova]; [k] iterations are left over,
    one for every payload line. *)
Lemma bos_items_run items : forall pre fuel w tl,
  reader_ok w ->
  pending w = bos_section_lines items ++ tl ->
  Forall bos_item_ok items ->
  bos_fit pre items ->
  exists w1 k,
    decode_bos_loop (length (bos_section_lines items) + fuel)
      (size_after pre 0) (iova_after pre 0) w
    = decode_bos_loop (k + fuel) (size_after (pre ++ items) 0)
        (iova_after (pre ++ items) 0) w1
    /\ pending w1 = tl /\ reader_ok w1
    /\ out w1 = out w ++ bos_events (verbose w) pre items
    /\ verbose w1 = verbose w.
Proof.
  induction items as [|it items IH]; intros pre fuel w tl Hok Hpend Hall Hfit.
  - exists w, 0%nat. rewrite !app_nil_r. cbn. repeat split; try assumption.
  - apply Forall_cons in Hall as [Hit Hall]. destruct Hfit as [Hfit1 Hfit].
    assert (Hgo : forall w1 fuel1 sz io,
      reader_ok w1 -> pending w1 = bos_section_lines items ++ tl ->
      out w1 = out w ++ bos_item_events (verbose w) pre it ->
      verbose w1 = verbose w ->
      sz = size_after (pre ++ [it]) 0 -> io = iova_after (pre ++ [it]) 0 ->
      (fuel <= fuel1)%nat ->
      exists w2 k,
        decode_bos_loop (length (bos_section_lines items) + fuel1) sz io w1
        = decode_bos_loop (k + fuel) (size_after (pre ++ it :: items) 0)
            (iova_after (pre ++ it :: items) 0) w2
        /\ pending w2 = tl /\ reader_ok w2
        /\ out w2 = out w ++ bos_events (verbose w) pre (it :: items)
        /\ verbose w2 = verbose w).
    { intros w1 fuel1 sz io Hok1 Hp1 Ho1 Hv1 -> -> Hle.
      destruct (IH (pre ++ [it]) fuel1 w1 tl Hok1 Hp1 Hall Hfit)
        as (w2 & k & Hrun & Hp2 & Hok2 & Ho2 & Hv2).
      exists w2, (k + (fuel1 - fuel))%nat. rewrite <- app_assoc in Hrun. cbn [app] in Hrun.
      replace (k + (fuel1 - fuel) + fuel)%nat with (k + fuel1)%nat by lia.
      split; [exact Hrun |]. split; [exact Hp2 |]. split; [exact Hok2 |].
      split; [| congruence].
      rewrite Ho2, Ho1, Hv1. cbn [bos_events]. now rewrite <- app_assoc. }
    destruct it as [l a|l s|m p ws|l]; cbn [bos_item_ok] in Hit;
      unfold bos_section_lines in Hpend |- *; cbn [map concat bos_item_lines app length] in *;
      fold (bos_section_lines items) in *.
    + destruct Hit as [Hkey Hscan].
      destruct (popline_of_pending _ _ _ Hpend) as (w1 & Hpop & Hp1).
      destruct (popline_frame _ _ _ Hpop) as (Ho1 & Hv1 & _).
      cbn [Nat.add]. rewrite (bos_step_iova _ _ _ _ _ _ _ Hpop Hkey Hscan).
      apply Hgo.
      * apply reader_ok_emit. eapply reader_ok_popline; eassumption.
      * exact Hp1.
      * rewrite out_emit, Ho1. reflexivity.
      * exact Hv1.
      * rewrite size_after_app. reflexivity.
      * rewrite iova_after_app. reflexivity.
      * lia.
    + destruct Hit as [Hkey Hscan].
      destruct (popline_of_pending _ _ _ Hpend) as (w1 & Hpop & Hp1).
      destruct (popline_frame _ _ _ Hpop) as (Ho1 & Hv1 & _).
      cbn [Nat.add]. rewrite (bos_step_size _ _ _ _ _ _ _ Hpop Hkey Hscan).
      apply Hgo.
      * apply reader_ok_emit. eapply reader_ok_popline; eassumption.
      * exact Hp1.
      * rewrite out_emit, Ho1. reflexivity.
      * exact Hv1.
      * rewrite size_after_app. reflexivity.
      * rewrite iova_after_app. reflexivity.
      * lia.
    + destruct Hit as (Hkey & Hind & Hws).
      destruct (popline_of_pending _ _ _ Hpend) as (w1 & Hpop & Hp1).
      destruct (popline_of_pending _ _ _ Hp1) as (w2 & Hpop2 & Hp2).
      destruct (popline_frame _ _ _ Hpop) as (Ho1 & Hv1 & _).
      destruct (popline_frame _ _ _ Hpop2) as (Ho2 & Hv2 & _).
      pose proof (popline_ascii85_payload (size_after pre 0 / 4) w1 w2 p ws
                    Hpop2 Hind Hws Hfit1) as Hdec.
      fold (padded ws (size_after pre 0)) in Hdec.
      cbn [Nat.add]. rewrite (bos_step_data _ _ _ _ _ _ _ _ Hpop Hkey Hdec).
      assert (Hok2 : reader_ok w2).
      { eapply reader_ok_popline; [| exact Hpop2]. eapply reader_ok_popline; eassumption. }
      assert (Hv : verbose w2 = verbose w) by congruence.
      rewrite Hv.
      replace (S (length (bos_section_lines items) + fuel))
        with (length (bos_section_lines items) + S fuel)%nat by lia.
      apply Hgo.
      * destruct (verbose w); exact Hok2.
      * destruct (verbose w); exact Hp2.
      * cbn [bos_item_events]. destruct (verbose w);
          cbn [out emit app]; rewrite Ho2, Ho1, <- ?app_assoc; reflexivity.
      * destruct (verbose w); cbn [verbose emit]; exact Hv.
      * rewrite size_after_app. reflexivity.
      * rewrite iova_after_app. reflexivity.
      * lia.
    + destruct (popline_of_pending _ _ _ Hpend) as (w1 & Hpop & Hp1).
      destruct (popline_frame _ _ _ Hpop) as (Ho1 & Hv1 & _).
      cbn [Nat.add]. rewrite (bos_step_echo _ _ _ _ _ _ Hpop Hit).
      apply Hgo.
      * apply reader_ok_emit. eapply reader_ok_popline; eassumption.
      * exact Hp1.
      * rewrite out_emit, Ho1. reflexivity.
      * exact Hv1.
      * rewrite size_after_app. reflexivity.
      * rewrite iova_after_app. reflexivity.
      * lia.
Qed.

(** C5 (amended).  [decode_bos] does not notice a missing [size:] line.
    First, in any section whose [iova:] and [size:] lines match their
    patterns it raises no parse error, and a buffer it registers has a
    size that is 0 or the number of a [size:] line of the section; with
    no [size:] line at all, size 0 and no words.  Second, for a section
    read as a list of items (field lines, plain lines, and [data:]
    markers each with its payload line) whose payloads hold no more words
    than [size / 4] allows, the run is known exactly: it returns
    normally at the next section header, every field and plain line is
    echoed, and every payload is registered once, padded with zeros to
    [size / 4] words, under the address and the size the variables
    [iova] and [size] hold at that point: the numbers of the latest
    [iova:] and [size:] lines before it in the section (those of an
    earlier entry when the entry has none), or 0 when there is none. *)
Theorem decode_bos_missing_size (w : world) :
  (Forall (fun l => field_ok l = true) (section_body (pending w)) ->
   (forall fmt, stopped (decode_bos w) <> Some (ParseError fmt))
   /\ stopped (decode_bos w) <> Some OutOfFuel
   /\ exists evs,
        out (final (decode_bos w)) = out w ++ evs
        /\ Forall (registered (size_source (section_body (pending w)))) evs
        /\ (Forall (fun l => is_size_line l = false) (section_body (pending w)) ->
            forall a s b, In (EvAddBuffer a s b) evs -> s = 0 /\ b = []))
  /\ (forall (items : list bos_item) (next : string) (rest : list string),
      reader_ok w ->
      pending w = bos_section_lines items ++ next :: rest ->
      Forall bos_item_ok items ->
      bos_fit [] items ->
      indented next = false ->
      exists w',
        decode_bos w = Ok tt w'
        /\ out w' = out w ++ bos_events (verbose w) [] items
        /\ pending w' = next :: rest
        /\ (forall pre m p ws post,
              items = pre ++ BData m p ws :: post ->
              In (EvAddBuffer (iova_after pre 0) (size_after pre 0)
                              (padded ws (size_after pre 0)))
                 (bos_events (verbose w) [] items))).
Proof.
  split.
  - intros Hok.
    destruct (decode_bos_loop_inv (size_source (section_body (pending w)))
                (S (length (pending w))) 0 0 w) as (Hp & Hf & evs & Hout & Hreg).
    + lia.
    + exact Hok.
    + left. reflexivity.
    + intros l Hl Hs. right. exists l. repeat split; assumption.
    + split; [exact Hp |]. split; [exact Hf |]. exists evs.
      split; [exact Hout |]. split; [exact Hreg |].
      intros Hnone a s b Hin.
      rewrite Forall_forall in Hreg. apply list_elem_of_In in Hin.
      specialize (Hreg _ Hin). destruct Hreg as [[->|(l & Hl & Hs & _)] Hlen].
      * split; [reflexivity |]. destruct b; [reflexivity | discriminate Hlen].
      * rewrite Forall_forall in Hnone. apply list_elem_of_In in Hl.
        rewrite (Hnone _ Hl) in Hs. discriminate Hs.
  - intros items next rest Hok Hpend Hall Hfit Hnext.
    unfold decode_bos. rewrite Hpend, length_app. cbn [length].
    replace (S (length (bos_section_lines items) + S (length rest)))%nat
      with (length (bos_section_lines items) + S (S (length rest)))%nat by lia.
    destruct (bos_items_run items [] (S (S (length rest))) w (next :: rest)
                Hok Hpend Hall Hfit) as (w1 & k & Hrun & Hp1 & Hok1 & Ho1 & _).
    cbn [size_after iova_after] in Hrun. rewrite Hrun.
    replace (k + S (S (length rest)))%nat with (S (k + S (length rest))) by lia.
    destruct (popline_of_pending w1 next rest Hp1) as (w2 & Hpop & Hp2).
    rewrite (bos_step_end _ _ _ _ _ _ Hpop Hnext).
    destruct (popline_pushline_pending _ _ _ Hok1 Hpop) as (w3 & Hpush & Hp3 & _ & Ho3 & _).
    exists w3. split; [exact Hpush |]. split; [congruence |]. split; [congruence |].
    intros pre m p ws post ->.
    rewrite bos_events_app. cbn [app bos_events bos_item_events].
    apply in_or_app. right. apply in_or_app. left. apply in_or_app. right.
    left. reflexivity.
Qed.

End BosClaim.

Lemma decode_bos_missing_size_witness :
  exists w',
    @decode_bos Example.libc Example.bos_world = Ok tt w'
    /\ out w' = out Example.bos_world ++ bos_events (verbose Example.bos_world) [] Sample.bos_items
    /\ pending w' = [ln "registers:"]
    /\ (forall pre m p ws post,
          Sample.bos_items = pre ++ BData m p ws :: post ->
          In (EvAddBuffer (iova_after pre 0) (size_after pre 0)
                          (padded ws (size_after pre 0)))
             (bos_events (verbose Example.bos_world) [] Sample.bos_items)).
Proof.
  apply (proj2 (@decode_bos_missing_size Example.libc Example.bos_world)
           Sample.bos_items (ln "registers:") []).
  - apply reader_ok_start.
  - reflexivity.
  - repeat (constructor; [cbn; repeat split; reflexivity |]). constructor.
  - cbn. repeat split; vm_compute; lia.
  - reflexivity.
Defined.

(** ** The [ringbuffer] section *)

Lemma ring_at_store_same id f w : ring_at id (ring_store id f w) = f (ring_at id w).
Proof.
  unfold ring_at at 1, ring_store. cbn [ringbuffers set_ringbuffers].
  rewrite nth_lookup, list_lookup_insert_eq; [reflexivity |].
  rewrite length_app, length_replicate. lia.
Qed.

Lemma ring_at_store_other id j f w : j <> id -> ring_at j (ring_store id f w) = ring_at j w.
Proof.
  intros Hne. unfold ring_at, ring_store. cbn [ringbuffers set_ringbuffers].
  rewrite !nth_lookup, list_lookup_insert_ne by congruence.
  destruct (Nat.lt_ge_cases j (length (ringbuffers w))) as [Hlt|Hge].
  - rewrite lookup_app_l by exact Hlt. reflexivity.
  - rewrite lookup_app_r by exact Hge.
    rewrite (lookup_ge_None_2 (ringbuffers w) j) by exact Hge.
    destruct (replicate _ ring_zero !! (j - length (ringbuffers w))%nat) as [x|] eqn:E;
      [| reflexivity].
    apply lookup_replicate in E as [-> _]. reflexivity.
Qed.

Lemma ring_store_length id f w :
  length (ringbuffers (ring_store id f w)) = Nat.max (length (ringbuffers w)) (S id).
Proof.
  unfold ring_store. cbn [ringbuffers set_ringbuffers].
  rewrite length_insert, length_app, length_replicate. lia.
Qed.

Lemma pending_ring_store id f w : pending (ring_store id f w) = pending w.
Proof. reflexivity. Qed.

Lemma reader_ok_ring_store id f w : reader_ok w -> reader_ok (ring_store id f w).
Proof. intros Hok. exact Hok. Qed.

Lemma out_ring_store id f w : out (ring_store id f w) = out w.
Proof. reflexivity. Qed.

Lemma to_int_range x : - 2 ^ 31 <= to_int x < 2 ^ 31.
Proof.
  unfold to_int. pose proof (wrap32_range x) as Hx. unfold is_u32 in Hx.
  destruct (wrap32 x <? 2 ^ 31) eqn:E; [apply Z.ltb_lt in E | apply Z.ltb_ge in E]; lia.
Qed.

Lemma id_in_table_iff id :
  - 2 ^ 63 <= id < 2 ^ 63 -> (id_in_table id = true <-> 0 <= id < 5).
Proof.
  intros Hid. unfold id_in_table, wrap64. rewrite Z.ltb_lt.
  destruct (Z_lt_le_dec id 0) as [Hneg|Hpos].
  - replace (id mod 2 ^ 64) with (id + 2 ^ 64)
      by (apply Z.mod_unique with (q := -1); lia). lia.
  - rewrite Z.mod_small by lia. lia.
Qed.

Section RingSectionFacts.
Context `{Libc}.

(** [popline_ascii85] ends in the state left by its [popline], and never
    because of the model's recursion bound. *)
Lemma popline_ascii85_final N w :
  (final (popline_ascii85 N w) = w /\ popline w = Stop Exit0 w
   /\ popline_ascii85 N w = Stop Exit0 w
   \/ exists l, popline w = Ok l (final (popline_ascii85 N w)))
  /\ stopped (popline_ascii85 N w) <> Some OutOfFuel.
Proof.
  destruct (popline w) as [l w1|why w1] eqn:Hpop.
  - rewrite (popline_ascii85_line N w w1 l Hpop).
    destruct (deref l =? " ")%char.
    + destruct (ascii85_loop _ _ _ _) as [why|b] eqn:Hl; cbn [final stopped].
      * split; [right; exists l; reflexivity |]. intros E. inversion E; subst.
        revert Hl. apply ascii85_loop_fuel. lia.
      * split; [right; exists l; reflexivity | discriminate].
    + cbn [final stopped]. split; [right; exists l; reflexivity | discriminate].
  - apply popline_stop in Hpop as Hs. destruct Hs as [-> ->].
    unfold popline_ascii85, bind. rewrite Hpop. cbn [final stopped].
    split; [left; repeat split | discriminate].
Qed.

End RingSectionFacts.

Section RingRecord.
Context `{Libc}.

Ltac key_facts Hkey :=
  let r := fresh "r" in
  apply startswith_prefix in Hkey as [r ->]; repeat split; reflexivity.

Lemma rb_step_end fuel id w line w1 :
  popline w = Ok line w1 -> (deref line =? " ")%char = false ->
  decode_ringbuffer_loop (S fuel) id w = pushline w1.
Proof.
  intros Hpop Hind. cbn [decode_ringbuffer_loop]. rewrite (bind_Ok _ _ _ _ _ Hpop).
  rewrite Hind. reflexivity.
Qed.

Lemma rb_step_id fuel id w line w1 v :
  popline w = Ok line w1 ->
  startswith line "  - id:" = true ->
  vsscanf line fmt_id = Some [v] ->
  decode_ringbuffer_loop (S fuel) id w
  = if id_in_table (to_int v)
    then decode_ringbuffer_loop fuel (to_int v) (emit (EvEcho line) w1)
    else Stop (AssertFailed "id < ARRAY_SIZE(ringbuffers)") w1.
Proof.
  intros Hpop Hkey Hscan.
  assert (Hind : (deref line =? " ")%char = true) by key_facts Hkey.
  cbn [decode_ringbuffer_loop]. rewrite (bind_Ok _ _ _ _ _ Hpop).
  rewrite Hind, Hkey. cbn [negb].
  erewrite bind_Ok by (apply parseline_ok; unfold scans; rewrite Hscan; reflexivity).
  rewrite Hscan. change (default [] (Some [v])) with [v]. cbn [nth]. cbv zeta.
  unfold assert.
  destruct (id_in_table (to_int v)).
  - erewrite bind_Ok by (unfold ret; reflexivity). unfold printf_line.
    erewrite bind_Ok by apply log_run. reflexivity.
  - erewrite bind_Stop by reflexivity. reflexivity.
Qed.

Lemma rb_step_iova fuel id w line w1 a :
  popline w = Ok line w1 ->
  startswith line "    iova:" = true ->
  vsscanf line fmt_rb_iova = Some [a] ->
  decode_ringbuffer_loop (S fuel) id w
  = decode_ringbuffer_loop fuel id
      (emit (EvEcho line) (ring_store (Z.to_nat id) (with_iova (wrap64 a)) w1)).
Proof.
  intros Hpop Hkey Hscan.
  assert (Hind : (deref line =? " ")%char = true /\ startswith line "  - id:" = false)
    by key_facts Hkey.
  destruct Hind as (Hind & H0).
  cbn [decode_ringbuffer_loop]. rewrite (bind_Ok _ _ _ _ _ Hpop).
  rewrite Hind, H0, Hkey. cbn [negb].
  erewrite bind_Ok by (apply parseline_ok; unfold scans; rewrite Hscan; reflexivity).
  rewrite Hscan. cbn [default nth].
  erewrite bind_Ok by apply gets_run. erewrite bind_Ok by apply modify_run.
  unfold printf_line. erewrite bind_Ok by apply log_run. reflexivity.
Qed.

Lemma rb_step_rptr fuel id w line w1 v :
  popline w = Ok line w1 ->
  startswith line "    rptr:" = true ->
  vsscanf line fmt_rptr = Some [v] ->
  decode_ringbuffer_loop (S fuel) id w
  = decode_ringbuffer_loop fuel id
      (emit (EvEcho line) (ring_store (Z.to_nat id) (with_rptr (wrap32 v)) w1)).
Proof.
  intros Hpop Hkey Hscan.
  assert (Hind : (deref line =? " ")%char = true /\ startswith line "  - id:" = false
                 /\ startswith line "    iova:" = false) by key_facts Hkey.
  destruct Hind as (Hind & H0 & H1).
  cbn [decode_ringbuffer_loop]. rewrite (bind_Ok _ _ _ _ _ Hpop).
  rewrite Hind, H0, H1, Hkey. cbn [negb].
  erewrite bind_Ok by (apply parseline_ok; unfold scans; rewrite Hscan; reflexivity).
  rewrite Hscan. cbn [default nth].
  erewrite bind_Ok by apply gets_run. erewrite bind_Ok by apply modify_run.
  unfold printf_line. erewrite bind_Ok by apply log_run. reflexivity.
Qed.

Lemma rb_step_wptr fuel id w line w1 v :
  popline w = Ok line w1 ->
  startswith line "    wptr:" = true ->
  vsscanf line fmt_wptr = Some [v] ->
  decode_ringbuffer_loop (S fuel) id w
  = decode_ringbuffer_loop fuel id
      (emit (EvEcho line) (ring_store (Z.to_nat id) (with_wptr (wrap32 v)) w1)).
Proof.
  intros Hpop Hkey Hscan.
  assert (Hind : (deref line =? " ")%char = true /\ startswith line "  - id:" = false
                 /\ startswith line "    iova:" = false
                 /\ startswith line "    rptr:" = false) by key_facts Hkey.
  destruct Hind as (Hind & H0 & H1 & H2).
  cbn [decode_ringbuffer_loop]. rewrite (bind_Ok _ _ _ _ _ Hpop).
  rewrite Hind, H0, H1, H2, Hkey. cbn [negb].
  erewrite bind_Ok by (apply parseline_ok; unfold scans; rewrite Hscan; reflexivity).
  rewrite Hscan. cbn [default nth].
  erewrite bind_Ok by apply gets_run. erewrite bind_Ok by apply modify_run.
  unfold printf_line. erewrite bind_Ok by apply log_run. reflexivity.
Qed.

Lemma rb_step_size fuel id w line w1 v :
  popline w = Ok line w1 ->
  startswith line "    size:" = true ->
  vsscanf line fmt_rb_size = Some [v] ->
  decode_ringbuffer_loop (S fuel) id w
  = decode_ringbuffer_loop fuel id
      (emit (EvEcho line) (ring_store (Z.to_nat id) (with_size (wrap32 v)) w1)).
Proof.
  intros Hpop Hkey Hscan.
  assert (Hind : (deref line =? " ")%char = true /\ startswith line "  - id:" = false
                 /\ startswith line "    iova:" = false
                 /\ startswith line "    rptr:" = false
                 /\ startswith line "    wptr:" = false) by key_facts Hkey.
  destruct Hind as (Hind & H0 & H1 & H2 & H3).
  cbn [decode_ringbuffer_loop]. rewrite (bind_Ok _ _ _ _ _ Hpop).
  rewrite Hind, H0, H1, H2, H3, Hkey. cbn [negb].
  erewrite bind_Ok by (apply parseline_ok; unfold scans; rewrite Hscan; reflexivity).
  rewrite Hscan. cbn [default nth].
  erewrite bind_Ok by apply gets_run. erewrite bind_Ok by apply modify_run.
  unfold printf_line. erewrite bind_Ok by apply log_run. reflexivity.
Qed.

Lemma rb_step_data fuel id w line w1 b w2 :
  popline w = Ok line w1 ->
  startswith line "    data: !!ascii85 |" = true ->
  popline_ascii85 (size (ring_at (Z.to_nat id) w1) / 4) w1 = Ok b w2 ->
  decode_ringbuffer_loop (S fuel) id w
  = decode_ringbuffer_loop fuel id
      (emit (EvAddBuffer (iova (ring_at (Z.to_nat id) w2))
                         (size (ring_at (Z.to_nat id) w2)) b)
            (ring_store (Z.to_nat id) (with_buf b) w2)).
Proof.
  intros Hpop Hkey Hdec.
  assert (Hind : (deref line =? " ")%char = true /\ startswith line "  - id:" = false
                 /\ startswith line "    iova:" = false
                 /\ startswith line "    rptr:" = false
                 /\ startswith line "    wptr:" = false
                 /\ startswith line "    size:" = false) by key_facts Hkey.
  destruct Hind as (Hind & H0 & H1 & H2 & H3 & H4).
  cbn [decode_ringbuffer_loop]. rewrite (bind_Ok _ _ _ _ _ Hpop).
  rewrite Hind, H0, H1, H2, H3, H4, Hkey. cbn [negb].
  erewrite bind_Ok by apply gets_run.
  rewrite (bind_Ok _ _ _ _ _ Hdec).
  erewrite bind_Ok by apply modify_run. erewrite bind_Ok by apply gets_run.
  unfold add_buffer. erewrite bind_Ok by apply log_run.
  rewrite ring_at_store_same. reflexivity.
Qed.

(** X10. An [id:] line naming a ring outside the table of five stops the
    run at the assertion: the line is not echoed and no ring is written. *)
Theorem decode_ringbuffer_bad_id (w : world) (line : string) (rest : list string) (v : Z) :
  pending w = line :: rest ->
  startswith line "  - id:" = true ->
  vsscanf line fmt_id = Some [v] ->
  ~ 0 <= to_int v < 5 ->
  exists w',
    decode_ringbuffer w = Stop (AssertFailed "id < ARRAY_SIZE(ringbuffers)") w'
    /\ out w' = out w /\ ringbuffers w' = ringbuffers w /\ pending w' = rest.
Proof.
  intros Hpend Hkey Hscan Hbad.
  destruct (popline_of_pending _ _ _ Hpend) as (w1 & Hpop & Hp1).
  destruct (popline_frame _ _ _ Hpop) as (Ho & _ & Hrb & _).
  unfold decode_ringbuffer. rewrite Hpend. cbn [length].
  rewrite (rb_step_id _ _ _ _ _ _ Hpop Hkey Hscan).
  destruct (id_in_table (to_int v)) eqn:Et.
  - apply id_in_table_iff in Et; [contradiction |].
    pose proof (to_int_range v). lia.
  - exists w1. repeat split; assumption.
Qed.

Lemma ring_state_start w k : reader_ok w -> ring_state w k w (pending w) [] (ring_at k w).
Proof.
  intros Hok. unfold ring_state. rewrite app_nil_r.
  split; [reflexivity |]. split; [exact Hok |]. repeat split.
Qed.

Lemma ring_state_pop w0 k w l ls evs rb :
  ring_state w0 k w (l :: ls) evs rb ->
  exists w1, popline w = Ok l w1 /\ ring_state w0 k w1 ls evs rb.
Proof.
  intros (Hp & Hok & Ho & Hr & Hf).
  destruct (popline_of_pending _ _ _ Hp) as (w1 & Hpop & Hp1).
  destruct (popline_frame _ _ _ Hpop) as (Ho1 & _ & Hrb & _).
  exists w1. split; [exact Hpop |]. unfold ring_state, ring_at in *.
  rewrite Hrb, Ho1. repeat split; try assumption.
  eapply reader_ok_popline; eassumption.
Qed.

Lemma ring_state_emit w0 k w ls evs rb e :
  ring_state w0 k w ls evs rb -> ring_state w0 k (emit e w) ls (evs ++ [e]) rb.
Proof.
  intros (Hp & Hok & Ho & Hr & Hf). unfold ring_state.
  rewrite pending_emit, out_emit, Ho, app_assoc. repeat split; assumption.
Qed.

Lemma ring_state_store w0 k w ls evs rb f :
  ring_state w0 k w ls evs rb -> ring_state w0 k (ring_store k f w) ls evs (f rb).
Proof.
  intros (Hp & Hok & Ho & Hr & Hf). unfold ring_state.
  rewrite pending_ring_store, out_ring_store, ring_at_store_same, Hr.
  repeat split; try assumption.
  intros j Hj. rewrite ring_at_store_other by exact Hj. apply Hf, Hj.
Qed.

(** X11. A complete ring record: after the [id:] line, the [iova:],
    [rptr:], [wptr:] and [size:] lines and the encoded [data:] payload,
    the named ring holds exactly those fields and the decoded words, the
    other rings are untouched, the five field lines are echoed and the
    buffer is registered once under the ring's address and size.  The
    ring then has the backing store that the command-stream search reads
    ([size >> 2] words). *)
Theorem decode_ringbuffer_record (w : world)
    (l_id l_iova l_rptr l_wptr l_size l_data next : string)
    (k a r p : Z) (ws : list Z) (indent : nat) (rest : list string) :
  reader_ok w ->
  pending w = l_id :: l_iova :: l_rptr :: l_wptr :: l_size :: l_data
              :: encode_line indent ws :: next :: rest ->
  startswith l_id "  - id:" = true -> vsscanf l_id fmt_id = Some [k] ->
  startswith l_iova "    iova:" = true -> vsscanf l_iova fmt_rb_iova = Some [a] ->
  startswith l_rptr "    rptr:" = true -> vsscanf l_rptr fmt_rptr = Some [r] ->
  startswith l_wptr "    wptr:" = true -> vsscanf l_wptr fmt_wptr = Some [p] ->
  startswith l_size "    size:" = true ->
  vsscanf l_size fmt_rb_size = Some [4 * Z.of_nat (length ws)] ->
  startswith l_data "    data: !!ascii85 |" = true ->
  0 <= k < 5 -> 0 <= a < 2 ^ 64 -> 0 <= r < 2 ^ 32 -> 0 <= p < 2 ^ 32 ->
  Forall is_u32 ws -> (0 < indent)%nat -> Z.of_nat (length ws) < 2 ^ 29 ->
  (deref next =? " ")%char = false ->
  exists w',
    decode_ringbuffer w = Ok tt w'
    /\ ring_at (Z.to_nat k) w' = mk_ring a r p (4 * Z.of_nat (length ws)) (Some ws)
    /\ (forall j, j <> Z.to_nat k -> ring_at j w' = ring_at j w)
    /\ out w' = out w ++ [EvEcho l_id; EvEcho l_iova; EvEcho l_rptr; EvEcho l_wptr;
                          EvEcho l_size;
                          EvAddBuffer a (4 * Z.of_nat (length ws)) ws]
    /\ pending w' = next :: rest
    /\ ring_backed w' (Z.to_nat k) (Z.shiftr (4 * Z.of_nat (length ws)) 2) ws.
Proof.
  intros Hok Hpend Hk0 Hs0 Hk1 Hs1 Hk2 Hs2 Hk3 Hs3 Hk4 Hs4 Hk5
         Hk Ha Hr Hp Hall Hind Hlen Hnext.
  set (n := Z.of_nat (length ws)) in *.
  set (K := Z.to_nat k).
  assert (Hti : to_int k = k) by (apply to_int_small; lia).
  assert (Htab : id_in_table k = true) by (apply id_in_table_iff; lia).
  pose proof (ring_state_start w K Hok) as S0. rewrite Hpend in S0.
  unfold decode_ringbuffer. rewrite Hpend. cbn [length].
  destruct (ring_state_pop _ _ _ _ _ _ _ S0) as (w1 & Hpop1 & S1).
  rewrite (rb_step_id _ _ _ _ _ _ Hpop1 Hk0 Hs0), Hti, Htab.
  apply (ring_state_emit _ _ _ _ _ _ (EvEcho l_id)) in S1.
  destruct (ring_state_pop _ _ _ _ _ _ _ S1) as (w2 & Hpop2 & S2).
  rewrite (rb_step_iova _ _ _ _ _ _ Hpop2 Hk1 Hs1). fold K.
  apply (ring_state_store _ _ _ _ _ _ (with_iova (wrap64 a))) in S2.
  apply (ring_state_emit _ _ _ _ _ _ (EvEcho l_iova)) in S2.
  destruct (ring_state_pop _ _ _ _ _ _ _ S2) as (w3 & Hpop3 & S3).
  rewrite (rb_step_rptr _ _ _ _ _ _ Hpop3 Hk2 Hs2). fold K.
  apply (ring_state_store _ _ _ _ _ _ (with_rptr (wrap32 r))) in S3.
  apply (ring_state_emit _ _ _ _ _ _ (EvEcho l_rptr)) in S3.
  destruct (ring_state_pop _ _ _ _ _ _ _ S3) as (w4 & Hpop4 & S4).
  rewrite (rb_step_wptr _ _ _ _ _ _ Hpop4 Hk3 Hs3). fold K.
  apply (ring_state_store _ _ _ _ _ _ (with_wptr (wrap32 p))) in S4.
  apply (ring_state_emit _ _ _ _ _ _ (EvEcho l_wptr)) in S4.
  destruct (ring_state_pop _ _ _ _ _ _ _ S4) as (w5 & Hpop5 & S5).
  rewrite (rb_step_size _ _ _ _ _ _ Hpop5 Hk4 Hs4). fold K.
  apply (ring_state_store _ _ _ _ _ _ (with_size (wrap32 (4 * n)))) in S5.
  apply (ring_state_emit _ _ _ _ _ _ (EvEcho l_size)) in S5.
  destruct (ring_state_pop _ _ _ _ _ _ _ S5) as (w6 & Hpop6 & S6).
  destruct (ring_state_pop _ _ _ _ _ _ _ S6) as (w7 & Hpop7 & S7).
  assert (Hsz : wrap32 (4 * n) = 4 * n) by (apply wrap32_small; lia).
  assert (Hsize6 : size (ring_at K w6) = 4 * n).
  { destruct S6 as (_ & _ & _ & -> & _). cbn. exact Hsz. }
  assert (Hdec : popline_ascii85 (size (ring_at K w6) / 4) w6 = Ok ws w7).
  { apply popline_ascii85_encoded with (indent := indent); try assumption.
    rewrite Hsize6.
    replace (4 * n / 4) with n by (symmetry; rewrite Z.mul_comm; apply Z.div_mul; lia).
    rewrite calloc_words_small by lia. apply Nat2Z.id. }
  rewrite (rb_step_data _ _ _ _ _ _ _ Hpop6 Hk5 Hdec). fold K.
  assert (Hrb7 : ring_at K w7 = mk_ring a r p (4 * n) (buf (ring_at K w))).
  { destruct S7 as (_ & _ & _ & -> & _). cbn.
    rewrite Hsz, !wrap32_small by lia. unfold wrap64. rewrite Z.mod_small by lia.
    reflexivity. }
  apply (ring_state_store _ _ _ _ _ _ (with_buf ws)) in S7.
  apply (ring_state_emit _ _ _ _ _ _
           (EvAddBuffer (iova (ring_at K w7)) (size (ring_at K w7)) ws)) in S7.
  destruct (ring_state_pop _ _ _ _ _ _ _ S7) as (w8 & Hpop8 & S8).
  rewrite (rb_step_end _ _ _ _ _ Hpop8 Hnext).
  destruct S7 as (Hp7 & Hok7 & _).
  destruct (popline_pushline_pending _ _ _ Hok7 Hpop8)
    as (w9 & Hpush & Hp9 & _ & Hout9 & Hrb9).
  destruct S8 as (_ & _ & Ho8 & Hr8 & Hf8).
  destruct (popline_frame _ _ _ Hpop8) as (Ho78 & _).
  assert (Hat : forall j, ring_at j w9 = ring_at j w8)
    by (intros j; unfold ring_at; rewrite Hrb9; reflexivity).
  assert (Hring : ring_at K w9 = mk_ring a r p (4 * n) (Some ws)).
  { rewrite Hat, Hr8. cbn.
    rewrite Hsz, !wrap32_small by lia. unfold wrap64. rewrite Z.mod_small by lia.
    reflexivity. }
  exists w9. split; [exact Hpush |]. split; [exact Hring |].
  split; [intros j Hj; rewrite Hat; apply Hf8, Hj |].
  split.
  { rewrite Hout9, <- Ho78, Ho8, Hrb7. cbn [iova size]. rewrite <- !app_assoc. reflexivity. }
  split; [congruence |].
  unfold ring_backed. rewrite Hring. cbn [buf]. split; [reflexivity |].
  rewrite Z.shiftr_div_pow2 by lia. change (2 ^ 2) with 4.
  replace (4 * n / 4) with n by (symmetry; rewrite Z.mul_comm; apply Z.div_mul; lia).
  unfold n. lia.
Qed.

End RingRecord.

(** ** The [ringbuffer] section item by item *)

Section RingItems.
Context `{Libc}.

Lemma rb_step_plain fuel id w line w1 :
  popline w = Ok line w1 -> ring_passthrough line = true ->
  decode_ringbuffer_loop (S fuel) id w
  = decode_ringbuffer_loop fuel id (emit (EvEcho line) w1).
Proof.
  intros Hpop Hpass. unfold ring_passthrough in Hpass.
  repeat (apply andb_true_iff in Hpass as [Hpass ?]).
  repeat match goal with
         | E : negb _ = true |- _ => apply negb_true_iff in E
         end.
  unfold indented in Hpass.
  cbn [decode_ringbuffer_loop]. rewrite (bind_Ok _ _ _ _ _ Hpop).
  repeat match goal with E : _ = _ |- _ => rewrite E; clear E end.
  cbn [negb]. unfold printf_line. erewrite bind_Ok by apply log_run. reflexivity.
Qed.

Lemma tabled_of w : tabled w (table_of w).
Proof. intros j. unfold table_of. now rewrite Nat2Z.id. Qed.

Lemma tabled_at w t id : tabled w t -> 0 <= id -> ring_at (Z.to_nat id) w = t id.
Proof. intros Ht Hid. rewrite (Ht (Z.to_nat id)), Z2Nat.id by exact Hid. reflexivity. Qed.

Lemma tabled_store w t id f :
  tabled w t -> 0 <= id -> tabled (ring_store (Z.to_nat id) f w) (table_set t id f).
Proof.
  intros Ht Hid j. unfold table_set.
  destruct (Z.of_nat j =? id) eqn:E.
  - apply Z.eqb_eq in E. subst id. rewrite Nat2Z.id, ring_at_store_same, (Ht j).
    reflexivity.
  - apply Z.eqb_neq in E. rewrite ring_at_store_other by lia. apply Ht.
Qed.

Lemma tabled_frame w w' t :
  ringbuffers w' = ringbuffers w -> tabled w t -> tabled w' t.
Proof. intros Hrb Ht j. unfold ring_at. rewrite Hrb. apply Ht. Qed.

Lemma ring_items_run items : forall id t fuel w tl,
  0 <= id < 5 ->
  tabled w t ->
  reader_ok w ->
  pending w = ring_section_lines items ++ tl ->
  Forall ring_item_ok items ->
  ring_items_admitted items id t ->
  exists w1 k,
    decode_ringbuffer_loop (length (ring_section_lines items) + fuel) id w
    = decode_ringbuffer_loop (k + fuel) (id_after items id) w1
    /\ 0 <= id_after items id < 5
    /\ tabled w1 (table_after items id t)
    /\ pending w1 = tl /\ reader_ok w1
    /\ out w1 = out w ++ ring_events items id t.
Proof.
  induction items as [|it items IH]; intros id t fuel w tl Hid Ht Hok Hpend Hall Hadm.
  - exists w, 0%nat. cbn. rewrite app_nil_r. repeat split; try assumption; lia.
  - apply Forall_cons in Hall as [Hit Hall]. destruct Hadm as [Hadm1 Hadm].
    assert (Hgo : forall w1 fuel1,
      0 <= id_after [it] id < 5 ->
      tabled w1 (ring_item_store it id t) ->
      reader_ok w1 -> pending w1 = ring_section_lines items ++ tl ->
      out w1 = out w ++ ring_item_events it id t ->
      (fuel <= fuel1)%nat ->
      exists w2 k,
        decode_ringbuffer_loop (length (ring_section_lines items) + fuel1)
          (id_after [it] id) w1
        = decode_ringbuffer_loop (k + fuel) (id_after (it :: items) id) w2
        /\ 0 <= id_after (it :: items) id < 5
        /\ tabled w2 (table_after (it :: items) id t)
        /\ pending w2 = tl /\ reader_ok w2
        /\ out w2 = out w ++ ring_events (it :: items) id t).
    { intros w1 fuel1 Hid1 Ht1 Hok1 Hp1 Ho1 Hle.
      destruct (IH _ _ fuel1 w1 tl Hid1 Ht1 Hok1 Hp1 Hall Hadm)
        as (w2 & k & Hrun & Hid2 & Ht2 & Hp2 & Hok2 & Ho2).
      exists w2, (k + (fuel1 - fuel))%nat.
      replace (k + (fuel1 - fuel) + fuel)%nat with (k + fuel1)%nat by lia.
      assert (Hida : id_after (it :: items) id = id_after items (id_after [it] id))
        by (destruct it; reflexivity).
      rewrite Hida. split; [exact Hrun |]. split; [exact Hid2 |].
      split; [exact Ht2 |]. split; [exact Hp2 |]. split; [exact Hok2 |].
      rewrite Ho2, Ho1. cbn [ring_events]. now rewrite <- app_assoc. }
    assert (Hfield : forall l f w1,
      popline w = Ok l w1 ->
      id_after [it] id = id -> ring_item_store it id t = table_set t id f ->
      ring_item_events it id t = [EvEcho l] ->
      pending w1 = ring_section_lines items ++ tl ->
      exists w2 k,
        decode_ringbuffer_loop (length (ring_section_lines items) + fuel) id
          (emit (EvEcho l) (ring_store (Z.to_nat id) f w1))
        = decode_ringbuffer_loop (k + fuel) (id_after (it :: items) id) w2
        /\ 0 <= id_after (it :: items) id < 5
        /\ tabled w2 (table_after (it :: items) id t)
        /\ pending w2 = tl /\ reader_ok w2
        /\ out w2 = out w ++ ring_events (it :: items) id t).
    { intros l f w1 Hpop Hsame Hstore Hev Hp1.
      destruct (popline_frame _ _ _ Hpop) as (Ho1 & _ & Hrb1 & _).
      pose proof (Hgo (emit (EvEcho l) (ring_store (Z.to_nat id) f w1)) fuel) as Hgo'.
      rewrite Hsame in Hgo'. apply Hgo'.
      - exact Hid.
      - rewrite Hstore. apply (tabled_frame (ring_store (Z.to_nat id) f w1)); [reflexivity |].
        apply tabled_store; [| lia]. apply (tabled_frame w); assumption.
      - apply reader_ok_emit, reader_ok_ring_store. eapply reader_ok_popline; eassumption.
      - exact Hp1.
      - rewrite out_emit, out_ring_store, Ho1, Hev. reflexivity.
      - lia. }
    destruct it as [l v|l a|l v|l v|l v|m p ws|l]; cbn [ring_item_ok] in Hit;
      unfold ring_section_lines in Hpend |- *;
      cbn [map concat ring_item_lines app length] in *;
      fold (ring_section_lines items) in *; cbn [Nat.add].
    + destruct Hit as [Hkey Hscan].
      destruct (popline_of_pending _ _ _ Hpend) as (w1 & Hpop & Hp1).
      destruct (popline_frame _ _ _ Hpop) as (Ho1 & _ & Hrb1 & _).
      rewrite (rb_step_id _ _ _ _ _ _ Hpop Hkey Hscan).
      replace (id_in_table (to_int v)) with true
        by (symmetry; apply id_in_table_iff; [pose proof (to_int_range v) |]; lia).
      apply (Hgo (emit (EvEcho l) w1) fuel).
      * exact Hadm1.
      * apply (tabled_frame w); [exact Hrb1 | exact Ht].
      * apply reader_ok_emit. eapply reader_ok_popline; eassumption.
      * exact Hp1.
      * rewrite out_emit, Ho1. reflexivity.
      * lia.
    + destruct Hit as [Hkey Hscan].
      destruct (popline_of_pending _ _ _ Hpend) as (w1 & Hpop & Hp1).
      rewrite (rb_step_iova _ _ _ _ _ _ Hpop Hkey Hscan).
      apply (Hfield l _ w1 Hpop); [reflexivity | reflexivity | reflexivity | exact Hp1].
    + destruct Hit as [Hkey Hscan].
      destruct (popline_of_pending _ _ _ Hpend) as (w1 & Hpop & Hp1).
      rewrite (rb_step_rptr _ _ _ _ _ _ Hpop Hkey Hscan).
      apply (Hfield l _ w1 Hpop); [reflexivity | reflexivity | reflexivity | exact Hp1].
    + destruct Hit as [Hkey Hscan].
      destruct (popline_of_pending _ _ _ Hpend) as (w1 & Hpop & Hp1).
      rewrite (rb_step_wptr _ _ _ _ _ _ Hpop Hkey Hscan).
      apply (Hfield l _ w1 Hpop); [reflexivity | reflexivity | reflexivity | exact Hp1].
    + destruct Hit as [Hkey Hscan].
      destruct (popline_of_pending _ _ _ Hpend) as (w1 & Hpop & Hp1).
      rewrite (rb_step_size _ _ _ _ _ _ Hpop Hkey Hscan).
      apply (Hfield l _ w1 Hpop); [reflexivity | reflexivity | reflexivity | exact Hp1].
    + destruct Hit as (Hkey & Hind & Hws).
      destruct (popline_of_pending _ _ _ Hpend) as (w1 & Hpop & Hp1).
      destruct (popline_of_pending _ _ _ Hp1) as (w2 & Hpop2 & Hp2).
      destruct (popline_frame _ _ _ Hpop) as (Ho1 & _ & Hrb1 & _).
      destruct (popline_frame _ _ _ Hpop2) as (Ho2 & _ & Hrb2 & _).
      assert (Ht1 : tabled w1 t) by (apply (tabled_frame w); assumption).
      assert (Ht2 : tabled w2 t) by (apply (tabled_frame w1); assumption).
      assert (Hr1 : ring_at (Z.to_nat id) w1 = t id) by (apply tabled_at; [exact Ht1 | lia]).
      assert (Hr2 : ring_at (Z.to_nat id) w2 = t id) by (apply tabled_at; [exact Ht2 | lia]).
      assert (Hdec : popline_ascii85 (size (ring_at (Z.to_nat id) w1) / 4) w1
                     = Ok (padded ws (size (t id))) w2).
      { rewrite Hr1. apply (popline_ascii85_payload _ w1 w2 p ws Hpop2 Hind Hws Hadm1). }
      rewrite (rb_step_data _ _ _ _ _ _ _ Hpop Hkey Hdec). rewrite Hr2.
      replace (S (length (ring_section_lines items) + fuel))
        with (length (ring_section_lines items) + S fuel)%nat by lia.
      apply (Hgo _ (S fuel)).
      * exact Hid.
      * cbn [ring_item_store].
        apply (tabled_frame (ring_store (Z.to_nat id) (with_buf (padded ws (size (t id)))) w2));
          [reflexivity |].
        apply tabled_store; [exact Ht2 | lia].
      * apply reader_ok_emit, reader_ok_ring_store.
        eapply reader_ok_popline; [| exact Hpop2]. eapply reader_ok_popline; eassumption.
      * exact Hp2.
      * rewrite out_emit, out_ring_store, Ho2, Ho1. reflexivity.
      * lia.
    + destruct (popline_of_pending _ _ _ Hpend) as (w1 & Hpop & Hp1).
      destruct (popline_frame _ _ _ Hpop) as (Ho1 & _ & Hrb1 & _).
      rewrite (rb_step_plain _ _ _ _ _ Hpop Hit).
      apply (Hgo (emit (EvEcho l) w1) fuel).
      * exact Hid.
      * apply (tabled_frame w); [exact Hrb1 | exact Ht].
      * apply reader_ok_emit. eapply reader_ok_popline; eassumption.
      * exact Hp1.
      * rewrite out_emit, Ho1. reflexivity.
      * lia.
Qed.

Lemma table_after_outside items : forall id t j,
  0 <= id < 5 -> ring_items_admitted items id t -> ~ 0 <= j < 5 ->
  table_after items id t j = t j.
Proof.
  induction items as [|it items IH]; intros id t j Hid Hadm Hj; [reflexivity |].
  destruct Hadm as [Hadm1 Hadm]. cbn [table_after].
  assert (Hstore : ring_item_store it id t j = t j).
  { destruct it; cbn [ring_item_store]; try reflexivity; unfold table_set;
      (destruct (j =? id) eqn:E; [apply Z.eqb_eq in E; lia | reflexivity]). }
  rewrite IH; [exact Hstore | | exact Hadm | exact Hj].
  destruct it; cbn [id_after]; try exact Hid. exact Hadm1.
Qed.

(** X9. [decode_ringbuffer] stores only into the five entries of
    [ringbuffers], and always into the entry named by the last [id:]
    line.  For a section read as a list of items whose [id:] lines name
    entries 0..4 and whose payloads fit their rings, the table after the
    run is the one obtained by applying every field line and payload to
    the entry that [id] names when the line is read ([id] starts at 0);
    entries outside 0..4 are never written.  The run returns at the next
    section header; and when the items are followed by an [id:] line
    whose number is outside 0..4, negative ones included, it stops at
    the assertion with the stores made so far and makes none for that
    entry. *)
Theorem decode_ringbuffer_stores (w : world) (items : list ring_item)
    (tail : list string) :
  reader_ok w ->
  pending w = ring_section_lines items ++ tail ->
  Forall ring_item_ok items ->
  ring_items_admitted items 0 (table_of w) ->
  (forall j, ~ 0 <= j < 5 -> table_after items 0 (table_of w) j = table_of w j)
  /\ (forall next rest,
        tail = next :: rest -> indented next = false ->
        exists w',
          decode_ringbuffer w = Ok tt w'
          /\ (forall j : nat, ring_at j w' = table_after items 0 (table_of w) (Z.of_nat j))
          /\ out w' = out w ++ ring_events items 0 (table_of w)
          /\ pending w' = next :: rest)
  /\ (forall l v rest,
        tail = l :: rest ->
        startswith l "  - id:" = true -> vsscanf l fmt_id = Some [v] ->
        ~ 0 <= to_int v < 5 ->
        exists w',
          decode_ringbuffer w = Stop (AssertFailed "id < ARRAY_SIZE(ringbuffers)") w'
          /\ (forall j : nat, ring_at j w' = table_after items 0 (table_of w) (Z.of_nat j))
          /\ out w' = out w ++ ring_events items 0 (table_of w)
          /\ pending w' = rest).
Proof.
  intros Hok Hpend Hall Hadm.
  split; [intros j Hj; apply table_after_outside; [lia | exact Hadm | exact Hj] |].
  assert (Hrun : forall x rest, tail = x :: rest ->
    exists w1 k,
      decode_ringbuffer w
      = decode_ringbuffer_loop (S (k + length rest)) (id_after items 0) w1
      /\ 0 <= id_after items 0 < 5
      /\ tabled w1 (table_after items 0 (table_of w))
      /\ pending w1 = x :: rest /\ reader_ok w1
      /\ out w1 = out w ++ ring_events items 0 (table_of w)).
  { intros x rest ->.
    unfold decode_ringbuffer. rewrite Hpend, length_app. cbn [length].
    replace (S (length (ring_section_lines items) + S (length rest)))%nat
      with (length (ring_section_lines items) + S (S (length rest)))%nat by lia.
    destruct (ring_items_run items 0 (table_of w) (S (S (length rest))) w (x :: rest))
      as (w1 & k & Hrun & Hid & Ht & Hp1 & Hok1 & Ho1);
      try assumption; [lia | apply tabled_of |].
    exists w1, (S k). rewrite Hrun.
    replace (k + S (S (length rest)))%nat with (S (S k + length rest)) by lia.
    repeat split; try assumption; lia. }
  split.
  - intros next rest Htail Hnext.
    destruct (Hrun next rest Htail) as (w1 & k & -> & Hid & Ht & Hp1 & Hok1 & Ho1).
    destruct (popline_of_pending w1 next rest Hp1) as (w2 & Hpop & Hp2).
    rewrite (rb_step_end _ _ _ _ _ Hpop Hnext).
    destruct (popline_pushline_pending _ _ _ Hok1 Hpop)
      as (w3 & Hpush & Hp3 & _ & Ho3 & Hrb3).
    destruct (popline_frame _ _ _ Hpop) as (_ & _ & Hrb2 & _).
    exists w3. split; [exact Hpush |]. split; [| split; congruence].
    apply (tabled_frame w1); [congruence | exact Ht].
  - intros l v rest Htail Hkey Hscan Hbad.
    destruct (Hrun l rest Htail) as (w1 & k & -> & Hid & Ht & Hp1 & Hok1 & Ho1).
    destruct (popline_of_pending w1 l rest Hp1) as (w2 & Hpop & Hp2).
    destruct (popline_frame _ _ _ Hpop) as (Ho2 & _ & Hrb2 & _).
    rewrite (rb_step_id _ _ _ _ _ _ Hpop Hkey Hscan).
    destruct (id_in_table (to_int v)) eqn:Et.
    + apply id_in_table_iff in Et; [contradiction |].
      pose proof (to_int_range v). lia.
    + exists w2. split; [reflexivity |]. split; [| split; congruence].
      apply (tabled_frame w1); assumption.
Qed.

End RingItems.

(** ** The ring loop of [dump_cmdstream] *)

Section RingDump.
Context `{Cffdec}.

Lemma cmdszdw_of_mod ringszdw rp wp :
  0 < ringszdw < 2 ^ 30 -> 0 <= rp < ringszdw -> 0 <= wp < ringszdw ->
  cmdszdw_of ringszdw rp wp = (wp - rp) mod ringszdw.
Proof.
  intros Hr Hrp Hwp. unfold cmdszdw_of, mod_add. rewrite to_int_wrap32.
  rewrite (to_int_small wp) by lia.
  assert (Hneg : to_int (- rp) = - rp).
  { destruct (Z.eq_dec rp 0) as [->|Hnz]; [reflexivity | apply to_int_neg; lia]. }
  rewrite Hneg, wrap32_small by lia.
  replace (ringszdw + wp + - rp) with (wp - rp + 1 * ringszdw) by lia.
  apply Z.mod_add. lia.
Qed.

Lemma copy_words_run n : forall id ringszdw words rp idx copied w,
  0 < ringszdw < 2 ^ 30 ->
  ring_backed w id ringszdw words ->
  0 <= rp < ringszdw ->
  0 <= idx -> idx + Z.of_nat n <= 2 ^ 30 ->
  copy_words n id ringszdw rp idx copied w
  = Ok (copied ++ map (word_at words)
                      (positions_from ringszdw ((rp + idx) mod ringszdw) n))
       (emits (map (EvRingLoad id)
                   (positions_from ringszdw ((rp + idx) mod ringszdw) n)) w).
Proof.
  induction n as [|n IH]; intros id ringszdw words rp idx copied w Hr Hb Hrp Hidx Hn.
  - cbn [copy_words positions_from seq map]. rewrite app_nil_r.
    unfold ret, emits. destruct w; simpl. now rewrite app_nil_r.
  - cbn [copy_words]. cbv zeta.
    assert (Hpos : 0 <= (rp + idx) mod ringszdw < ringszdw) by (apply Z.mod_pos_bound; lia).
    assert (Hp : to_int (mod_add ringszdw rp idx) = (rp + idx) mod ringszdw).
    { rewrite mod_add_exact by lia. apply to_int_small. lia. }
    rewrite Hp.
    erewrite bind_Ok by (eapply ring_load_run; eassumption).
    rewrite IH with (words := words); try lia;
      [| apply ring_backed_emits; exact Hb].
    rewrite positions_from_S by lia.
    replace (((rp + idx) mod ringszdw + 1) mod ringszdw)
      with ((rp + (idx + 1)) mod ringszdw)
      by (rewrite Zplus_mod_idemp_l; f_equal; lia).
    cbn [map]. rewrite emits_emits, <- app_assoc. reflexivity.
Qed.

(** X12. The word copy of [dump_cmdstream] reads the ring in order from
    [rptr], wrapping round at the end of the ring: the [i]-th word copied
    is the one at [(rptr + i) mod ringszdw], and one load is made per
    word. *)
Theorem copy_words_in_ring_order (n id : nat) (ringszdw rp : Z) (words : list Z)
    (w : world) :
  0 < ringszdw < 2 ^ 30 ->
  ring_backed w id ringszdw words ->
  0 <= rp < ringszdw ->
  Z.of_nat n <= ringszdw ->
  copy_words n id ringszdw rp 0 [] w
  = Ok (map (word_at words) (positions_from ringszdw rp n))
       (emits (map (EvRingLoad id) (positions_from ringszdw rp n)) w).
Proof.
  intros Hr Hb Hrp Hn.
  rewrite (copy_words_run n id ringszdw words rp 0 [] w) by (try assumption; lia).
  rewrite Z.add_0_r, Z.mod_small by exact Hrp. reflexivity.
Qed.

(** X13. One pass of the ring loop over a ring with its backing store
    and a write pointer inside the ring: the search returns the first
    probed position with a valid header (or the position after the
    twelfth probe), the words from there up to the write pointer are
    copied in ring order, and they are disassembled by exactly one
    [dump_commands] call at level 0, from the registers the pass started
    with. *)
Theorem dump_ring_run (id : nat) (w : world) (words : list Z) :
  let rb := ring_at id w in
  let ringszdw := Z.shiftr (size rb) 2 in
  let first := mod_add ringszdw (rptr rb) (- lookback) in
  0 <= size rb < 2 ^ 32 ->
  0 < ringszdw ->
  0 <= wptr rb < ringszdw ->
  ring_backed w id ringszdw words ->
  exists j,
    let rp := (first + Z.of_nat j) mod ringszdw in
    let c := (wptr rb - rp) mod ringszdw in
    let probes := positions_from ringszdw first (if (j <? 12)%nat then S j else 12%nat) in
    let copies := positions_from ringszdw rp (Z.to_nat c) in
    let dwords := map (word_at words) copies in
    (j <= 12)%nat
    /\ rejected (options w) words ringszdw first j
    /\ ((j < 12)%nat -> valid_header (options w) (word_at words rp) = true)
    /\ dump_ring id w
       = Ok tt (set_regs (dump_commands_regs dwords c 0 (options w) (regs w))
                  (emits ([EvPrintf (ln "found ring!") []]
                          ++ map (EvRingLoad id) probes
                          ++ [EvPrintf (ln "got cmdszdw=%d") [c]]
                          ++ map (EvRingLoad id) copies
                          ++ [EvDumpCommands dwords c 0 (regs w)]) w)).
Proof.
  intros rb ringszdw first Hsz Hr Hwp Hb.
  pose proof (ringszdw_bound _ Hsz) as Hr30. fold ringszdw in Hr30.
  assert (Hfirst : 0 <= first < ringszdw) by (apply mod_add_range; exact Hr).
  set (w1 := emits [EvPrintf (ln "found ring!") []] w).
  destruct (header_search_run (Z.to_nat lookback) id ringszdw words first w1)
    as (j & Hrun & Hj & Hrej & Hval); [lia | exact Hb | exact Hfirst |].
  change (Z.to_nat lookback) with 12%nat in *.
  exists j. cbv zeta.
  set (rp := (first + Z.of_nat j) mod ringszdw) in *.
  assert (Hrp : 0 <= rp < ringszdw) by (apply Z.mod_pos_bound; lia).
  set (c := (wptr rb - rp) mod ringszdw).
  assert (Hc : 0 <= c < ringszdw) by (apply Z.mod_pos_bound; lia).
  split; [exact Hj |]. split; [exact Hrej |]. split; [exact Hval |].
  unfold dump_ring.
  erewrite bind_Ok by apply log_run. erewrite bind_Ok by apply gets_run.
  change (ring_at id (emit (EvPrintf (ln "found ring!") []) w)) with rb.
  fold ringszdw. cbv zeta.
  destruct (ringszdw =? 0) eqn:E; [apply Z.eqb_eq in E; lia |].
  fold first. change (emit (EvPrintf (ln "found ring!") []) w) with w1.
  rewrite (bind_Ok _ _ _ _ _ Hrun).
  rewrite cmdszdw_of_mod by lia. fold c.
  erewrite bind_Ok by apply log_run.
  rewrite emit_emits.
  erewrite bind_Ok
    by (apply copy_words_run with (words := words);
        [lia | exact Hb | exact Hrp | lia | rewrite Z2Nat.id; lia]).
  rewrite Z.add_0_r, (Z.mod_small rp) by exact Hrp. cbn [app].
  unfold dump_commands. unfold w1. rewrite !emits_emits, emit_emits.
  change (options (emits _ w)) with (options w).
  change (regs (emits _ w)) with (regs w).
  rewrite <- !app_assoc. reflexivity.
Qed.

Lemma dump_ring_frame id w : ringbuffers (final (dump_ring id w)) = ringbuffers w.
Proof. apply (recon_dump_ring (fun _ => True) id I w). Qed.

Lemma dump_rings_from rb_base pre : forall k post w,
  Forall (fun id => iova (ring_at id w) <> rb_base) pre ->
  iova (ring_at k w) = rb_base ->
  dump_rings (pre ++ k :: post) rb_base w
  = (let* _ := dump_ring k in dump_rings post rb_base) w.
Proof.
  induction pre as [|id pre IH]; intros k post w Hpre Hk; cbn [app dump_rings].
  - erewrite bind_Ok by apply gets_run.
    apply Z.eqb_eq in Hk. rewrite Hk. reflexivity.
  - apply Forall_cons in Hpre as [Hid Hrest].
    erewrite bind_Ok by apply gets_run.
    apply Z.eqb_neq in Hid. rewrite Hid. cbn [negb]. apply IH; assumption.
Qed.

Lemma seq_split_at k n : (k < n)%nat -> seq 0 n = seq 0 k ++ k :: seq (S k) (n - S k).
Proof.
  intros Hk. replace n with (k + S (n - S k))%nat at 1 by lia.
  rewrite seq_app. reflexivity.
Qed.

(** X14. A ring of fewer than four bytes whose address is the ring base:
    [ringszdw] is zero and the first [mod_add] divides by it.  The run
    stops there, right after announcing the ring; no word is loaded and
    nothing is disassembled.  Rings before it in the table that do not
    match are passed over. *)
Theorem dump_cmdstream_empty_ring (w : world) (k : nat) :
  Forall resolves (cp_names (options w)) ->
  (k < 5)%nat ->
  (forall j, (j < k)%nat -> iova (ring_at j w) <> regval64_in w "CP_RB_BASE") ->
  iova (ring_at k w) = regval64_in w "CP_RB_BASE" ->
  Z.shiftr (size (ring_at k w)) 2 = 0 ->
  exists evs,
    dump_cmdstream w
    = Stop (Undefined DivisionByZero)
           (emit (EvPrintf (ln "found ring!") []) (after_reset w evs))
    /\ forallb is_cp_read evs = true.
Proof.
  intros Hres Hk Hpre Hmatch Hzero.
  destruct (dump_cmdstream_run w Hres) as (evs & -> & Hcp & _).
  exists evs. split; [| exact Hcp].
  rewrite (seq_split_at k 5 Hk).
  rewrite dump_rings_from.
  - unfold dump_ring. rewrite !bind_assoc.
    erewrite bind_Ok by apply log_run. rewrite bind_assoc.
    erewrite bind_Ok by apply gets_run.
    change (ring_at k (emit _ (after_reset w evs))) with (ring_at k w).
    cbv zeta. rewrite Hzero. reflexivity.
  - apply Forall_forall. intros j Hj. apply elem_of_seq in Hj.
    change (ring_at j (after_reset w evs)) with (ring_at j w). apply Hpre. lia.
  - exact Hmatch.
Qed.

(** X15. A ring that was given a size but no [data:] payload has no
    backing store: the first probe of the search loads through the null
    pointer, and the run stops there. *)
Theorem dump_ring_without_data (id : nat) (w : world) :
  let rb := ring_at id w in
  let ringszdw := Z.shiftr (size rb) 2 in
  ringszdw <> 0 ->
  buf rb = None ->
  dump_ring id w
  = Stop (Undefined LoadPastBuffer)
         (emits [EvPrintf (ln "found ring!") [];
                 EvRingLoad id (mod_add ringszdw (rptr rb) (- lookback))] w).
Proof.
  intros rb ringszdw Hnz Hbuf. unfold dump_ring.
  erewrite bind_Ok by apply log_run. erewrite bind_Ok by apply gets_run.
  change (ring_at id (emit (EvPrintf (ln "found ring!") []) w)) with rb.
  fold ringszdw. cbv zeta.
  apply Z.eqb_neq in Hnz. rewrite Hnz.
  change (Z.to_nat lookback) with 12%nat. cbn [header_search].
  unfold ring_load. rewrite !bind_assoc.
  erewrite bind_Ok by apply log_run. rewrite bind_assoc.
  erewrite bind_Ok by apply gets_run.
  change (ring_at id (emit _ (emit _ w))) with rb.
  rewrite Hbuf. unfold emit, emits. cbn. rewrite <- app_assoc. reflexivity.
Qed.

(** X16. When the registers resolve and exactly one ring of the table
    has the ring base as its address, [dump_cmdstream] is the register
    reads and the reset followed by one pass of the ring loop over that
    ring: the other four rings contribute nothing, before or after. *)
Theorem dump_cmdstream_one_ring (w : world) (k : nat) :
  Forall resolves (cp_names (options w)) ->
  (k < 5)%nat ->
  iova (ring_at k w) = regval64_in w "CP_RB_BASE" ->
  (forall j, (j < 5)%nat -> j <> k -> iova (ring_at j w) <> regval64_in w "CP_RB_BASE") ->
  exists evs,
    dump_cmdstream w = dump_ring k (after_reset w evs)
    /\ forallb is_cp_read evs = true
    /\ Forall (fun n => In (EvRegVal (wrap32 (regbase n))) evs) (cp_names (options w)).
Proof.
  intros Hres Hk Hmatch Hothers.
  destruct (dump_cmdstream_run w Hres) as (evs & -> & Hcp & Hin).
  exists evs. split; [| split; assumption].
  rewrite (seq_split_at k 5 Hk).
  rewrite dump_rings_from.
  - unfold bind at 1.
    pose proof (dump_ring_frame k (after_reset w evs)) as Hfr.
    destruct (dump_ring k (after_reset w evs)) as [[] w1|why w1]; [| reflexivity].
    cbn [final] in Hfr.
    apply dump_rings_skip. apply Forall_forall. intros j Hj. apply elem_of_seq in Hj.
    unfold ring_at. rewrite Hfr.
    change (nth j (ringbuffers (after_reset w evs)) ring_zero) with (ring_at j w).
    apply Hothers; lia.
  - apply Forall_forall. intros j Hj. apply elem_of_seq in Hj.
    change (ring_at j (after_reset w evs)) with (ring_at j w). apply Hothers; lia.
  - exact Hmatch.
Qed.

End RingDump.

(** ** The [debugbus] section *)

Section DebugBusFacts.
Context `{Libc}.

Lemma ascii85_loop_stop fuel : forall line idx b why,
  ascii85_loop fuel line idx b = inl why ->
  why = OutOfFuel \/ exists u, why = Undefined u.
Proof.
  induction fuel as [|fuel IH]; intros line idx b why; cbn [ascii85_loop].
  - intros E. inversion E. left. reflexivity.
  - destruct (deref line =? LF)%char; [discriminate |].
    assert (Hstore : forall v, match store b idx v with
                               | inl y => y = Undefined StorePastBuffer
                               | inr _ => True end).
    { intros v. unfold store. destruct (idx <? length b)%nat; [exact I | reflexivity]. }
    destruct (deref line =? "z")%char.
    + specialize (Hstore 0). destruct (store b idx 0) as [y|b'].
      * intros E. inversion E; subst. right. eexists. reflexivity.
      * destruct line as [|c rest].
        -- intros E. inversion E. right. eexists. reflexivity.
        -- apply IH.
    + destruct (ascii85_group 5 line 0) as [[a rest]|].
      * specialize (Hstore a). destruct (store b idx a) as [y|b'].
        -- intros E. inversion E; subst. right. eexists. reflexivity.
        -- destruct rest as [rest|].
           ++ apply IH.
           ++ intros E. inversion E. right. eexists. reflexivity.
      * intros E. inversion E. right. eexists. reflexivity.
Qed.

(** Once it has its line, [popline_ascii85] does not end the program
    normally. *)
Lemma popline_ascii85_no_exit N w w1 l why w' :
  popline w = Ok l w1 -> popline_ascii85 N w = Stop why w' -> why <> Exit0.
Proof.
  intros Hpop Hdec. rewrite (popline_ascii85_line N w w1 l Hpop) in Hdec.
  destruct (deref l =? " ")%char; [| inversion Hdec; discriminate].
  destruct (ascii85_loop _ _ _ _) as [why'|b'] eqn:Hl; [| discriminate Hdec].
  inversion Hdec; subst.
  destruct (ascii85_loop_stop _ _ _ _ _ Hl) as [->|[u ->]]; discriminate.
Qed.

(** A run that stops with a failure, having added nothing. *)
Lemma summarised_fail w why w' :
  out w' = out w -> ringbuffers w' = ringbuffers w -> regs w' = regs w ->
  verbose w' = verbose w ->
  why <> OutOfFuel -> why <> Exit0 ->
  summarised w (Stop why w').
Proof.
  intros Ho Hrb Hrg Hv Hf He. exists []. cbn [final stopped map]. rewrite app_nil_r.
  split; [exact Ho |]. split; [apply prefix_nil |].
  split; [intros [E|E]; inversion E; contradiction |].
  repeat split; try assumption. intros E. inversion E. contradiction.
Qed.

(** A run that ends where nothing is left to show. *)
Lemma summarised_done w (r : result unit) :
  echoed_lines false (pending w) = [] ->
  out (final r) = out w -> ringbuffers (final r) = ringbuffers w ->
  regs (final r) = regs w -> verbose (final r) = verbose w ->
  stopped r <> Some OutOfFuel ->
  summarised w r.
Proof.
  intros Hnone Ho Hrb Hrg Hv Hf. exists []. cbn [map]. rewrite app_nil_r, Hnone.
  repeat split; try assumption. apply prefix_nil.
Qed.

Lemma summarised_echo w l w1 r :
  popline w = Ok l w1 ->
  indented l = true -> startswith l "    data: !!ascii85 |" = false ->
  summarised (emit (EvEcho l) w1) r -> summarised w r.
Proof.
  intros Hpop Hind Hnd (ls & Ho & Hs & Hfull & Hrb & Hrg & Hv & Hst).
  destruct (popline_pending _ _ _ Hpop) as [Hpend Hout].
  destruct (popline_frame _ _ _ Hpop) as (_ & Hv1 & Hrb1 & Hrg1 & _).
  exists (l :: ls). rewrite Hpend. cbn [map echoed_lines]. rewrite Hind, Hnd. cbn [negb].
  rewrite pending_emit in Hs, Hfull. rewrite out_emit, <- app_assoc in Ho. cbn [app] in Ho.
  cbn [ringbuffers regs verbose emit] in Hrb, Hrg, Hv.
  split; [congruence |]. split; [apply prefix_cons, Hs |].
  split; [intros Hend; rewrite (Hfull Hend); reflexivity |].
  repeat split; congruence.
Qed.

Lemma summarised_skip w m w1 p w2 r :
  popline w = Ok m w1 ->
  indented m = true -> startswith m "    data: !!ascii85 |" = true ->
  popline w1 = Ok p w2 ->
  summarised w2 r -> summarised w r.
Proof.
  intros Hpop Hind Hd Hpop2 (ls & Ho & Hs & Hfull & Hrb & Hrg & Hv & Hst).
  destruct (popline_pending _ _ _ Hpop) as [Hpend Hout].
  destruct (popline_pending _ _ _ Hpop2) as [Hpend2 Hout2].
  destruct (popline_frame _ _ _ Hpop) as (_ & Hv1 & Hrb1 & Hrg1 & _).
  destruct (popline_frame _ _ _ Hpop2) as (_ & Hv2 & Hrb2 & Hrg2 & _).
  exists ls. rewrite Hpend, Hpend2. cbn [echoed_lines]. rewrite Hind, Hd. cbn [negb].
  repeat split; try congruence; assumption.
Qed.

Lemma decode_debugbus_loop_summarised fuel : forall sz w,
  (length (pending w) < fuel)%nat ->
  verbose w = false ->
  summarised w (decode_debugbus_loop fuel sz w).
Proof.
  induction fuel as [|fuel IH]; intros sz w Hf Hv; [lia |].
  cbn [decode_debugbus_loop]. unfold bind at 1.
  destruct (popline w) as [line w1|why w1] eqn:Hpop.
  2:{ pose proof Hpop as Hp. apply popline_stop in Hp as [-> ->].
      apply summarised_done; try reflexivity; [| discriminate].
      unfold popline, pending in *. destruct (pushedline w); [discriminate |].
      destruct (input w); [reflexivity | discriminate]. }
  destruct (popline_pending _ _ _ Hpop) as [Hpend Ho1].
  destruct (popline_frame _ _ _ Hpop) as (_ & Hv1 & Hrb1 & Hrg1 & _).
  rewrite Hpend in Hf. cbn [length] in Hf.
  fold (indented line). destruct (indented line) eqn:Hind; cbn [negb].
  2:{ assert (Hnone : echoed_lines false (pending w) = []).
      { rewrite Hpend. cbn [echoed_lines]. rewrite Hind. reflexivity. }
      destruct (pushline_cases w1) as [(w' & Hp & _)| ->].
      - rewrite Hp. unfold pushline in Hp. destruct (pushedline w1); inversion Hp; subst.
        apply summarised_done; cbn [final stopped]; try assumption; discriminate.
      - apply summarised_done; cbn [final stopped]; try assumption; discriminate. }
  assert (Hgo : forall sz',
    startswith line "    data: !!ascii85 |" = false ->
    summarised w
      ((let* _ := printf_line line in decode_debugbus_loop fuel sz') w1)).
  { intros sz' Hnd. unfold printf_line. erewrite bind_Ok by apply log_run.
    apply (summarised_echo _ _ _ _ Hpop Hind Hnd).
    apply IH; [rewrite pending_emit; lia | cbn [verbose emit]; congruence]. }
  destruct (startswith line "  - debugbus-block:") eqn:Hkb.
  { rewrite parseline_run.
    destruct (scanned (vsscanf line fmt_block) =? count_percent fmt_block).
    - erewrite bind_Ok by reflexivity. apply Hgo.
      apply startswith_prefix in Hkb as [r ->]. reflexivity.
    - erewrite bind_Stop by reflexivity.
      apply summarised_fail; try assumption; discriminate. }
  destruct (startswith line "    count:") eqn:Hkc.
  { rewrite parseline_run.
    destruct (scanned (vsscanf line fmt_count) =? count_percent fmt_count).
    - erewrite bind_Ok by reflexivity. apply Hgo.
      apply startswith_prefix in Hkc as [r ->]. reflexivity.
    - erewrite bind_Stop by reflexivity.
      apply summarised_fail; try assumption; discriminate. }
  destruct (startswith line "    data: !!ascii85 |") eqn:Hkd; [| apply Hgo; reflexivity].
  destruct (popline_ascii85_final sz w1) as [Hfin Hnf].
  unfold bind at 1.
  destruct (popline_ascii85 sz w1) as [b w2|why w2] eqn:Hdec; cbn [final stopped] in Hfin, Hnf.
  - destruct Hfin as [(_ & _ & E)|[l Hpop2]]; [discriminate E |].
    destruct (popline_pending _ _ _ Hpop2) as [Hpend2 _].
    destruct (popline_frame _ _ _ Hpop2) as (_ & Hv2 & _).
    apply (summarised_skip _ _ _ _ _ _ Hpop Hind Hkd Hpop2).
    erewrite bind_Ok by apply gets_run.
    replace (verbose w2) with false by congruence.
    erewrite bind_Ok by (unfold ret; reflexivity).
    apply IH; [rewrite Hpend2 in Hf; cbn [length] in Hf; lia | congruence].
  - destruct Hfin as [(-> & Hstop & E)|[l Hpop2]].
    + (* the marker is the last line of the input *)
      inversion E; subst why.
      apply summarised_done; cbn [final stopped]; try assumption.
      rewrite Hpend. cbn [echoed_lines]. rewrite Hind, Hkd. cbn [negb].
      assert (Hp1 : pending w1 = []).
      { unfold popline, pending in *. destruct (pushedline w1); [discriminate |].
        destruct (input w1); [reflexivity | discriminate]. }
      rewrite Hp1. reflexivity.
    + destruct (popline_pending _ _ _ Hpop2) as [Hpend2 Ho2].
      destruct (popline_frame _ _ _ Hpop2) as (_ & Hv2 & Hrb2 & Hrg2 & _).
      apply summarised_fail; try congruence.
      apply (popline_ascii85_no_exit sz w1 w2 l _ _ Hpop2 Hdec).
Qed.

(** X17. Without [verbose], [decode_debugbus] only summarises: whatever
    the input, the run adds to the output exactly the echoes of the
    section's lines other than the [data:] markers and the payload lines
    that follow them, in their order: all of them when the run returns
    or the input ends, the first few when the run stops before.  No
    marker and no payload is shown, no buffer is registered or dumped,
    and the rings and registers are left alone.  The loop ends within
    the lines of the input. *)
Theorem decode_debugbus_summarises (w : world) :
  verbose w = false -> summarised w (decode_debugbus w).
Proof.
  intros Hv. unfold decode_debugbus.
  apply decode_debugbus_loop_summarised; [lia | exact Hv].
Qed.

Lemma dbg_step_end fuel sz w line w1 :
  popline w = Ok line w1 -> (deref line =? " ")%char = false ->
  decode_debugbus_loop (S fuel) sz w = pushline w1.
Proof.
  intros Hpop Hind. cbn [decode_debugbus_loop]. rewrite (bind_Ok _ _ _ _ _ Hpop).
  rewrite Hind. reflexivity.
Qed.

Lemma dbg_step_block fuel sz w line w1 v :
  popline w = Ok line w1 ->
  startswith line "  - debugbus-block:" = true ->
  vsscanf line fmt_block = Some [v] ->
  decode_debugbus_loop (S fuel) sz w
  = decode_debugbus_loop fuel sz (emit (EvEcho line) w1).
Proof.
  intros Hpop Hkey Hscan.
  assert (Hind : (deref line =? " ")%char = true)
    by (apply startswith_prefix in Hkey as [r ->]; reflexivity).
  cbn [decode_debugbus_loop]. rewrite (bind_Ok _ _ _ _ _ Hpop).
  rewrite Hind, Hkey. cbn [negb].
  erewrite bind_Ok by (apply parseline_ok; unfold scans; rewrite Hscan; reflexivity).
  unfold printf_line. erewrite bind_Ok by apply log_run. reflexivity.
Qed.

Lemma dbg_step_count fuel sz w line w1 v :
  popline w = Ok line w1 ->
  startswith line "    count:" = true ->
  vsscanf line fmt_count = Some [v] ->
  decode_debugbus_loop (S fuel) sz w
  = decode_debugbus_loop fuel (wrap32 v) (emit (EvEcho line) w1).
Proof.
  intros Hpop Hkey Hscan.
  assert (Hind : (deref line =? " ")%char = true
                 /\ startswith line "  - debugbus-block:" = false)
    by (apply startswith_prefix in Hkey as [r ->]; split; reflexivity).
  destruct Hind as [Hind H0].
  cbn [decode_debugbus_loop]. rewrite (bind_Ok _ _ _ _ _ Hpop).
  rewrite Hind, H0, Hkey. cbn [negb].
  erewrite bind_Ok by (apply parseline_ok; unfold scans; rewrite Hscan; reflexivity).
  rewrite Hscan. unfold printf_line. erewrite bind_Ok by apply log_run. reflexivity.
Qed.

Lemma dbg_step_data fuel sz w line w1 b w2 :
  popline w = Ok line w1 ->
  startswith line "    data: !!ascii85 |" = true ->
  popline_ascii85 sz w1 = Ok b w2 ->
  decode_debugbus_loop (S fuel) sz w
  = decode_debugbus_loop fuel sz
      (if verbose w2 then emit (EvDumpHexAscii b (wrap32 (4 * sz)) 1) w2 else w2).
Proof.
  intros Hpop Hkey Hdec.
  assert (Hind : (deref line =? " ")%char = true
                 /\ startswith line "  - debugbus-block:" = false
                 /\ startswith line "    count:" = false)
    by (apply startswith_prefix in Hkey as [r ->]; repeat split; reflexivity).
  destruct Hind as (Hind & H0 & H1).
  cbn [decode_debugbus_loop]. rewrite (bind_Ok _ _ _ _ _ Hpop).
  rewrite Hind, H0, H1, Hkey. cbn [negb].
  rewrite (bind_Ok _ _ _ _ _ Hdec).
  erewrite bind_Ok by apply gets_run.
  unfold dump_hex_ascii.
  destruct (verbose w2).
  - erewrite bind_Ok by apply log_run. reflexivity.
  - erewrite bind_Ok by (unfold ret; reflexivity). reflexivity.
Qed.

(** X18. A well-formed block of a [debugbus] section: [count:] gives the
    payload's length in words (not in bytes, as [size:] does in [bos]).
    The name and count lines are echoed; the payload is decoded and, with
    [verbose] only, hex-dumped as [4 * count] bytes; the marker and the
    payload line are never echoed. *)
Theorem decode_debugbus_block (w : world) (l_block l_count l_data next : string)
    (v : Z) (ws : list Z) (indent : nat) (rest : list string) :
  reader_ok w ->
  pending w = l_block :: l_count :: l_data :: encode_line indent ws :: next :: rest ->
  startswith l_block "  - debugbus-block:" = true -> vsscanf l_block fmt_block = Some [v] ->
  startswith l_count "    count:" = true ->
  vsscanf l_count fmt_count = Some [Z.of_nat (length ws)] ->
  startswith l_data "    data: !!ascii85 |" = true ->
  Forall is_u32 ws -> (0 < indent)%nat -> Z.of_nat (length ws) < 2 ^ 30 ->
  indented next = false ->
  exists w',
    decode_debugbus w = Ok tt w'
    /\ out w' = out w ++ [EvEcho l_block; EvEcho l_count]
                 ++ (if verbose w
                     then [EvDumpHexAscii ws (4 * Z.of_nat (length ws)) 1] else [])
    /\ pending w' = next :: rest.
Proof.
  intros Hok Hpend Hkb Hsb Hkc Hsc Hkd Hall Hind Hlen Hnext.
  set (n := Z.of_nat (length ws)) in *.
  unfold decode_debugbus. rewrite Hpend. cbn [length].
  destruct (popline_of_pending _ _ _ Hpend) as (w1 & Hpop1 & Hp1).
  rewrite (dbg_step_block _ _ _ _ _ _ Hpop1 Hkb Hsb).
  destruct (popline_of_pending (emit (EvEcho l_block) w1) _ _ Hp1) as (w2 & Hpop2 & Hp2).
  rewrite (dbg_step_count _ _ _ _ _ _ Hpop2 Hkc Hsc).
  destruct (popline_of_pending (emit (EvEcho l_count) w2) _ _ Hp2) as (w3 & Hpop3 & Hp3).
  destruct (popline_of_pending w3 _ _ Hp3) as (w4 & Hpop4 & Hp4).
  assert (Hsz : wrap32 n = n) by (apply wrap32_small; lia).
  assert (Hdec : popline_ascii85 (wrap32 n) w3 = Ok ws w4).
  { apply popline_ascii85_encoded with (indent := indent); try assumption.
    rewrite Hsz, calloc_words_small by lia. apply Nat2Z.id. }
  rewrite (dbg_step_data _ _ _ _ _ _ _ Hpop3 Hkd Hdec).
  set (w5 := if verbose w4 then emit (EvDumpHexAscii ws (wrap32 (4 * wrap32 n)) 1) w4
             else w4).
  assert (Hok1 : reader_ok w1) by (eapply reader_ok_popline; eassumption).
  assert (Hok2 : reader_ok w2) by (eapply reader_ok_popline; [| exact Hpop2]; exact Hok1).
  assert (Hok3 : reader_ok w3) by (eapply reader_ok_popline; [| exact Hpop3]; exact Hok2).
  assert (Hok4 : reader_ok w4) by (eapply reader_ok_popline; eassumption).
  assert (Hw5 : pending w5 = next :: rest /\ reader_ok w5).
  { unfold w5. destruct (verbose w4); split; assumption. }
  destruct Hw5 as [Hp5 Hok5].
  destruct (popline_of_pending w5 _ _ Hp5) as (w6 & Hpop6 & Hp6).
  rewrite (dbg_step_end _ _ _ _ _ Hpop6 Hnext).
  destruct (popline_pushline_pending _ _ _ Hok5 Hpop6) as (w7 & Hpush & Hp7 & _ & Hout7 & _).
  exists w7. split; [exact Hpush |]. split; [| congruence].
  destruct (popline_frame _ _ _ Hpop1) as (Ho1 & Hv1 & _).
  destruct (popline_frame _ _ _ Hpop2) as (Ho2 & Hv2 & _).
  destruct (popline_frame _ _ _ Hpop3) as (Ho3 & Hv3 & _).
  destruct (popline_frame _ _ _ Hpop4) as (Ho4 & Hv4 & _).
  cbn [out verbose emit] in Ho2, Hv2, Ho3, Hv3.
  assert (Hv : verbose w4 = verbose w) by congruence.
  rewrite Hout7. unfold w5. rewrite Hsz, (wrap32_small (4 * n)) by lia.
  rewrite Hv. destruct (verbose w);
    cbn [out emit]; rewrite Ho4, Ho3, Ho2, Ho1, <- ?app_assoc; cbn [app];
    rewrite ?app_nil_r; reflexivity.
Qed.

End DebugBusFacts.

(** * [headergen.c] *)


Lemma column_after_app s1 : forall col s2,
  column_after col (s1 +:+ s2) = column_after (column_after col s1) s2.
Proof.
  induction s1 as [|c s1 IH]; intros col s2; [reflexivity |].
  cbn [String.append column_after]. apply IH.
Qed.

Lemma column_after_spaces n : forall col,
  column_after col (put " " n) = col + Z.of_nat n.
Proof.
  induction n as [|n IH]; intros col; cbn [put column_after]; [lia |].
  rewrite IH. unfold advance. cbn. lia.
Qed.

Lemma column_after_tabs n : forall col,
  0 <= col -> (0 < n)%nat ->
  column_after col (put HT n) = (col / 8 + Z.of_nat n) * 8.
Proof.
  induction n as [|n IH]; intros col Hcol Hn; [lia |].
  cbn [put column_after]. unfold advance at 1. cbn [Ascii.eqb HT Bool.eqb].
  destruct n as [|n].
  - cbn [put column_after]. lia.
  - assert (Hq : 0 <= col / 8) by (apply Z.div_pos; lia).
    rewrite IH by lia.
    rewrite Z.div_mul by lia. lia.
Qed.

Lemma seekcol_back src dst :
  dst <= src -> seekcol src dst = Some (String HT EmptyString).
Proof. intros Hle. unfold seekcol. apply Z.leb_le in Hle. now rewrite Hle. Qed.

Lemma seekcol_forward src dst :
  0 <= src -> src < dst < 2 ^ 31 ->
  exists s, seekcol src dst = Some s /\ column_after src s = dst.
Proof.
  intros Hsrc Hdst. unfold seekcol.
  destruct (dst <=? src) eqn:E; [apply Z.leb_le in E; lia |].
  rewrite !Z.quot_div_nonneg by lia.
  assert (Hq : src / 8 <= dst / 8) by (apply Z.div_le_mono; lia).
  assert (Hd8 : 0 <= dst / 8 < 2 ^ 31)
    by (split; [apply Z.div_pos; lia | apply Z.div_lt_upper_bound; lia]).
  assert (Hs8 : 0 <= src / 8) by (apply Z.div_pos; lia).
  rewrite (to_int_small (dst / 8 - src / 8)) by lia.
  rewrite (to_int_small (dst - src)) by lia.
  destruct (dst / 8 - src / 8 =? 0) eqn:En; cbn [negb].
  - unfold put_while. destruct (dst - src <? 0) eqn:Elt; [apply Z.ltb_lt in Elt; lia |].
    eexists. split; [reflexivity |]. rewrite column_after_spaces, Z2Nat.id by lia. lia.
  - apply Z.eqb_neq in En. unfold put_while.
    destruct (dst / 8 - src / 8 <? 0) eqn:Elt; [apply Z.ltb_lt in Elt; lia |].
    change 7 with (Z.ones 3). rewrite Z.land_ones by lia. change (2 ^ 3) with 8.
    assert (Hm : 0 <= dst mod 8 < 8) by (apply Z.mod_pos_bound; lia).
    destruct (dst mod 8 <? 0) eqn:Em; [apply Z.ltb_lt in Em; lia |].
    eexists. split; [reflexivity |].
    rewrite column_after_app, column_after_tabs, column_after_spaces by lia.
    rewrite !Z2Nat.id by lia.
    pose proof (Z.div_mod dst 8). lia.
Qed.

(** X19. [seekcol] always returns for columns in the range of [int],
    and what it prints moves a terminal with tab stops every eight
    columns from column [src] exactly to column [dst]; when [dst] is not
    beyond [src] it prints a single tab, which leads to the next stop. *)
Theorem seekcol_reaches (src dst : Z) :
  0 <= src < 2 ^ 31 -> 0 <= dst < 2 ^ 31 ->
  exists s, seekcol src dst = Some s /\ column_after src s = sought src dst.
Proof.
  intros Hsrc Hdst. unfold sought.
  destruct (dst <=? src) eqn:E.
  - apply Z.leb_le in E. exists (String HT EmptyString).
    split; [apply seekcol_back, E | reflexivity].
  - apply Z.leb_gt in E. apply seekcol_forward; lia.
Qed.

Lemma column_after_plain s : forall col,
  Forall (fun c => c <> HT) (chars s) ->
  column_after col s = col + Z.of_nat (String.length s).
Proof.
  induction s as [|c s IH]; intros col Hall; cbn [column_after String.length chars] in *.
  - lia.
  - apply Forall_cons in Hall as [Hc Hall]. rewrite IH by exact Hall.
    unfold advance. apply Ascii.eqb_neq in Hc. rewrite Hc. lia.
Qed.

(** X20. [printdef] prints the definition's head, a gap and the value.
    For a head without tabs the value starts at column 64, or at column
    56 when it is a hexadecimal value above 32 bits, provided the head
    ends before that column; a longer head is followed by one tab. *)
Theorem printdef_value_column (hex : nat -> Z -> string) (dec : Z -> string)
    (name : string) (suf : option string) (type val : Z) :
  let head := define_head name suf in
  Forall (fun c => c <> HT) (chars head) ->
  Z.of_nat (String.length head) < 2 ^ 31 ->
  exists gap,
    printdef hex dec name suf type val = Some (head +:+ gap +:+ value_text hex dec type val)
    /\ column_after 0 (head +:+ gap)
       = sought (Z.of_nat (String.length head)) (value_column type val)
    /\ (Z.of_nat (String.length head) < value_column type val ->
        column_after 0 (head +:+ gap) = value_column type val).
Proof.
  intros head Hplain Hlen. unfold printdef. fold head.
  rewrite to_int_small by lia.
  assert (Hcol : 0 <= value_column type val < 2 ^ 31).
  { unfold value_column, startcol.
    destruct ((type =? 0) && (4294967295 <? val)); lia. }
  assert (Hseek : exists gap,
            seekcol (Z.of_nat (String.length head)) (value_column type val) = Some gap
            /\ column_after (Z.of_nat (String.length head)) gap
               = sought (Z.of_nat (String.length head)) (value_column type val)).
  { unfold sought.
    destruct (value_column type val <=? Z.of_nat (String.length head)) eqn:E.
    - apply Z.leb_le in E. exists (String HT EmptyString).
      split; [apply seekcol_back, E | reflexivity].
    - apply Z.leb_gt in E. apply seekcol_forward; lia. }
  destruct Hseek as (gap & -> & Hgap).
  exists gap. split; [reflexivity |].
  assert (Hreach : column_after 0 (head +:+ gap)
                   = sought (Z.of_nat (String.length head)) (value_column type val)).
  { rewrite column_after_app, (column_after_plain head) by exact Hplain.
    rewrite Z.add_0_l. exact Hgap. }
  split; [exact Hreach |].
  intros Hlt. rewrite Hreach. unfold sought.
  destruct (value_column type val <=? Z.of_nat (String.length head)) eqn:E;
    [apply Z.leb_le in E; lia | reflexivity].
Qed.


(** * [os_file.h] *)

Lemma readN_inv (ENODATA EINTR EAGAIN : Z) reads :
  0 < ENODATA -> 0 < EINTR -> 0 < EAGAIN ->
  forall len got0 r got rest,
  readN ENODATA EINTR EAGAIN reads len got0 = Some (r, got, rest) ->
  exists used err,
    reads = used ++ rest /\ got = got0 ++ stored_by used
    /\ err <= 0 /\ r = readN_result (Z.of_nat (length got)) err.
Proof.
  intros ENODATA_pos EINTR_pos EAGAIN_pos.
  induction reads as [|x reads IH]; intros len got0 r got rest Hrun; [discriminate |].
  cbn [readN] in Hrun. cbv zeta in Hrun.
  assert (Hgo : forall g, readN ENODATA EINTR EAGAIN reads len (got0 ++ stored x) = Some (r, g, rest) ->
                exists used err,
                  x :: reads = used ++ rest /\ g = got0 ++ stored_by used
                  /\ err <= 0 /\ r = readN_result (Z.of_nat (length g)) err).
  { intros g Hg. destruct (IH _ _ _ _ _ Hg) as (used & err & -> & -> & He & ->).
    exists (x :: used), err. unfold stored_by. cbn [map concat].
    rewrite <- !app_assoc. repeat split; assumption. }
  assert (Hend : forall err, err <= 0 ->
                 exists used err',
                   x :: reads = used ++ reads /\ got0 ++ stored x = got0 ++ stored_by used
                   /\ err' <= 0
                   /\ readN_result (Z.of_nat (length (got0 ++ stored x))) err
                      = readN_result (Z.of_nat (length (got0 ++ stored x))) err').
  { intros err He. exists [x], err. unfold stored_by. cbn [map concat app].
    rewrite app_nil_r. repeat split. exact He. }
  destruct ((ret_of x =? - EINTR) || (ret_of x =? - EAGAIN)) eqn:Eretry.
  - assert (Hx : stored x = []).
    { destruct x as [bs|e]; [| reflexivity]. cbn [ret_of] in Eretry.
      apply orb_true_iff in Eretry as [E|E]; apply Z.eqb_eq in E; lia. }
    destruct (Z.of_nat (length got0) =? len); cbn [negb] in Hrun.
    + inversion Hrun; subst.
      destruct (Hend (- ENODATA)) as (used & err' & H1 & H2 & H3 & H4); [lia |].
      rewrite Hx, app_nil_r in H2, H4. exists used, err'. repeat split; assumption.
    + apply Hgo. rewrite Hx, app_nil_r. exact Hrun.
  - destruct (ret_of x <=? 0) eqn:Ele.
    + apply Z.leb_le in Ele.
      assert (Hx : stored x = []).
      { destruct x as [bs|e]; [| reflexivity]. cbn [ret_of] in Ele.
        destruct bs; [reflexivity | cbn [length] in Ele; lia]. }
      inversion Hrun; subst.
      destruct (Hend (ret_of x) Ele) as (used & err' & H1 & H2 & H3 & H4).
      rewrite Hx, app_nil_r in H2, H4. exists used, err'. repeat split; assumption.
    + destruct (Z.of_nat (length (got0 ++ stored x)) =? len); cbn [negb] in Hrun.
      * inversion Hrun; subst.
        destruct (Hend (- ENODATA)) as (used & err' & H1 & H2 & H3 & H4); [lia |].
        exists used, err'. repeat split; assumption.
      * apply Hgo, Hrun.
Qed.

(** X21. Whenever [readN] returns, the bytes in the buffer are those
    stored by the calls it made, in order.  If any byte was stored the
    return value is their number, whatever ended the loop: an error that
    follows a partial read is not reported.  A value that is not
    positive is returned only with an empty buffer. *)
Theorem readN_error_only_when_empty (ENODATA EINTR EAGAIN : Z)
    (reads : list read_outcome) (len r : Z) (got : list Z) (rest : list read_outcome) :
  0 < ENODATA -> 0 < EINTR -> 0 < EAGAIN ->
  readN ENODATA EINTR EAGAIN reads len [] = Some (r, got, rest) ->
  exists used,
    reads = used ++ rest /\ got = stored_by used
    /\ (got <> [] -> r = Z.of_nat (length got))
    /\ (got = [] -> r <= 0).
Proof.
  intros HD HI HA Hrun.
  destruct (readN_inv _ _ _ _ HD HI HA _ _ _ _ _ Hrun) as (used & err & Hu & Hg & He & Hr).
  exists used. cbn [app] in Hg. split; [exact Hu |]. split; [exact Hg |].
  unfold readN_result in Hr. split.
  - intros Hne. destruct (Z.of_nat (length got) =? 0) eqn:E; [| exact Hr].
    apply Z.eqb_eq in E. destruct got; [contradiction | cbn [length] in E; lia].
  - intros Hnil. rewrite Hnil in Hr. change (r = err) in Hr. lia.
Qed.

Lemma readN_progress (ENODATA EINTR EAGAIN : Z) used :
  0 < EINTR -> 0 < EAGAIN ->
  forall reads len got,
  Forall (progresses EINTR EAGAIN) used ->
  Z.of_nat (length (got ++ stored_by used)) < len ->
  readN ENODATA EINTR EAGAIN (used ++ reads) len got = readN ENODATA EINTR EAGAIN reads len (got ++ stored_by used).
Proof.
  intros EINTR_pos EAGAIN_pos.
  induction used as [|x used IH]; intros reads len got Hall Hlen.
  - unfold stored_by. cbn [map concat app]. now rewrite app_nil_r.
  - apply Forall_cons in Hall as [Hx Hall].
    unfold stored_by in *. cbn [map concat] in *. rewrite app_assoc in Hlen.
    assert (Hshort : Z.of_nat (length (got ++ stored x)) < len).
    { rewrite length_app in Hlen. lia. }
    cbn [app readN]. cbv zeta.
    destruct Hx as [Hretry|(bs & -> & Hne)].
    + destruct x as [bs|e]; [discriminate |]. cbn [retried] in Hretry.
      cbn [ret_of stored] in *. rewrite app_nil_r in Hshort.
      replace ((- e =? - EINTR) || (- e =? - EAGAIN)) with true.
      2:{ symmetry. apply orb_true_iff. apply orb_true_iff in Hretry as [E|E];
          apply Z.eqb_eq in E; subst; [left | right]; apply Z.eqb_refl. }
      destruct (Z.of_nat (length got) =? len) eqn:E; [apply Z.eqb_eq in E; lia |].
      cbn [negb]. rewrite IH by (try assumption; rewrite app_nil_r in Hlen; exact Hlen).
      now rewrite app_nil_l.
    + cbn [ret_of stored] in *.
      assert (Hpos : 0 < Z.of_nat (length bs)) by (destruct bs; [contradiction | cbn [length]; lia]).
      replace ((Z.of_nat (length bs) =? - EINTR) || (Z.of_nat (length bs) =? - EAGAIN))
        with false.
      2:{ symmetry. apply orb_false_iff. split; apply Z.eqb_neq; lia. }
      destruct (Z.of_nat (length bs) <=? 0) eqn:Ele; [apply Z.leb_le in Ele; lia |].
      destruct (Z.of_nat (length (got ++ bs)) =? len) eqn:E; [apply Z.eqb_eq in E; lia |].
      cbn [negb]. rewrite IH by assumption. now rewrite app_assoc.
Qed.

(** X22. A read that fills the buffer: after calls that are repeated
    ([EINTR], [EAGAIN]) or store part of the data, the call that brings
    the total to [len] ends the loop.  [readN] returns [len], the buffer
    holds the stored bytes in order, and no further call is made. *)
Theorem readN_fills_buffer (ENODATA EINTR EAGAIN : Z)
    (used rest : list read_outcome) (bs : list Z) (len : Z) :
  0 < EINTR -> 0 < EAGAIN ->
  Forall (progresses EINTR EAGAIN) used ->
  bs <> [] ->
  len = Z.of_nat (length (stored_by used ++ bs)) ->
  readN ENODATA EINTR EAGAIN (used ++ ReadBytes bs :: rest) len []
  = Some (len, stored_by used ++ bs, rest).
Proof.
  intros EINTR_pos EAGAIN_pos Hall Hne Hlen.
  assert (Hpos : 0 < Z.of_nat (length bs)) by (destruct bs; [contradiction | cbn [length]; lia]).
  rewrite readN_progress;
    [| exact EINTR_pos | exact EAGAIN_pos | exact Hall
     | cbn [app]; rewrite Hlen, length_app; lia].
  cbn [app readN ret_of stored]. cbv zeta.
  replace ((Z.of_nat (length bs) =? - EINTR) || (Z.of_nat (length bs) =? - EAGAIN))
    with false.
  2:{ symmetry. apply orb_false_iff. split; apply Z.eqb_neq; lia. }
  destruct (Z.of_nat (length bs) <=? 0) eqn:Ele; [apply Z.leb_le in Ele; lia |].
  rewrite <- Hlen, Z.eqb_refl. cbn [negb]. unfold readN_result.
  destruct (len =? 0) eqn:E; [| reflexivity].
  apply Z.eqb_eq in E. rewrite length_app in Hlen. lia.
Qed.

(** X23. A read that ends early: when, before [len] bytes are stored,
    a call meets the end of the file or fails with an error other than
    [EINTR] and [EAGAIN], the loop ends there.  [readN] returns the
    number of bytes stored so far if there are any, and otherwise zero
    at the end of the file and the negated [errno] after an error. *)
Theorem readN_ends_early (ENODATA EINTR EAGAIN : Z)
    (used rest : list read_outcome) (last : read_outcome) (len : Z) :
  0 < EINTR -> 0 < EAGAIN ->
  Forall (progresses EINTR EAGAIN) used ->
  Z.of_nat (length (stored_by used)) < len ->
  (last = ReadBytes []
   \/ exists e, last = ReadError e /\ 0 < e /\ retried EINTR EAGAIN last = false) ->
  readN ENODATA EINTR EAGAIN (used ++ last :: rest) len []
  = Some (if stored_by used is [] then ret_of last else Z.of_nat (length (stored_by used)),
          stored_by used, rest).
Proof.
  intros EINTR_pos EAGAIN_pos Hall Hlen Hlast.
  rewrite readN_progress; [| exact EINTR_pos | exact EAGAIN_pos | exact Hall | exact Hlen].
  cbn [app readN]. cbv zeta.
  assert (Hret : (ret_of last =? - EINTR) || (ret_of last =? - EAGAIN) = false
                 /\ ret_of last <= 0).
  { destruct Hlast as [->|(e & -> & He & Hnr)]; cbn [ret_of length retried] in *.
    - split; [| lia]. apply orb_false_iff. split; apply Z.eqb_neq; lia.
    - split; [| lia]. apply orb_false_iff in Hnr as [H1 H2].
      apply Z.eqb_neq in H1, H2.
      apply orb_false_iff. split; apply Z.eqb_neq; lia. }
  destruct Hret as [-> Hle]. apply Z.leb_le in Hle. rewrite Hle.
  unfold readN_result. destruct (stored_by used) as [|b l]; [reflexivity |].
  cbn [length]. destruct (Z.of_nat (S (length l)) =? 0) eqn:E; [apply Z.eqb_eq in E; lia |].
  reflexivity.
Qed.

(** * The further properties on concrete dumps *)

Lemma reader_is_a_queue_witness :
  exists w1,
    popline (Example.start 630 [ln "a"; ln "b"]) = Ok (ln "a") w1
    /\ pending w1 = [ln "b"] /\ reader_ok w1
    /\ exists w2, pushline w1 = Ok tt w2 /\ pending w2 = [ln "a"; ln "b"] /\ reader_ok w2.
Proof.
  apply (proj1 (proj2 (reader_is_a_queue (Example.start 630 [ln "a"; ln "b"])
                         (reader_ok_start _ _ _ _ _ _))) (ln "a") [ln "b"]).
  reflexivity.
Defined.

Lemma popline_ascii85_success_witness :
  exists line ws,
    popline (Example.start 630 [ln "  z!!!!#"])
    = Ok line (set_reader [] (Some (ln "  z!!!!#")) None (Example.start 630 []))
    /\ pending (Example.start 630 [ln "  z!!!!#"])
       = line :: pending (set_reader [] (Some (ln "  z!!!!#")) None (Example.start 630 []))
    /\ (deref line =? " ")%char = true
    /\ In LF (chars line)
    /\ @payload_words Example.libc (skip_spaces line) = Some ws
    /\ (length ws <= calloc_words 4)%nat
    /\ Forall is_u32 ws
    /\ [0; 2; 0; 0] = ws ++ replicate (calloc_words 4 - length ws) 0
    /\ length [0; 2; 0; 0] = calloc_words 4.
Proof.
  apply (@popline_ascii85_success Example.libc 4 (Example.start 630 [ln "  z!!!!#"])).
  reflexivity.
Defined.

Lemma popline_ascii85_overflow_witness :
  @popline_ascii85 Example.libc 1 Example.overlong_world
  = Stop (Undefined StorePastBuffer)
         (set_reader [] (Some (ln " zz")) None (Example.start 630 [])).
Proof.
  apply (@popline_ascii85_overflow Example.libc 1 Example.overlong_world _ (ln " zz") [0; 0]).
  - reflexivity.
  - reflexivity.
  - reflexivity.
  - vm_compute. lia.
Defined.

Lemma decode_bos_echoes_witness :
  exists w',
    @decode_bos Example.libc (Example.start 630 (Sample.plain_lines ++ [ln "registers:"]))
    = Ok tt w'
    /\ out w' = out (Example.start 630 (Sample.plain_lines ++ [ln "registers:"]))
                ++ map EvEcho Sample.plain_lines
    /\ pending w' = [ln "registers:"]
    /\ (exists w'', popline w' = Ok (ln "registers:") w'')
    /\ ringbuffers w'
       = ringbuffers (Example.start 630 (Sample.plain_lines ++ [ln "registers:"]))
    /\ regs w' = regs (Example.start 630 (Sample.plain_lines ++ [ln "registers:"])).
Proof.
  apply (@decode_bos_echoes Example.libc
           (Example.start 630 (Sample.plain_lines ++ [ln "registers:"]))
           Sample.plain_lines [] (ln "registers:")).
  - apply reader_ok_start.
  - reflexivity.
  - repeat (constructor; [reflexivity |]). constructor.
  - reflexivity.
Defined.

Lemma decode_bos_end_of_input_witness :
  exists w',
    @decode_bos Example.libc (Example.start 630 Sample.plain_lines) = Stop Exit0 w'
    /\ out w' = out (Example.start 630 Sample.plain_lines)
                ++ map EvEcho (pending (Example.start 630 Sample.plain_lines))
    /\ pending w' = [].
Proof.
  apply (@decode_bos_end_of_input Example.libc (Example.start 630 Sample.plain_lines)).
  - apply reader_ok_start.
  - repeat (constructor; [reflexivity |]). constructor.
Defined.

Lemma decode_bos_entry_witness :
  exists w',
    @decode_bos Example.libc (Example.start 630 Sample.bos_entry) = Ok tt w'
    /\ out w' = out (Example.start 630 Sample.bos_entry)
                ++ [EvEcho (ln "  - iova: 1000"); EvEcho (ln "    size: 8")]
                ++ (if verbose (Example.start 630 Sample.bos_entry)
                    then [EvDumpHexAscii [0; 0] (4 * Z.of_nat (length [0; 0])) 1] else [])
                ++ [EvAddBuffer 4096 (4 * Z.of_nat (length [0; 0])) [0; 0]]
    /\ pending w' = [ln "registers:"].
Proof.
  apply (@decode_bos_entry Example.libc (Example.start 630 Sample.bos_entry)
           (ln "  - iova: 1000") (ln "    size: 8") (ln "    data: !!ascii85 |")
           (ln "registers:") 4096 [0; 0] 5 []).
  - apply reader_ok_start.
  - reflexivity.
  - reflexivity.
  - reflexivity.
  - reflexivity.
  - reflexivity.
  - reflexivity.
  - repeat (constructor; [unfold is_u32; lia |]). constructor.
  - lia.
  - vm_compute. reflexivity.
  - lia.
  - reflexivity.
Defined.

Lemma decode_ringbuffer_stores_witness :
  (exists w',
     @decode_ringbuffer Example.libc (Example.start 630 Sample.ring_record) = Ok tt w'
     /\ (forall j : nat,
          ring_at j w'
          = table_after Sample.ring_items 0
              (table_of (Example.start 630 Sample.ring_record)) (Z.of_nat j))
     /\ out w' = out (Example.start 630 Sample.ring_record)
                 ++ ring_events Sample.ring_items 0
                      (table_of (Example.start 630 Sample.ring_record))
     /\ pending w' = [ln "registers:"])
  /\ (exists w',
       @decode_ringbuffer Example.libc
         (Example.start 630 [ln "    rptr: 14"; ln "  - id: 7"; ln "    rptr: 3"])
       = Stop (AssertFailed "id < ARRAY_SIZE(ringbuffers)") w'
       /\ (forall j : nat,
            ring_at j w'
            = table_after [RRptr (ln "    rptr: 14") 14] 0
                (table_of (Example.start 630
                             [ln "    rptr: 14"; ln "  - id: 7"; ln "    rptr: 3"]))
                (Z.of_nat j))
       /\ out w' = out (Example.start 630
                          [ln "    rptr: 14"; ln "  - id: 7"; ln "    rptr: 3"])
                   ++ ring_events [RRptr (ln "    rptr: 14") 14] 0
                        (table_of (Example.start 630
                                     [ln "    rptr: 14"; ln "  - id: 7"; ln "    rptr: 3"]))
       /\ pending w' = [ln "    rptr: 3"]).
Proof.
  split.
  - destruct (@decode_ringbuffer_stores Example.libc
                (Example.start 630 Sample.ring_record) Sample.ring_items [ln "registers:"])
      as (_ & Hret & _).
    + apply reader_ok_start.
    + reflexivity.
    + repeat (constructor; [cbn; repeat split; reflexivity |]). constructor.
    + cbn. repeat split; first [lia | vm_compute; congruence | vm_compute; lia].
    + apply (Hret (ln "registers:") [] eq_refl). reflexivity.
  - destruct (@decode_ringbuffer_stores Example.libc
                (Example.start 630 [ln "    rptr: 14"; ln "  - id: 7"; ln "    rptr: 3"])
                [RRptr (ln "    rptr: 14") 14] [ln "  - id: 7"; ln "    rptr: 3"])
      as (_ & _ & Hbad).
    + apply reader_ok_start.
    + reflexivity.
    + repeat (constructor; [cbn; repeat split; reflexivity |]). constructor.
    + cbn. repeat split.
    + apply (Hbad (ln "  - id: 7") 7 [ln "    rptr: 3"] eq_refl).
      * reflexivity.
      * reflexivity.
      * vm_compute. intros [_ Hlt]. discriminate Hlt.
Defined.

Lemma decode_ringbuffer_bad_id_witness :
  exists w',
    @decode_ringbuffer Example.libc (Example.start 630 [ln "  - id: 7"; ln "    rptr: 1"])
    = Stop (AssertFailed "id < ARRAY_SIZE(ringbuffers)") w'
    /\ out w' = out (Example.start 630 [ln "  - id: 7"; ln "    rptr: 1"])
    /\ ringbuffers w' = ringbuffers (Example.start 630 [ln "  - id: 7"; ln "    rptr: 1"])
    /\ pending w' = [ln "    rptr: 1"].
Proof.
  apply (@decode_ringbuffer_bad_id Example.libc
           (Example.start 630 [ln "  - id: 7"; ln "    rptr: 1"])
           (ln "  - id: 7") [ln "    rptr: 1"] 7).
  - reflexivity.
  - reflexivity.
  - reflexivity.
  - vm_compute. intros [_ Hlt]. discriminate Hlt.
Defined.

Lemma decode_ringbuffer_record_witness :
  exists w',
    @decode_ringbuffer Example.libc (Example.start 630 Sample.ring_record) = Ok tt w'
    /\ ring_at (Z.to_nat 1) w'
       = mk_ring 20480 14 15 (4 * Z.of_nat (length (replicate 16 0)))
                 (Some (replicate 16 0))
    /\ (forall j, j <> Z.to_nat 1 ->
        ring_at j w' = ring_at j (Example.start 630 Sample.ring_record))
    /\ out w' = out (Example.start 630 Sample.ring_record)
                ++ [EvEcho (ln "  - id: 1"); EvEcho (ln "    iova: 5000");
                    EvEcho (ln "    rptr: 14"); EvEcho (ln "    wptr: 15");
                    EvEcho (ln "    size: 64");
                    EvAddBuffer 20480 (4 * Z.of_nat (length (replicate 16 0)))
                                (replicate 16 0)]
    /\ pending w' = [ln "registers:"]
    /\ ring_backed w' (Z.to_nat 1)
         (Z.shiftr (4 * Z.of_nat (length (replicate 16 0))) 2) (replicate 16 0).
Proof.
  apply (@decode_ringbuffer_record Example.libc (Example.start 630 Sample.ring_record)
           (ln "  - id: 1") (ln "    iova: 5000") (ln "    rptr: 14") (ln "    wptr: 15")
           (ln "    size: 64") (ln "    data: !!ascii85 |") (ln "registers:")
           1 20480 14 15 (replicate 16 0) 5 []).
  - apply reader_ok_start.
  - reflexivity.
  - reflexivity.
  - reflexivity.
  - reflexivity.
  - reflexivity.
  - reflexivity.
  - reflexivity.
  - reflexivity.
  - reflexivity.
  - reflexivity.
  - reflexivity.
  - reflexivity.
  - lia.
  - lia.
  - lia.
  - lia.
  - repeat (constructor; [unfold is_u32; lia |]). constructor.
  - lia.
  - vm_compute. reflexivity.
  - reflexivity.
Defined.

Lemma copy_words_in_ring_order_witness :
  copy_words 3 0 16 14 0 [] Example.ring_world
  = Ok (map (word_at (replicate 16 0)) (positions_from 16 14 3))
       (emits (map (EvRingLoad 0) (positions_from 16 14 3)) Example.ring_world).
Proof.
  apply (copy_words_in_ring_order 3 0 16 14 (replicate 16 0) Example.ring_world).
  - lia.
  - split; [reflexivity | vm_compute; discriminate].
  - lia.
  - lia.
Defined.

Lemma dump_ring_run_witness :
  let rb := ring_at 0 Example.ring_world in
  let ringszdw := Z.shiftr (size rb) 2 in
  let first := mod_add ringszdw (rptr rb) (- lookback) in
  exists j,
    let rp := (first + Z.of_nat j) mod ringszdw in
    let c := (wptr rb - rp) mod ringszdw in
    let probes := positions_from ringszdw first (if (j <? 12)%nat then S j else 12%nat) in
    let copies := positions_from ringszdw rp (Z.to_nat c) in
    let dwords := map (word_at (replicate 16 0)) copies in
    (j <= 12)%nat
    /\ @rejected Example.cffdec (options Example.ring_world) (replicate 16 0) ringszdw first j
    /\ ((j < 12)%nat ->
        @valid_header Example.cffdec (options Example.ring_world)
          (word_at (replicate 16 0) rp) = true)
    /\ @dump_ring Example.cffdec 0 Example.ring_world
       = Ok tt (set_regs (@dump_commands_regs Example.cffdec dwords c 0
                            (options Example.ring_world) (regs Example.ring_world))
                  (emits ([EvPrintf (ln "found ring!") []]
                          ++ map (EvRingLoad 0) probes
                          ++ [EvPrintf (ln "got cmdszdw=%d") [c]]
                          ++ map (EvRingLoad 0) copies
                          ++ [EvDumpCommands dwords c 0 (regs Example.ring_world)])
                     Example.ring_world)).
Proof.
  apply (@dump_ring_run Example.cffdec 0 Example.ring_world (replicate 16 0)).
  - vm_compute. repeat split; congruence.
  - vm_compute. reflexivity.
  - vm_compute. repeat split; congruence.
  - split; [reflexivity | vm_compute; discriminate].
Defined.

Lemma dump_cmdstream_empty_ring_witness :
  exists evs,
    @dump_cmdstream Example.cffdec (Example.start 630 [])
    = Stop (Undefined DivisionByZero)
           (emit (EvPrintf (ln "found ring!") [])
                 (@after_reset Example.cffdec (Example.start 630 []) evs))
    /\ forallb is_cp_read evs = true.
Proof.
  apply (@dump_cmdstream_empty_ring Example.cffdec (Example.start 630 []) 0).
  - repeat (constructor; [vm_compute; discriminate |]). constructor.
  - lia.
  - intros j Hj. lia.
  - reflexivity.
  - reflexivity.
Defined.

Lemma dump_ring_without_data_witness :
  @dump_ring Example.cffdec 0 Sample.bare_ring_world
  = Stop (Undefined LoadPastBuffer)
         (emits [EvPrintf (ln "found ring!") [];
                 EvRingLoad 0 (mod_add (Z.shiftr (size (ring_at 0 Sample.bare_ring_world)) 2)
                                       (rptr (ring_at 0 Sample.bare_ring_world))
                                       (- lookback))]
                Sample.bare_ring_world).
Proof.
  apply (@dump_ring_without_data Example.cffdec 0 Sample.bare_ring_world).
  - vm_compute. discriminate.
  - reflexivity.
Defined.

Lemma dump_cmdstream_one_ring_witness :
  exists evs,
    @dump_cmdstream Example.cffdec Sample.one_ring_world
    = @dump_ring Example.cffdec 0 (@after_reset Example.cffdec Sample.one_ring_world evs)
    /\ forallb is_cp_read evs = true
    /\ Forall (fun n => In (EvRegVal (wrap32 (@regbase Example.cffdec n))) evs)
              (cp_names (options Sample.one_ring_world)).
Proof.
  apply (@dump_cmdstream_one_ring Example.cffdec Sample.one_ring_world 0).
  - repeat (constructor; [vm_compute; discriminate |]). constructor.
  - lia.
  - vm_compute. reflexivity.
  - intros j Hj Hne.
    do 5 (destruct j as [|j]; [first [contradiction | vm_compute; discriminate] |]). lia.
Defined.

Lemma decode_debugbus_summarises_witness :
  summarised (Example.start 630 Sample.debugbus_block)
    (@decode_debugbus Sample.libc (Example.start 630 Sample.debugbus_block)).
Proof.
  apply (@decode_debugbus_summarises Sample.libc (Example.start 630 Sample.debugbus_block)).
  reflexivity.
Defined.

Lemma decode_debugbus_block_witness :
  exists w',
    @decode_debugbus Sample.libc (Example.start 630 Sample.debugbus_block) = Ok tt w'
    /\ out w' = out (Example.start 630 Sample.debugbus_block)
                ++ [EvEcho (ln "  - debugbus-block: A6XX_DBGBUS_CP");
                    EvEcho (ln "    count: 2")]
                ++ (if verbose (Example.start 630 Sample.debugbus_block)
                    then [EvDumpHexAscii [0; 0] (4 * Z.of_nat (length [0; 0])) 1] else [])
    /\ pending w' = [ln "clusters:"].
Proof.
  apply (@decode_debugbus_block Sample.libc (Example.start 630 Sample.debugbus_block)
           (ln "  - debugbus-block: A6XX_DBGBUS_CP") (ln "    count: 2")
           (ln "    data: !!ascii85 |") (ln "clusters:") 4096 [0; 0] 5 []).
  - apply reader_ok_start.
  - reflexivity.
  - reflexivity.
  - reflexivity.
  - reflexivity.
  - reflexivity.
  - reflexivity.
  - repeat (constructor; [unfold is_u32; lia |]). constructor.
  - lia.
  - vm_compute. reflexivity.
  - reflexivity.
Defined.

Lemma seekcol_reaches_witness :
  exists s, seekcol 10 64 = Some s /\ column_after 10 s = sought 10 64.
Proof. apply (seekcol_reaches 10 64); lia. Defined.

Lemma printdef_value_column_witness :
  exists gap,
    printdef (fun _ _ => "00000010") (fun _ => "16") "REG_A" None 0 16
    = Some (define_head "REG_A" None +:+ gap
            +:+ value_text (fun _ _ => "00000010") (fun _ => "16") 0 16)
    /\ column_after 0 (define_head "REG_A" None +:+ gap)
       = sought (Z.of_nat (String.length (define_head "REG_A" None))) (value_column 0 16)
    /\ (Z.of_nat (String.length (define_head "REG_A" None)) < value_column 0 16 ->
        column_after 0 (define_head "REG_A" None +:+ gap) = value_column 0 16).
Proof.
  apply (printdef_value_column (fun _ _ => "00000010") (fun _ => "16") "REG_A" None 0 16).
  - repeat (constructor; [discriminate |]). constructor.
  - vm_compute. reflexivity.
Defined.

Lemma readN_error_only_when_empty_witness :
  exists used,
    [ReadBytes [1; 2]; ReadError Sample.EIO] = used ++ []
    /\ [1; 2] = stored_by used
    /\ ([1; 2] <> [] -> 2 = Z.of_nat (length [1; 2]))
    /\ ([1; 2] = [] -> 2 <= 0).
Proof.
  apply (readN_error_only_when_empty Sample.ENODATA Sample.EINTR Sample.EAGAIN
           [ReadBytes [1; 2]; ReadError Sample.EIO] 4 2 [1; 2] []).
  - reflexivity.
  - reflexivity.
  - reflexivity.
  - reflexivity.
Defined.

Lemma readN_fills_buffer_witness :
  readN Sample.ENODATA Sample.EINTR Sample.EAGAIN
    ([ReadError Sample.EINTR; ReadBytes [1]] ++ ReadBytes [2; 3] :: [ReadBytes [4]]) 3 []
  = Some (3, stored_by [ReadError Sample.EINTR; ReadBytes [1]] ++ [2; 3], [ReadBytes [4]]).
Proof.
  apply (readN_fills_buffer Sample.ENODATA Sample.EINTR Sample.EAGAIN
           [ReadError Sample.EINTR; ReadBytes [1]] [ReadBytes [4]] [2; 3] 3).
  - reflexivity.
  - reflexivity.
  - constructor; [left; reflexivity |].
    constructor; [right; exists [1]; split; [reflexivity | discriminate] |]. constructor.
  - discriminate.
  - reflexivity.
Defined.

Lemma readN_ends_early_witness :
  readN Sample.ENODATA Sample.EINTR Sample.EAGAIN
    ([ReadBytes [1]] ++ ReadError Sample.EIO :: []) 4 []
  = Some (if stored_by [ReadBytes [1]] is [] then ret_of (ReadError Sample.EIO)
          else Z.of_nat (length (stored_by [ReadBytes [1]])),
          stored_by [ReadBytes [1]], []).
Proof.
  apply (readN_ends_early Sample.ENODATA Sample.EINTR Sample.EAGAIN
           [ReadBytes [1]] [] (ReadError Sample.EIO) 4).
  - reflexivity.
  - reflexivity.
  - constructor; [right; exists [1]; split; [reflexivity | discriminate] |]. constructor.
  - vm_compute. reflexivity.
  - right. exists Sample.EIO. repeat split.
Defined.
